(** * GeoSplat: ENU placement, plane-fit tilt lock, scale calibration,
      alignment controller and adjustment tracker

    Shallow embedding of
      - src/alignment/composeModelMatrix.ts   (composeModelMatrixENU)
      - src/alignment/planeFit.ts             (estimatePlaneNormal, ...)
      - src/alignment/scaleCalibration.ts     (metersPerUnitFromRoadWidth)
      - src/controllers/AlignmentController.ts
      - src/adjustment-tracker.ts
      - src/types/alignment.ts

    Conventions.
    - A TypeScript [number] is an ideal real number ([R]): rounding, NaN and
      the infinities of IEEE doubles are outside the model, with two
      exceptions: [Binary64] redoes the scale arithmetic of [adjustScale]
      in doubles, and [Haversine.distanceInMeters] returns [None] for NaN.
    - A function that can [throw] returns a [completion]; mutable objects are
      threaded explicitly (the controller, its tracker, the module-level
      frame cache).
    - [console.*] output and the deferred [setTimeout] diagnostic of
      [lockTilt] change no state and are left out.
    - [Date.now()] is an input: every logging operation receives the
      timestamp it reads as an argument [now]. *)

From Stdlib Require Import Reals Lra Lia List String ZArith Bool.
From Stdlib Require Import DecimalString.
From Stdlib Require PrimFloat.
Import ListNotations.
Open Scope R_scope.

(* ================================================================= *)
(** ** JavaScript runtime pieces *)

Module JS.

(** [new Error(message)] *)
Record Error : Type := mkError { message : string }.

(** Outcome of a call: a normal return or a thrown [Error]. *)
Inductive completion (A : Type) : Type :=
| Normal (a : A)
| Throw (e : Error).
Arguments Normal {A} a.
Arguments Throw {A} e.

Definition isThrow {A} (c : completion A) : bool :=
  match c with Normal _ => false | Throw _ => true end.

Definition bind {A B} (c : completion A) (k : A -> completion B)
  : completion B :=
  match c with Normal a => k a | Throw e => Throw e end.

(** Methods that mutate an object of type [S] and may throw: the state
    reached when the exception is raised is kept. *)
Definition M (S A : Type) : Type := S -> completion A * S.

Definition ret {S A} (a : A) : M S A := fun s => (Normal a, s).

Definition bindM {S A B} (m : M S A) (k : A -> M S B) : M S B :=
  fun s => match m s with
           | (Normal a, s') => k a s'
           | (Throw e, s') => (Throw e, s')
           end.

Definition gets {S A} (f : S -> A) : M S A := fun s => (Normal (f s), s).

Definition modify {S} (f : S -> S) : M S unit := fun s => (Normal tt, f s).

(** Lifts a call that only computes (and may throw). *)
Definition call {S A} (c : completion A) : M S A := fun s => (c, s).

(** [try { body } catch (error) { handler }] *)
Definition tryCatch {S A} (body : M S A) (handler : Error -> M S A)
  : M S A :=
  fun s => match body s with
           | (Normal a, s') => (Normal a, s')
           | (Throw e, s') => handler e s'
           end.

(** [x || d] on numbers: [0] is falsy. *)
Definition orDefault (x d : R) : R := if Req_dec_T x 0 then d else x.

(** Truthiness of an optional boolean property. *)
Definition truthy (b : option bool) : bool :=
  match b with Some true => true | _ => false end.

(** Truthiness of an optional object/array property. *)
Definition present {A} (o : option A) : bool :=
  match o with Some _ => true | None => false end.

(** [Math.atan2(y, x)]. *)
Definition Math_atan2 (y x : R) : R :=
  if Rlt_dec 0 x then atan (y / x)
  else if Rlt_dec x 0 then
         (if Rle_dec 0 y then atan (y / x) + PI else atan (y / x) - PI)
  else if Rlt_dec 0 y then PI / 2
  else if Rlt_dec y 0 then - (PI / 2)
  else 0.

(** [Map<string, V>] as used by the frame cache: [has]/[get]/[set]. *)
Section StringMap.
Context {V : Type}.
Definition Map := list (string * V).
Fixpoint Map_get (k : string) (m : Map) : option V :=
  match m with
  | [] => None
  | (k', v) :: m' => if String.eqb k k' then Some v else Map_get k m'
  end.
Definition Map_has (k : string) (m : Map) : bool := present (Map_get k m).
Fixpoint Map_set (k : string) (v : V) (m : Map) : Map :=
  match m with
  | [] => [(k, v)]
  | (k', v') :: m' =>
      if String.eqb k k' then (k, v) :: m' else (k', v') :: Map_set k v m'
  end.
End StringMap.
Arguments Map V : clear implicits.

End JS.
Import JS.

Declare Scope js_scope.
Notation "x <- c ;; k" := (JS.bindM c (fun x => k))
  (at level 61, c at next level, right associativity) : js_scope.
Notation "c ;;; k" := (JS.bindM c (fun _ => k))
  (at level 61, right associativity) : js_scope.
Open Scope js_scope.

(* ================================================================= *)
(** ** The Cesium linear algebra the composer calls

    Cesium stores matrices column-major; the field [cIrJ] is column [I],
    row [J], listed in storage order, so that [fromArray] is positional. *)

Module Cesium.

Record Cartesian3 : Type := mkCartesian3 { x : R; y : R; z : R }.

Record Matrix3 : Type := mkMatrix3 {
  c0r0 : R; c0r1 : R; c0r2 : R;
  c1r0 : R; c1r1 : R; c1r2 : R;
  c2r0 : R; c2r1 : R; c2r2 : R }.

Module Matrix3.
(** [Matrix3.fromRotationX(angle)] *)
Definition fromRotationX (angle : R) : Matrix3 :=
  let c := cos angle in let s := sin angle in
  {| c0r0 := 1; c0r1 := 0; c0r2 := 0;
     c1r0 := 0; c1r1 := c; c1r2 := s;
     c2r0 := 0; c2r1 := - s; c2r2 := c |}.

(** [Matrix3.fromRotationY(angle)] *)
Definition fromRotationY (angle : R) : Matrix3 :=
  let c := cos angle in let s := sin angle in
  {| c0r0 := c; c0r1 := 0; c0r2 := - s;
     c1r0 := 0; c1r1 := 1; c1r2 := 0;
     c2r0 := s; c2r1 := 0; c2r2 := c |}.

(** [Matrix3.fromRotationZ(angle)] *)
Definition fromRotationZ (angle : R) : Matrix3 :=
  let c := cos angle in let s := sin angle in
  {| c0r0 := c; c0r1 := s; c0r2 := 0;
     c1r0 := - s; c1r1 := c; c1r2 := 0;
     c2r0 := 0; c2r1 := 0; c2r2 := 1 |}.

(** [Matrix3.multiply(left, right, result)] *)
Definition multiply (l r : Matrix3) : Matrix3 :=
  {| c0r0 := l.(c0r0) * r.(c0r0) + l.(c1r0) * r.(c0r1) + l.(c2r0) * r.(c0r2);
     c0r1 := l.(c0r1) * r.(c0r0) + l.(c1r1) * r.(c0r1) + l.(c2r1) * r.(c0r2);
     c0r2 := l.(c0r2) * r.(c0r0) + l.(c1r2) * r.(c0r1) + l.(c2r2) * r.(c0r2);
     c1r0 := l.(c0r0) * r.(c1r0) + l.(c1r0) * r.(c1r1) + l.(c2r0) * r.(c1r2);
     c1r1 := l.(c0r1) * r.(c1r0) + l.(c1r1) * r.(c1r1) + l.(c2r1) * r.(c1r2);
     c1r2 := l.(c0r2) * r.(c1r0) + l.(c1r2) * r.(c1r1) + l.(c2r2) * r.(c1r2);
     c2r0 := l.(c0r0) * r.(c2r0) + l.(c1r0) * r.(c2r1) + l.(c2r0) * r.(c2r2);
     c2r1 := l.(c0r1) * r.(c2r0) + l.(c1r1) * r.(c2r1) + l.(c2r1) * r.(c2r2);
     c2r2 := l.(c0r2) * r.(c2r0) + l.(c1r2) * r.(c2r1) + l.(c2r2) * r.(c2r2) |}.
End Matrix3.

Record Matrix4 : Type := mkMatrix4 {
  m00 : R; m01 : R; m02 : R; m03 : R;   (* column 0, rows 0..3 *)
  m10 : R; m11 : R; m12 : R; m13 : R;   (* column 1 *)
  m20 : R; m21 : R; m22 : R; m23 : R;   (* column 2 *)
  m30 : R; m31 : R; m32 : R; m33 : R }. (* column 3 *)

Module Matrix4.
Definition IDENTITY : Matrix4 :=
  {| m00 := 1; m01 := 0; m02 := 0; m03 := 0;
     m10 := 0; m11 := 1; m12 := 0; m13 := 0;
     m20 := 0; m21 := 0; m22 := 1; m23 := 0;
     m30 := 0; m31 := 0; m32 := 0; m33 := 1 |}.

(** [Matrix4.fromScale(scale)] *)
Definition fromScale (s : Cartesian3) : Matrix4 :=
  {| m00 := s.(x); m01 := 0; m02 := 0; m03 := 0;
     m10 := 0; m11 := s.(y); m12 := 0; m13 := 0;
     m20 := 0; m21 := 0; m22 := s.(z); m23 := 0;
     m30 := 0; m31 := 0; m32 := 0; m33 := 1 |}.

(** [Matrix4.fromTranslation(translation)] *)
Definition fromTranslation (t : Cartesian3) : Matrix4 :=
  {| m00 := 1; m01 := 0; m02 := 0; m03 := 0;
     m10 := 0; m11 := 1; m12 := 0; m13 := 0;
     m20 := 0; m21 := 0; m22 := 1; m23 := 0;
     m30 := t.(x); m31 := t.(y); m32 := t.(z); m33 := 1 |}.

(** [Matrix4.fromRotation(rotation)] *)
Definition fromRotation (r : Matrix3) : Matrix4 :=
  {| m00 := r.(c0r0); m01 := r.(c0r1); m02 := r.(c0r2); m03 := 0;
     m10 := r.(c1r0); m11 := r.(c1r1); m12 := r.(c1r2); m13 := 0;
     m20 := r.(c2r0); m21 := r.(c2r1); m22 := r.(c2r2); m23 := 0;
     m30 := 0; m31 := 0; m32 := 0; m33 := 1 |}.

(** [Matrix4.multiply(left, right, result)] *)
Definition multiply (l r : Matrix4) : Matrix4 :=
  {| m00 := l.(m00) * r.(m00) + l.(m10) * r.(m01) + l.(m20) * r.(m02) + l.(m30) * r.(m03);
     m01 := l.(m01) * r.(m00) + l.(m11) * r.(m01) + l.(m21) * r.(m02) + l.(m31) * r.(m03);
     m02 := l.(m02) * r.(m00) + l.(m12) * r.(m01) + l.(m22) * r.(m02) + l.(m32) * r.(m03);
     m03 := l.(m03) * r.(m00) + l.(m13) * r.(m01) + l.(m23) * r.(m02) + l.(m33) * r.(m03);
     m10 := l.(m00) * r.(m10) + l.(m10) * r.(m11) + l.(m20) * r.(m12) + l.(m30) * r.(m13);
     m11 := l.(m01) * r.(m10) + l.(m11) * r.(m11) + l.(m21) * r.(m12) + l.(m31) * r.(m13);
     m12 := l.(m02) * r.(m10) + l.(m12) * r.(m11) + l.(m22) * r.(m12) + l.(m32) * r.(m13);
     m13 := l.(m03) * r.(m10) + l.(m13) * r.(m11) + l.(m23) * r.(m12) + l.(m33) * r.(m13);
     m20 := l.(m00) * r.(m20) + l.(m10) * r.(m21) + l.(m20) * r.(m22) + l.(m30) * r.(m23);
     m21 := l.(m01) * r.(m20) + l.(m11) * r.(m21) + l.(m21) * r.(m22) + l.(m31) * r.(m23);
     m22 := l.(m02) * r.(m20) + l.(m12) * r.(m21) + l.(m22) * r.(m22) + l.(m32) * r.(m23);
     m23 := l.(m03) * r.(m20) + l.(m13) * r.(m21) + l.(m23) * r.(m22) + l.(m33) * r.(m23);
     m30 := l.(m00) * r.(m30) + l.(m10) * r.(m31) + l.(m20) * r.(m32) + l.(m30) * r.(m33);
     m31 := l.(m01) * r.(m30) + l.(m11) * r.(m31) + l.(m21) * r.(m32) + l.(m31) * r.(m33);
     m32 := l.(m02) * r.(m30) + l.(m12) * r.(m31) + l.(m22) * r.(m32) + l.(m32) * r.(m33);
     m33 := l.(m03) * r.(m30) + l.(m13) * r.(m31) + l.(m23) * r.(m32) + l.(m33) * r.(m33) |}.
End Matrix4.

End Cesium.

(* ================================================================= *)
(** ** src/types/alignment.ts *)

(** [type Vec3 = [number, number, number]] *)
Record Vec3 : Type := mkVec3 { v0 : R; v1 : R; v2 : R }.

(** [[x, y, z, w]] quaternion *)
Record Quat : Type := mkQuat { q0 : R; q1 : R; q2 : R; q3 : R }.

(** The flat 3x3 [number[]] produced by [quaternionToMatrix3] and stored in
    [alignRotation]: nine numbers, indices 0..8. *)
Record Flat3x3 : Type := mkFlat3x3 {
  a0 : R; a1 : R; a2 : R; a3 : R; a4 : R; a5 : R; a6 : R; a7 : R; a8 : R }.

Record EnuParams : Type := mkEnuParams {
  scale : R;
  yawRad : R;
  pitchRad : R;
  rollRad : R;
  tEast : R;
  tNorth : R;
  tUp : R;
  tiltLocked : option bool;          (* tiltLocked?: boolean *)
  alignRotation : option Flat3x3     (* alignRotation?: number[] *)
}.

Module PlaneAlignment.
Record t : Type := mk {
  quat : Quat;
  pitchRad : R;
  rollRad : R;
  alignMatrix : Flat3x3 }.
End PlaneAlignment.

(** [Matrix3.fromArray(array)]: positional, hence column-major. *)
Definition Matrix3_fromArray (a : Flat3x3) : Cesium.Matrix3 :=
  {| Cesium.c0r0 := a.(a0); Cesium.c0r1 := a.(a1); Cesium.c0r2 := a.(a2);
     Cesium.c1r0 := a.(a3); Cesium.c1r1 := a.(a4); Cesium.c1r2 := a.(a5);
     Cesium.c2r0 := a.(a6); Cesium.c2r1 := a.(a7); Cesium.c2r2 := a.(a8) |}.

(* ================================================================= *)
(** ** src/alignment/planeFit.ts *)

Module PlaneFit.

Definition crossProduct (a b : Vec3) : Vec3 :=
  {| v0 := a.(v1) * b.(v2) - a.(v2) * b.(v1);
     v1 := a.(v2) * b.(v0) - a.(v0) * b.(v2);
     v2 := a.(v0) * b.(v1) - a.(v1) * b.(v0) |}.

(** The [len] of [normalize]. *)
Definition vectorLength (v : Vec3) : R :=
  sqrt (v.(v0) * v.(v0) + v.(v1) * v.(v1) + v.(v2) * v.(v2)).

Definition normalize (v : Vec3) : Vec3 :=
  let len := vectorLength v in
  if Rlt_dec len 1e-10 then {| v0 := 0; v1 := 0; v2 := 1 |}
  else {| v0 := v.(v0) / len; v1 := v.(v1) / len; v2 := v.(v2) / len |}.

Definition quaternionToMatrix3 (quat : Quat) : Flat3x3 :=
  let x := quat.(q0) in let y := quat.(q1) in
  let z := quat.(q2) in let w := quat.(q3) in
  let xx := x * x in let yy := y * y in let zz := z * z in
  let xy := x * y in let xz := x * z in let yz := y * z in
  let wx := w * x in let wy := w * y in let wz := w * z in
  {| a0 := 1 - 2 * (yy + zz); a1 := 2 * (xy - wz);     a2 := 2 * (xz + wy);
     a3 := 2 * (xy + wz);     a4 := 1 - 2 * (xx + zz); a5 := 2 * (yz - wx);
     a6 := 2 * (xz - wy);     a7 := 2 * (yz + wx);     a8 := 1 - 2 * (xx + yy) |}.

(** The centroid loop of [estimatePlaneNormal]. *)
Definition centroidOf (points : list Vec3) : Vec3 :=
  let n := INR (List.length points) in
  let sum := fold_left
               (fun c p => {| v0 := c.(v0) + p.(v0);
                              v1 := c.(v1) + p.(v1);
                              v2 := c.(v2) + p.(v2) |})
               points {| v0 := 0; v1 := 0; v2 := 0 |} in
  {| v0 := sum.(v0) / n; v1 := sum.(v1) / n; v2 := sum.(v2) / n |}.

Definition centerPoints (points : list Vec3) : list Vec3 :=
  let centroid := centroidOf points in
  map (fun p => {| v0 := p.(v0) - centroid.(v0);
                   v1 := p.(v1) - centroid.(v1);
                   v2 := p.(v2) - centroid.(v2) |}) points.

Definition estimatePlaneNormal (points : list Vec3) : completion Vec3 :=
  if (List.length points <? 3)%nat
  then Throw (mkError "Need at least 3 points for plane fitting")
  else
    let centered := centerPoints points in
    (* the covariance matrix the source accumulates here is never read *)
    let normal :=
      match centered with
      | p1 :: p2 :: _ => normalize (crossProduct p1 p2)
      | _ => {| v0 := 0; v1 := 0; v2 := 1 |}
      end in
    let normal :=
      if Rlt_dec normal.(v2) 0
      then {| v0 := - normal.(v0); v1 := - normal.(v1); v2 := - normal.(v2) |}
      else normal in
    Normal normal.

Definition quaternionBetween (a b : Vec3) : Quat :=
  let aNorm := normalize a in
  let bNorm := normalize b in
  let dot := aNorm.(v0) * bNorm.(v0) + aNorm.(v1) * bNorm.(v1)
             + aNorm.(v2) * bNorm.(v2) in
  if Rlt_dec 0.999999 dot then {| q0 := 0; q1 := 0; q2 := 0; q3 := 1 |}
  else if Rlt_dec dot (- 0.999999) then
    let orthogonal :=
      if Rlt_dec 0.9 (Rabs aNorm.(v0))
      then {| v0 := 0; v1 := 1; v2 := 0 |}
      else {| v0 := 1; v1 := 0; v2 := 0 |} in
    let cross := crossProduct aNorm orthogonal in
    let crossNorm := normalize cross in
    {| q0 := crossNorm.(v0); q1 := crossNorm.(v1); q2 := crossNorm.(v2); q3 := 0 |}
  else
    let cross := crossProduct aNorm bNorm in
    let s := sqrt ((1 + dot) * 2) in
    let invs := 1 / s in
    {| q0 := cross.(v0) * invs; q1 := cross.(v1) * invs;
       q2 := cross.(v2) * invs; q3 := s * 0.5 |}.

Definition alignGroundToUp (points : list Vec3)
  : completion PlaneAlignment.t :=
  bind (estimatePlaneNormal points) (fun normal =>
  let up := {| v0 := 0; v1 := 0; v2 := 1 |} in
  let quat := quaternionBetween normal up in
  let x := quat.(q0) in let y := quat.(q1) in
  let z := quat.(q2) in let w := quat.(q3) in
  let pitchRad := Math_atan2 (2 * (w * x + y * z)) (1 - 2 * (x * x + y * y)) in
  let rollRad := Math_atan2 (2 * (w * y - z * x)) (1 - 2 * (y * y + z * z)) in
  let alignMatrix := quaternionToMatrix3 quat in
  Normal {| PlaneAlignment.quat := quat;
            PlaneAlignment.pitchRad := pitchRad;
            PlaneAlignment.rollRad := rollRad;
            PlaneAlignment.alignMatrix := alignMatrix |}).

End PlaneFit.

(* ================================================================= *)
(** ** src/alignment/scaleCalibration.ts *)

Module ScaleCalibration.

Definition metersPerUnitFromRoadWidth
  (trueWidthMeters measuredWidthUnits : R) : completion R :=
  if Rle_dec measuredWidthUnits 0
  then Throw (mkError "Invalid measured width")
  else Normal (trueWidthMeters / measuredWidthUnits).

Definition metersPerPixelFromExif
  (altitudeAGL_m focalLength_mm pixelPitch_um : R) : R :=
  let pixelPitch_m := pixelPitch_um * 1e-6 in
  let focalLength_m := focalLength_mm * 1e-3 in
  (altitudeAGL_m * pixelPitch_m) / focalLength_m.

End ScaleCalibration.

(* ================================================================= *)
(** ** src/alignment/composeModelMatrix.ts *)

Record Anchor : Type := mkAnchor { lat : R; lon : R; height : R }.

(** What the composer takes from outside this repository: the decimal
    formatting of a number and Cesium's geodesy.  Only their types are
    fixed here; statements that need more say so. *)
Class Externals : Type := {
  (** [Number.prototype.toFixed(digits)] *)
  toFixed : R -> nat -> string;
  (** [Cesium.Cartesian3.fromDegrees(longitude, latitude, height)] *)
  Cartesian3_fromDegrees : R -> R -> R -> Cesium.Cartesian3;
  (** [Cesium.Transforms.eastNorthUpToFixedFrame(origin)]: the matrix from
      the east-north-up frame at [origin] to the Earth-fixed frame. *)
  Transforms_eastNorthUpToFixedFrame : Cesium.Cartesian3 -> Cesium.Matrix4;
  (** [Cesium.Matrix4.inverse(matrix, result)] *)
  Matrix4_inverse : Cesium.Matrix4 -> Cesium.Matrix4
}.

Module ComposeModelMatrix.
Import Cesium.

(** The value type of [enuTransformCache], with the source's names. *)
Record EnuTransforms : Type := mkEnuTransforms {
  ecefToEnu : Matrix4;
  enuToEcef : Matrix4 }.

Definition Cache : Type := JS.Map EnuTransforms.

Section WithExternals.
Context {ext : Externals}.

Definition cacheKey (anchor : Anchor) : string :=
  (toFixed anchor.(lat) 8 ++ "," ++ toFixed anchor.(lon) 8 ++ ","
     ++ toFixed anchor.(height) 2)%string.

(** The entry built on a cache miss. *)
Definition buildEnuTransforms (anchor : Anchor) : EnuTransforms :=
  let anchorECEF :=
    Cartesian3_fromDegrees anchor.(lon) anchor.(lat) anchor.(height) in
  let ecefToEnu := Transforms_eastNorthUpToFixedFrame anchorECEF in
  let enuToEcef := Matrix4_inverse ecefToEnu in
  {| ecefToEnu := ecefToEnu; enuToEcef := enuToEcef |}.

(** [enuTransformCache.get(key)!] is [None] where JavaScript has
    [undefined]; the [!] is a compile-time assertion only. *)
Definition getCachedEnuTransforms (anchor : Anchor)
  : M Cache (option EnuTransforms) :=
  fun cache =>
    let key := cacheKey anchor in
    let cache :=
      if negb (Map_has key cache)
      then Map_set key (buildEnuTransforms anchor) cache
      else cache in
    (Normal (Map_get key cache), cache).

(** Lines 33-52: the rotation [R]. *)
Definition composeRotation (p : EnuParams) : Matrix4 :=
  match truthy p.(tiltLocked), p.(alignRotation) with
  | true, Some alignRotation =>
      let alignMatrix := Matrix3_fromArray alignRotation in
      let yawMatrix := Matrix3.fromRotationZ p.(yawRad) in
      let finalRotation := Matrix3.multiply alignMatrix yawMatrix in
      Matrix4.fromRotation finalRotation
  | _, _ =>
      let Rz := Matrix3.fromRotationZ p.(yawRad) in
      let Rx := Matrix3.fromRotationX p.(pitchRad) in
      let Ry := Matrix3.fromRotationY p.(rollRad) in
      let Rm := Matrix3.multiply Rz Rx in
      let Rm := Matrix3.multiply Rm Ry in
      Matrix4.fromRotation Rm
  end.

(** Lines 30-31 and 54-62: [M_ENU = T * (R * S)]. *)
Definition composeLocal (p : EnuParams) : Matrix4 :=
  let S := Matrix4.fromScale
             {| x := p.(scale); y := p.(scale); z := p.(scale) |} in
  let R := composeRotation p in
  let T := Matrix4.fromTranslation
             {| x := p.(tEast); y := p.(tNorth); z := p.(tUp) |} in
  Matrix4.multiply T (Matrix4.multiply R S).

Definition composeModelMatrixENU (anchor : Anchor) (p : EnuParams)
  : M Cache Matrix4 :=
  cached <- getCachedEnuTransforms anchor ;;
  match cached with
  | None =>
      (* destructuring [undefined] *)
      call (Throw (mkError "TypeError"))
  | Some frames =>
      let M_ENU := composeLocal p in
      ret (Matrix4.multiply
             (Matrix4.multiply frames.(enuToEcef) M_ENU)
             frames.(ecefToEnu))
  end.

End WithExternals.
End ComposeModelMatrix.

(* ================================================================= *)
(** ** src/adjustment-tracker.ts *)

Module TotalDeltas.
Record t : Type := mk {
  scale : R; yawRad : R; pitchRad : R; rollRad : R;
  tEast : R; tNorth : R; tUp : R }.

Definition zero : t :=
  {| scale := 0; yawRad := 0; pitchRad := 0; rollRad := 0;
     tEast := 0; tNorth := 0; tUp := 0 |}.

Definition set_scale (v : R) (d : t) : t :=
  mk v d.(yawRad) d.(pitchRad) d.(rollRad) d.(tEast) d.(tNorth) d.(tUp).
Definition set_yawRad (v : R) (d : t) : t :=
  mk d.(scale) v d.(pitchRad) d.(rollRad) d.(tEast) d.(tNorth) d.(tUp).
Definition set_pitchRad (v : R) (d : t) : t :=
  mk d.(scale) d.(yawRad) v d.(rollRad) d.(tEast) d.(tNorth) d.(tUp).
Definition set_rollRad (v : R) (d : t) : t :=
  mk d.(scale) d.(yawRad) d.(pitchRad) v d.(tEast) d.(tNorth) d.(tUp).
Definition set_tEast (v : R) (d : t) : t :=
  mk d.(scale) d.(yawRad) d.(pitchRad) d.(rollRad) v d.(tNorth) d.(tUp).
Definition set_tNorth (v : R) (d : t) : t :=
  mk d.(scale) d.(yawRad) d.(pitchRad) d.(rollRad) d.(tEast) v d.(tUp).
Definition set_tUp (v : R) (d : t) : t :=
  mk d.(scale) d.(yawRad) d.(pitchRad) d.(rollRad) d.(tEast) d.(tNorth) v.
End TotalDeltas.

(** Field assignment on [EnuParams]. *)
Definition set_scale (v : R) (p : EnuParams) : EnuParams :=
  mkEnuParams v p.(yawRad) p.(pitchRad) p.(rollRad) p.(tEast) p.(tNorth)
    p.(tUp) p.(tiltLocked) p.(alignRotation).
Definition set_yawRad (v : R) (p : EnuParams) : EnuParams :=
  mkEnuParams p.(scale) v p.(pitchRad) p.(rollRad) p.(tEast) p.(tNorth)
    p.(tUp) p.(tiltLocked) p.(alignRotation).
Definition set_pitchRad (v : R) (p : EnuParams) : EnuParams :=
  mkEnuParams p.(scale) p.(yawRad) v p.(rollRad) p.(tEast) p.(tNorth)
    p.(tUp) p.(tiltLocked) p.(alignRotation).
Definition set_rollRad (v : R) (p : EnuParams) : EnuParams :=
  mkEnuParams p.(scale) p.(yawRad) p.(pitchRad) v p.(tEast) p.(tNorth)
    p.(tUp) p.(tiltLocked) p.(alignRotation).
Definition set_tEast (v : R) (p : EnuParams) : EnuParams :=
  mkEnuParams p.(scale) p.(yawRad) p.(pitchRad) p.(rollRad) v p.(tNorth)
    p.(tUp) p.(tiltLocked) p.(alignRotation).
Definition set_tNorth (v : R) (p : EnuParams) : EnuParams :=
  mkEnuParams p.(scale) p.(yawRad) p.(pitchRad) p.(rollRad) p.(tEast) v
    p.(tUp) p.(tiltLocked) p.(alignRotation).
Definition set_tUp (v : R) (p : EnuParams) : EnuParams :=
  mkEnuParams p.(scale) p.(yawRad) p.(pitchRad) p.(rollRad) p.(tEast)
    p.(tNorth) v p.(tiltLocked) p.(alignRotation).
Definition set_tiltLocked (v : option bool) (p : EnuParams) : EnuParams :=
  mkEnuParams p.(scale) p.(yawRad) p.(pitchRad) p.(rollRad) p.(tEast)
    p.(tNorth) p.(tUp) v p.(alignRotation).
Definition set_alignRotation (v : option Flat3x3) (p : EnuParams) : EnuParams :=
  mkEnuParams p.(scale) p.(yawRad) p.(pitchRad) p.(rollRad) p.(tEast)
    p.(tNorth) p.(tUp) p.(tiltLocked) v.

Module AdjustmentLog.
(** [type: 'scale' | 'yaw' | 'pitch' | 'roll' | 'position' | 'height'] *)
Inductive kind : Type := scale | yaw | pitch | roll | position | height.

(** [before], [after] and [delta] are [any]: a number, or [{E, N, U}]. *)
Inductive value : Type :=
| num (v : R)
| ENU (E N U : R).

Record t : Type := mk {
  timestamp : Z;
  type : kind;
  before : value;
  after : value;
  delta : option value }.
End AdjustmentLog.

Module SplatAdjustments.
Record t : Type := mk {
  initialParams : EnuParams;
  currentParams : EnuParams;
  logs : list AdjustmentLog.t;
  totalDeltas : TotalDeltas.t }.
End SplatAdjustments.

Module AdjustmentTracker.
Import SplatAdjustments.

Record t : Type := mk {
  adjustments : SplatAdjustments.t;
  enabled : bool }.

Definition fresh (params : EnuParams) : SplatAdjustments.t :=
  {| initialParams := params;
     currentParams := params;
     logs := [];
     totalDeltas := TotalDeltas.zero |}.

(** [constructor(initialParams)] *)
Definition new (initialParams : EnuParams) : t :=
  {| adjustments := fresh initialParams; enabled := true |}.

(** One logging step: new total deltas, one pushed entry, new current
    parameters. *)
Definition record (entry : AdjustmentLog.t)
    (total : TotalDeltas.t -> TotalDeltas.t)
    (current : EnuParams -> EnuParams) (tr : t) : t :=
  let a := tr.(adjustments) in
  {| adjustments :=
       {| initialParams := a.(initialParams);
          currentParams := current a.(currentParams);
          logs := a.(logs) ++ [entry];
          totalDeltas := total a.(totalDeltas) |};
     enabled := tr.(enabled) |}.

Definition initial (tr : t) : EnuParams := tr.(adjustments).(initialParams).

Definition logScaleAdjustment (now : Z) (before after : R) (tr : t) : t :=
  if negb tr.(enabled) then tr else
  let factor := after / before in
  record
    (AdjustmentLog.mk now AdjustmentLog.scale (AdjustmentLog.num before)
       (AdjustmentLog.num after) (Some (AdjustmentLog.num factor)))
    (TotalDeltas.set_scale (after / (initial tr).(scale)))
    (set_scale after) tr.

Definition logYawAdjustment (now : Z) (before after : R) (tr : t) : t :=
  if negb tr.(enabled) then tr else
  let delta := after - before in
  record
    (AdjustmentLog.mk now AdjustmentLog.yaw (AdjustmentLog.num before)
       (AdjustmentLog.num after) (Some (AdjustmentLog.num delta)))
    (TotalDeltas.set_yawRad (after - (initial tr).(yawRad)))
    (set_yawRad after) tr.

Definition logPitchAdjustment (now : Z) (before after : R) (tr : t) : t :=
  if negb tr.(enabled) then tr else
  let delta := after - before in
  record
    (AdjustmentLog.mk now AdjustmentLog.pitch (AdjustmentLog.num before)
       (AdjustmentLog.num after) (Some (AdjustmentLog.num delta)))
    (TotalDeltas.set_pitchRad (after - (initial tr).(pitchRad)))
    (set_pitchRad after) tr.

Definition logRollAdjustment (now : Z) (before after : R) (tr : t) : t :=
  if negb tr.(enabled) then tr else
  let delta := after - before in
  record
    (AdjustmentLog.mk now AdjustmentLog.roll (AdjustmentLog.num before)
       (AdjustmentLog.num after) (Some (AdjustmentLog.num delta)))
    (TotalDeltas.set_rollRad (after - (initial tr).(rollRad)))
    (set_rollRad after) tr.

Definition logPositionAdjustment (now : Z)
    (beforeE beforeN beforeU afterE afterN afterU : R) (tr : t) : t :=
  if negb tr.(enabled) then tr else
  let deltaE := afterE - beforeE in
  let deltaN := afterN - beforeN in
  let deltaU := afterU - beforeU in
  record
    (AdjustmentLog.mk now AdjustmentLog.position
       (AdjustmentLog.ENU beforeE beforeN beforeU)
       (AdjustmentLog.ENU afterE afterN afterU)
       (Some (AdjustmentLog.ENU deltaE deltaN deltaU)))
    (fun d =>
       TotalDeltas.set_tUp (afterU - (initial tr).(tUp))
         (TotalDeltas.set_tNorth (afterN - (initial tr).(tNorth))
            (TotalDeltas.set_tEast (afterE - (initial tr).(tEast)) d)))
    (fun p => set_tUp afterU (set_tNorth afterN (set_tEast afterE p))) tr.

Definition logHeightAdjustment (now : Z) (before after : R) (tr : t) : t :=
  if negb tr.(enabled) then tr else
  let delta := after - before in
  record
    (AdjustmentLog.mk now AdjustmentLog.height (AdjustmentLog.num before)
       (AdjustmentLog.num after) (Some (AdjustmentLog.num delta)))
    (TotalDeltas.set_tUp (after - (initial tr).(tUp)))
    (set_tUp after) tr.

Definition getCurrentParams (tr : t) : EnuParams :=
  tr.(adjustments).(currentParams).

Definition reset (newInitialParams : EnuParams) (tr : t) : t :=
  {| adjustments := fresh newInitialParams; enabled := tr.(enabled) |}.

Definition setEnabled (enabled : bool) (tr : t) : t :=
  {| adjustments := tr.(adjustments); enabled := enabled |}.

End AdjustmentTracker.

(* ================================================================= *)
(** ** The splat layer the controller drives (src/gaussian-splat-layer.ts,
       whose source is not part of this development) *)

Module GaussianSplatLayer.
Record Rotation : Type := mkRotation { x : R; y : R; z : R }.

(** The part of [scene] (a THREE.Object3D) the controller writes. *)
Record Scene : Type := mkScene {
  matrix : Cesium.Matrix4;
  matrixAutoUpdate : bool }.

Record t : Type := mk {
  location : Anchor;
  rotation : Rotation;
  scale : R;
  scene : option Scene }.
End GaussianSplatLayer.

(** [updateScale()] and [updatePosition()] of the layer are taken as given:
    they work on the layer only. *)
Class SplatLayerMethods : Type := {
  updateScale : GaussianSplatLayer.t -> GaussianSplatLayer.t;
  updatePosition : GaussianSplatLayer.t -> GaussianSplatLayer.t
}.

(* ================================================================= *)
(** ** src/controllers/AlignmentController.ts *)

(** [Partial<EnuParams>]: [None] is an absent property.  For the two
    optional properties, [Some None] is a property present with the value
    [undefined]. *)
Module PartialEnuParams.
Record t : Type := mk {
  scale : option R;
  yawRad : option R;
  pitchRad : option R;
  rollRad : option R;
  tEast : option R;
  tNorth : option R;
  tUp : option R;
  tiltLocked : option (option bool);
  alignRotation : option (option Flat3x3) }.

Definition empty : t := mk None None None None None None None None None.
End PartialEnuParams.

(** [Object.assign(target, source)] on these shapes. *)
Definition Object_assign (target : EnuParams) (source : PartialEnuParams.t)
  : EnuParams :=
  let pick {A} (o : option A) (d : A) : A :=
    match o with Some v => v | None => d end in
  {| scale := pick source.(PartialEnuParams.scale) target.(scale);
     yawRad := pick source.(PartialEnuParams.yawRad) target.(yawRad);
     pitchRad := pick source.(PartialEnuParams.pitchRad) target.(pitchRad);
     rollRad := pick source.(PartialEnuParams.rollRad) target.(rollRad);
     tEast := pick source.(PartialEnuParams.tEast) target.(tEast);
     tNorth := pick source.(PartialEnuParams.tNorth) target.(tNorth);
     tUp := pick source.(PartialEnuParams.tUp) target.(tUp);
     tiltLocked := pick source.(PartialEnuParams.tiltLocked) target.(tiltLocked);
     alignRotation :=
       pick source.(PartialEnuParams.alignRotation) target.(alignRotation) |}.

Module AlignmentController.
(** Feature flag for Alignment V2 *)
Definition ALIGNMENT_V2 : bool := true.

Record t : Type := mk {
  splatLayer : GaussianSplatLayer.t;
  enuParams : EnuParams;
  anchor : Anchor;
  tracker : AdjustmentTracker.t }.

(** What a method call can touch: the controller and the module-level
    [enuTransformCache]. *)
Record Heap : Type := mkHeap {
  this : t;
  enuTransformCache : ComposeModelMatrix.Cache }.

Definition withLayer (f : GaussianSplatLayer.t -> GaussianSplatLayer.t)
  : M Heap unit :=
  modify (fun h =>
    mkHeap (mk (f h.(this).(splatLayer)) h.(this).(enuParams)
              h.(this).(anchor) h.(this).(tracker))
           h.(enuTransformCache)).

Definition assign (f : EnuParams -> EnuParams) : M Heap unit :=
  modify (fun h =>
    mkHeap (mk h.(this).(splatLayer) (f h.(this).(enuParams))
              h.(this).(anchor) h.(this).(tracker))
           h.(enuTransformCache)).

Definition track (f : AdjustmentTracker.t -> AdjustmentTracker.t)
  : M Heap unit :=
  modify (fun h =>
    mkHeap (mk h.(this).(splatLayer) h.(this).(enuParams)
              h.(this).(anchor) (f h.(this).(tracker)))
           h.(enuTransformCache)).

Definition withCache {A} (m : M ComposeModelMatrix.Cache A) : M Heap A :=
  fun h => let (r, cache) := m h.(enuTransformCache) in
           (r, mkHeap h.(this) cache).

Definition params : M Heap EnuParams := gets (fun h => h.(this).(enuParams)).

Definition disableAutoUpdate (l : GaussianSplatLayer.t) : GaussianSplatLayer.t :=
  GaussianSplatLayer.mk l.(GaussianSplatLayer.location)
    l.(GaussianSplatLayer.rotation) l.(GaussianSplatLayer.scale)
    (option_map
       (fun s => GaussianSplatLayer.mkScene s.(GaussianSplatLayer.matrix) false)
       l.(GaussianSplatLayer.scene)).

(** [constructor(splatLayer, cesiumViewer)] *)
Definition new (splatLayer : GaussianSplatLayer.t) : t :=
  let anchor :=
    {| lat := splatLayer.(GaussianSplatLayer.location).(lat);
       lon := splatLayer.(GaussianSplatLayer.location).(lon);
       height := splatLayer.(GaussianSplatLayer.location).(height) |} in
  let enuParams :=
    {| scale := orDefault splatLayer.(GaussianSplatLayer.scale) 1.0;
       yawRad := orDefault splatLayer.(GaussianSplatLayer.rotation).(GaussianSplatLayer.y) 0;
       pitchRad := orDefault splatLayer.(GaussianSplatLayer.rotation).(GaussianSplatLayer.x) 0;
       rollRad := orDefault splatLayer.(GaussianSplatLayer.rotation).(GaussianSplatLayer.z) 0;
       tEast := 0; tNorth := 0; tUp := 0;
       tiltLocked := None; alignRotation := None |} in
  {| splatLayer := disableAutoUpdate splatLayer;
     enuParams := enuParams;
     anchor := anchor;
     tracker := AdjustmentTracker.new enuParams |}.

Section Methods.
Context {ext : Externals} {layerMethods : SplatLayerMethods}.

Definition applyTransformationV2 : M Heap unit :=
  p <- params ;;
  a <- gets (fun h => h.(this).(anchor)) ;;
  let paramsWithoutScale := set_scale 1.0 p in
  worldMatrix <-
    withCache (ComposeModelMatrix.composeModelMatrixENU a paramsWithoutScale) ;;
  withLayer (fun l =>
    updateScale
      {| GaussianSplatLayer.location := a;
         GaussianSplatLayer.rotation :=
           GaussianSplatLayer.mkRotation p.(pitchRad) p.(yawRad) p.(rollRad);
         GaussianSplatLayer.scale := p.(scale);
         GaussianSplatLayer.scene :=
           option_map (fun _ => GaussianSplatLayer.mkScene worldMatrix false)
             l.(GaussianSplatLayer.scene) |}).

Definition applyTransformationLegacy : M Heap unit :=
  p <- params ;;
  a <- gets (fun h => h.(this).(anchor)) ;;
  withLayer (fun l =>
    updateScale (updatePosition
      {| GaussianSplatLayer.location := a;
         GaussianSplatLayer.rotation :=
           GaussianSplatLayer.mkRotation p.(pitchRad) p.(yawRad) p.(rollRad);
         GaussianSplatLayer.scale := p.(scale);
         GaussianSplatLayer.scene := l.(GaussianSplatLayer.scene) |})).

Definition applyTransformation : M Heap unit :=
  if ALIGNMENT_V2 then applyTransformationV2 else applyTransformationLegacy.

Definition adjustScale (now : Z) (factor : R) : M Heap unit :=
  p <- params ;;
  let before := p.(scale) in
  let after := Rmax 0.1 (Rmin 50.0 (p.(scale) * factor)) in
  assign (set_scale after) ;;;
  track (AdjustmentTracker.logScaleAdjustment now before after) ;;;
  applyTransformation.

Definition adjustYaw (now : Z) (deltaRad : R) : M Heap unit :=
  p <- params ;;
  let before := p.(yawRad) in
  let after := p.(yawRad) + deltaRad in
  assign (set_yawRad after) ;;;
  track (AdjustmentTracker.logYawAdjustment now before after) ;;;
  applyTransformation.

Definition adjustPitch (now : Z) (deltaRad : R) : M Heap unit :=
  p <- params ;;
  if truthy p.(tiltLocked) then ret tt else
  let before := p.(pitchRad) in
  let after := p.(pitchRad) + deltaRad in
  assign (set_pitchRad after) ;;;
  track (AdjustmentTracker.logPitchAdjustment now before after) ;;;
  applyTransformation.

Definition adjustRoll (now : Z) (deltaRad : R) : M Heap unit :=
  p <- params ;;
  if truthy p.(tiltLocked) then ret tt else
  let before := p.(rollRad) in
  let after := p.(rollRad) + deltaRad in
  assign (set_rollRad after) ;;;
  track (AdjustmentTracker.logRollAdjustment now before after) ;;;
  applyTransformation.

Definition adjustPosition (now : Z) (deltaEast deltaNorth deltaUp : R)
  : M Heap unit :=
  p <- params ;;
  let beforeE := p.(tEast) in
  let beforeN := p.(tNorth) in
  let beforeU := p.(tUp) in
  let afterE := p.(tEast) + deltaEast in
  let afterN := p.(tNorth) + deltaNorth in
  let afterU := p.(tUp) + deltaUp in
  assign (fun q => set_tUp afterU (set_tNorth afterN (set_tEast afterE q))) ;;;
  track (AdjustmentTracker.logPositionAdjustment now
           beforeE beforeN beforeU afterE afterN afterU) ;;;
  applyTransformation.

(** [groundPoints?]: [None] is a call without the argument. *)
Definition lockTilt (groundPoints : option (list Vec3)) : M Heap unit :=
  match groundPoints with
  | None => ret tt
  | Some points =>
      if (List.length points <? 3)%nat then ret tt else
      tryCatch
        (alignment <- call (PlaneFit.alignGroundToUp points) ;;
         assign (set_alignRotation
                   (Some alignment.(PlaneAlignment.alignMatrix))) ;;;
         assign (set_tiltLocked (Some true)) ;;;
         assign (set_pitchRad 0) ;;;
         assign (set_rollRad 0) ;;;
         applyTransformation ;;;
         withLayer disableAutoUpdate)
        (fun _error => ret tt)
  end.

Definition calibrateScaleFromRoadWidth
    (trueWidthMeters measuredWidthUnits : R) : M Heap unit :=
  tryCatch
    (newScale <- call (ScaleCalibration.metersPerUnitFromRoadWidth
                         trueWidthMeters measuredWidthUnits) ;;
     assign (set_scale newScale) ;;;
     applyTransformation)
    (fun _error => ret tt).

Definition getEnuParams : M Heap EnuParams := params.

(** The rest pattern of the locked branch:
    [{ pitchRad, rollRad, alignRotation, tiltLocked, ...safeParams }]. *)
Definition safeParams (q : PartialEnuParams.t) : PartialEnuParams.t :=
  PartialEnuParams.mk q.(PartialEnuParams.scale) q.(PartialEnuParams.yawRad)
    None None
    q.(PartialEnuParams.tEast) q.(PartialEnuParams.tNorth)
    q.(PartialEnuParams.tUp) None None.

Definition setEnuParams (q : PartialEnuParams.t) : M Heap unit :=
  p <- params ;;
  (if truthy p.(tiltLocked)
   then assign (fun p => Object_assign p (safeParams q))
   else assign (fun p => Object_assign p q)) ;;;
  applyTransformation.

(** One external event: a call of a mutating method. *)
Inductive operation : Type :=
| AdjustScale (now : Z) (factor : R)
| AdjustYaw (now : Z) (deltaRad : R)
| AdjustPitch (now : Z) (deltaRad : R)
| AdjustRoll (now : Z) (deltaRad : R)
| AdjustPosition (now : Z) (deltaEast deltaNorth deltaUp : R)
| LockTilt (groundPoints : option (list Vec3))
| CalibrateScaleFromRoadWidth (trueWidthMeters measuredWidthUnits : R)
| SetEnuParams (q : PartialEnuParams.t).

Definition perform (o : operation) : M Heap unit :=
  match o with
  | AdjustScale now factor => adjustScale now factor
  | AdjustYaw now d => adjustYaw now d
  | AdjustPitch now d => adjustPitch now d
  | AdjustRoll now d => adjustRoll now d
  | AdjustPosition now dE dN dU => adjustPosition now dE dN dU
  | LockTilt pts => lockTilt pts
  | CalibrateScaleFromRoadWidth w m => calibrateScaleFromRoadWidth w m
  | SetEnuParams q => setEnuParams q
  end.

(** The heap after running a sequence of operations, one after the
    other, whatever each of them returns. *)
Definition runAll (ops : list operation) (h : Heap) : Heap :=
  fold_left (fun h o => snd (perform o h)) ops h.

(** A session starts with a new controller and an empty frame cache. *)
Definition start (splatLayer : GaussianSplatLayer.t) : Heap :=
  {| this := new splatLayer; enuTransformCache := [] |}.

Definition reachable (h : Heap) : Prop :=
  exists splatLayer ops, h = runAll ops (start splatLayer).

End Methods.
End AlignmentController.

(* ================================================================= *)
(** ** Names used in the statements *)

(** The canonical Up vector, the identity rotation in its two forms, the
    dot product, and the two errors the calibration code raises. *)
Definition up : Vec3 := {| v0 := 0; v1 := 0; v2 := 1 |}.
Definition identityQuat : Quat := {| q0 := 0; q1 := 0; q2 := 0; q3 := 1 |}.
Definition identityFlat : Flat3x3 := mkFlat3x3 1 0 0 0 1 0 0 0 1.
Definition dot (a b : Vec3) : R :=
  a.(v0) * b.(v0) + a.(v1) * b.(v1) + a.(v2) * b.(v2).
Definition insufficientData : Error :=
  mkError "Need at least 3 points for plane fitting".
Definition invalidMeasurement : Error :=
  mkError "Invalid measured width".

(** [after h p tr h']: the heap [h'] carries the parameters [p] and the
    tracker [tr], and the anchor of [h]; the layer and the frame cache are
    free. *)
Definition after (h : AlignmentController.Heap) (p : EnuParams)
    (tr : AdjustmentTracker.t) (h' : AlignmentController.Heap) : Prop :=
  let params h := h.(AlignmentController.this).(AlignmentController.enuParams) in
  let tracker h := h.(AlignmentController.this).(AlignmentController.tracker) in
  let anchor h := h.(AlignmentController.this).(AlignmentController.anchor) in
  params h' = p /\ tracker h' = tr /\ anchor h' = anchor h.

(** The invariant of the tilt lock: a locked parameter set has zero pitch
    and roll. *)
Definition tiltInvariant (p : EnuParams) : Prop :=
  truthy p.(tiltLocked) = true -> p.(pitchRad) = 0 /\ p.(rollRad) = 0.

(** A bulk assignment that sets the lock flag itself. *)
Definition setsLock (q : PartialEnuParams.t) : Prop :=
  q.(PartialEnuParams.tiltLocked) = Some (Some true).

(** The parameters with which a controller starts on a layer of scale 1
    and no rotation. *)
Definition identityParams : EnuParams := mkEnuParams 1 0 0 0 0 0 0 None None.

(** *** A concrete setting for closed examples

    The anchor on the equator at the prime meridian, height 0, on the WGS84
    ellipsoid (semi-major axis 6378137 m): East is +Y, North is +Z, Up is
    +X of the Earth-fixed frame, and the origin is (6378137, 0, 0). *)
Definition equatorAnchor : Anchor := {| lat := 0; lon := 0; height := 0 |}.

Definition equatorFrame : Cesium.Matrix4 :=
  Cesium.mkMatrix4 0 1 0 0   0 0 1 0   1 0 0 0   6378137 0 0 1.

Definition equatorFrameInverse : Cesium.Matrix4 :=
  Cesium.mkMatrix4 0 0 1 0   1 0 0 0   0 1 0 0   0 0 (-6378137) 1.

(** Externals that answer for the equator anchor only. *)
Definition equatorExternals : Externals :=
  {| toFixed := fun _ _ => "0"%string;
     Cartesian3_fromDegrees := fun _ _ _ => Cesium.mkCartesian3 6378137 0 0;
     Transforms_eastNorthUpToFixedFrame := fun _ => equatorFrame;
     Matrix4_inverse := fun _ => equatorFrameInverse |}.

(** A layer without a scene, whose update methods have nothing to do. *)
Definition plainLayerMethods : SplatLayerMethods :=
  {| updateScale := fun l => l; updatePosition := fun l => l |}.

Definition plainLayer : GaussianSplatLayer.t :=
  GaussianSplatLayer.mk equatorAnchor (GaussianSplatLayer.mkRotation 0 0 0) 1 None.

Definition plainStart : AlignmentController.Heap :=
  @AlignmentController.start plainLayer.

(** *** Decimal formatting for closed examples

    [Number.prototype.toFixed(fractionDigits)] on a number below 1e21 in
    magnitude (degrees and metres are): with n the integer for which
    n / 10^fractionDigits is nearest to the number, the larger n on a tie,
    the digits of n, padded with zeros to fractionDigits + 1 digits, with
    the point before the last fractionDigits of them; a negative number is
    formatted by its magnitude with "-" in front. *)
Module Number.

Definition digitsOf (n : Z) : string :=
  NilZero.string_of_uint (N.to_uint (Z.to_N n)).

Fixpoint zeros (k : nat) : string :=
  match k with
  | O => EmptyString
  | S k => ("0" ++ zeros k)%string
  end.

Definition fixedPoint (n : Z) (fractionDigits : nat) : string :=
  let m := digitsOf n in
  if (fractionDigits =? 0)%nat then m else
  let m := if (String.length m <=? fractionDigits)%nat
           then (zeros (fractionDigits + 1 - String.length m) ++ m)%string
           else m in
  let k := String.length m in
  (substring 0 (k - fractionDigits) m ++ "."
     ++ substring (k - fractionDigits) fractionDigits m)%string.

Definition nearest (x : R) (fractionDigits : nat) : Z :=
  Int_part (x * 10 ^ fractionDigits + / 2).

Definition toFixed (x : R) (fractionDigits : nat) : string :=
  if Rlt_dec x 0
  then ("-" ++ fixedPoint (nearest (- x) fractionDigits) fractionDigits)%string
  else fixedPoint (nearest x fractionDigits) fractionDigits.

End Number.

(** Externals that format numbers as [Number.toFixed] does; the geodesy
    answers for the equator anchor as before. *)
Definition decimalExternals : Externals :=
  {| toFixed := Number.toFixed;
     Cartesian3_fromDegrees := fun _ _ _ => Cesium.mkCartesian3 6378137 0 0;
     Transforms_eastNorthUpToFixedFrame := fun _ => equatorFrame;
     Matrix4_inverse := fun _ => equatorFrameInverse |}.

(** An anchor 4 mm above the equator anchor and 4e-9 degrees north of
    it. *)
Definition nearEquatorAnchor : Anchor :=
  {| lat := 0.000000004; lon := 0; height := 0.004 |}.

(* ================================================================= *)
(** ** src/alignment/scaleCalibration.ts: estimateRoadWidthMeters *)

Module RoadWidth.

(** The members an object literal inherits from [Object.prototype]: reading
    one of these names from the width table yields that member, which is
    truthy, instead of a width. *)
Definition Object_prototype_names : list string :=
  ["constructor"; "__proto__"; "hasOwnProperty"; "isPrototypeOf";
   "propertyIsEnumerable"; "toLocaleString"; "toString"; "valueOf";
   "__defineGetter__"; "__defineSetter__"; "__lookupGetter__";
   "__lookupSetter__"]%string.

Definition inherits (name : string) : bool :=
  existsb (String.eqb name) Object_prototype_names.

(** What the function hands back: a number, or the inherited member. *)
Inductive value : Type :=
| meters (w : R)
| inheritedMember (name : string).

Definition laneWidth : R := 3.6.

Definition roadWidths : JS.Map R :=
  [("motorway", 24); ("trunk", 20); ("primary", 16); ("secondary", 12);
   ("tertiary", 10); ("unclassified", 8); ("residential", 6); ("service", 4);
   ("living_street", 5); ("pedestrian", 3)]%string.

(** [lanes?: number]: [None] is a call without the argument. *)
Definition estimateRoadWidthMeters (highway : string) (lanes : option R)
  : value :=
  let fallback :=
    match Map_get highway roadWidths with
    | Some w => meters (orDefault w 8)
    | None => if inherits highway then inheritedMember highway else meters 8
    end in
  match lanes with
  | Some l =>
      if Req_dec_T l 0 then fallback
      else if Rlt_dec 0 l then meters (l * laneWidth) else fallback
  | None => fallback
  end.

End RoadWidth.

(* ================================================================= *)
(** ** The haversine distance of the alignment helpers
       ([distanceInMeters], the same text in SimpleAlignment and in
       RealAIAlignment)

    [Math.sqrt] of a negative number is NaN, and NaN goes through
    [Math.atan2] and the two products to the result: [None] is NaN.  Over
    the reals the quantity [a] never leaves [0, 1]; in doubles rounding can
    push it above 1 for nearly antipodal points, which is why the statements
    below keep away from those. *)

Module Haversine.

Definition distanceInMeters (lon1 lat1 lon2 lat2 : R) : option R :=
  let R := 6371000 in
  let dLat := (lat2 - lat1) * PI / 180 in
  let dLon := (lon2 - lon1) * PI / 180 in
  let a := sin (dLat / 2) * sin (dLat / 2)
           + cos (lat1 * PI / 180) * cos (lat2 * PI / 180)
             * sin (dLon / 2) * sin (dLon / 2) in
  if Rlt_dec a 0 then None
  else if Rlt_dec (1 - a) 0 then None
  else
    let c := 2 * Math_atan2 (sqrt a) (sqrt (1 - a)) in
    Some (R * c).

End Haversine.

(* ================================================================= *)
(** ** The scale arithmetic in IEEE doubles

    [adjustScale] and [logScaleAdjustment] once more, on binary64 numbers,
    for the one place where a decimal value is compared with what the
    code computes. *)

Module Binary64.
Import PrimFloat.
Local Open Scope float_scope.
Local Set Warnings "-inexact-float".

(** [Math.max(0.1, Math.min(50.0, scale * factor))]: a NaN product stays
    NaN, as both comparisons with it are false. *)
Definition adjustedScale (scale factor : float) : float :=
  let product := scale * factor in
  let capped := if 50 <? product then 50 else product in
  if capped <? 0.1 then 0.1 else capped.

(** [after / this.adjustments.initialParams.scale] *)
Definition totalScale (after initial : float) : float := after / initial.

End Binary64.

(* ================================================================= *)
(** ** More names used in the statements *)

(** Squared norm of a quaternion. *)
Definition qnorm2 (q : Quat) : R :=
  q.(q0) * q.(q0) + q.(q1) * q.(q1) + q.(q2) * q.(q2) + q.(q3) * q.(q3).

(** The sign correction at the end of [estimatePlaneNormal]. *)
Definition upward (v : Vec3) : Vec3 :=
  if Rlt_dec v.(v2) 0
  then {| v0 := - v.(v0); v1 := - v.(v1); v2 := - v.(v2) |}
  else v.

(** A point set moved as a whole. *)
Definition translate (t p : Vec3) : Vec3 :=
  {| v0 := p.(v0) + t.(v0); v1 := p.(v1) + t.(v1); v2 := p.(v2) + t.(v2) |}.

(** The flat array read the way [quaternionToMatrix3] writes it (row by
    row), applied to a vector. *)
Definition applyRows (m : Flat3x3) (v : Vec3) : Vec3 :=
  {| v0 := m.(a0) * v.(v0) + m.(a1) * v.(v1) + m.(a2) * v.(v2);
     v1 := m.(a3) * v.(v0) + m.(a4) * v.(v1) + m.(a5) * v.(v2);
     v2 := m.(a6) * v.(v0) + m.(a7) * v.(v1) + m.(a8) * v.(v2) |}.

(** Cesium's [Matrix3.IDENTITY], [Matrix3.transpose],
    [Matrix3.multiplyByVector] and [Matrix4.getMatrix3]. *)
Definition Matrix3_IDENTITY : Cesium.Matrix3 :=
  Cesium.mkMatrix3 1 0 0 0 1 0 0 0 1.

(** The flat array taken row by row, as [quaternionToMatrix3] documents
    and writes it ("Row-major 3x3 matrix as flat array"): Cesium's
    [Matrix3.fromRowMajorArray]. *)
Definition Matrix3_fromRowMajorArray (a : Flat3x3) : Cesium.Matrix3 :=
  {| Cesium.c0r0 := a.(a0); Cesium.c1r0 := a.(a1); Cesium.c2r0 := a.(a2);
     Cesium.c0r1 := a.(a3); Cesium.c1r1 := a.(a4); Cesium.c2r1 := a.(a5);
     Cesium.c0r2 := a.(a6); Cesium.c1r2 := a.(a7); Cesium.c2r2 := a.(a8) |}.

Definition Matrix3_transpose (m : Cesium.Matrix3) : Cesium.Matrix3 :=
  Cesium.mkMatrix3
    m.(Cesium.c0r0) m.(Cesium.c1r0) m.(Cesium.c2r0)
    m.(Cesium.c0r1) m.(Cesium.c1r1) m.(Cesium.c2r1)
    m.(Cesium.c0r2) m.(Cesium.c1r2) m.(Cesium.c2r2).

Definition Matrix3_multiplyByVector (m : Cesium.Matrix3) (v : Vec3) : Vec3 :=
  {| v0 := m.(Cesium.c0r0) * v.(v0) + m.(Cesium.c1r0) * v.(v1)
           + m.(Cesium.c2r0) * v.(v2);
     v1 := m.(Cesium.c0r1) * v.(v0) + m.(Cesium.c1r1) * v.(v1)
           + m.(Cesium.c2r1) * v.(v2);
     v2 := m.(Cesium.c0r2) * v.(v0) + m.(Cesium.c1r2) * v.(v1)
           + m.(Cesium.c2r2) * v.(v2) |}.

Definition Matrix4_getMatrix3 (m : Cesium.Matrix4) : Cesium.Matrix3 :=
  Cesium.mkMatrix3
    m.(Cesium.m00) m.(Cesium.m01) m.(Cesium.m02)
    m.(Cesium.m10) m.(Cesium.m11) m.(Cesium.m12)
    m.(Cesium.m20) m.(Cesium.m21) m.(Cesium.m22).

(** A 3x3 matrix with orthonormal columns. *)
Definition orthonormal (m : Cesium.Matrix3) : Prop :=
  Cesium.Matrix3.multiply (Matrix3_transpose m) m = Matrix3_IDENTITY.

(** Calls on a tracker, one after the other. *)
Module TrackerCall.
Inductive t : Type :=
| LogScale (now : Z) (before after : R)
| LogYaw (now : Z) (before after : R)
| LogPitch (now : Z) (before after : R)
| LogRoll (now : Z) (before after : R)
| LogPosition (now : Z) (beforeE beforeN beforeU afterE afterN afterU : R)
| LogHeight (now : Z) (before after : R)
| Reset (newInitialParams : EnuParams)
| SetEnabled (enabled : bool).

Definition run (c : t) (tr : AdjustmentTracker.t) : AdjustmentTracker.t :=
  match c with
  | LogScale now b a => AdjustmentTracker.logScaleAdjustment now b a tr
  | LogYaw now b a => AdjustmentTracker.logYawAdjustment now b a tr
  | LogPitch now b a => AdjustmentTracker.logPitchAdjustment now b a tr
  | LogRoll now b a => AdjustmentTracker.logRollAdjustment now b a tr
  | LogPosition now bE bN bU aE aN aU =>
      AdjustmentTracker.logPositionAdjustment now bE bN bU aE aN aU tr
  | LogHeight now b a => AdjustmentTracker.logHeightAdjustment now b a tr
  | Reset p => AdjustmentTracker.reset p tr
  | SetEnabled e => AdjustmentTracker.setEnabled e tr
  end.

Definition runAll (calls : list t) (tr : AdjustmentTracker.t)
  : AdjustmentTracker.t :=
  fold_left (fun tr c => run c tr) calls tr.

Definition isReset (c : t) : bool :=
  match c with Reset _ => true | _ => false end.

Definition isLog (c : t) : bool :=
  match c with Reset _ | SetEnabled _ => false | _ => true end.
End TrackerCall.

(** A tracker whose totals agree with its snapshots: the six additive
    totals are "current minus initial"; the total for scale is 0 (nothing
    logged yet) or "current over initial". *)
Definition trackerConsistent (tr : AdjustmentTracker.t) : Prop :=
  let a := tr.(AdjustmentTracker.adjustments) in
  let total := a.(SplatAdjustments.totalDeltas) in
  let cur := a.(SplatAdjustments.currentParams) in
  let init := a.(SplatAdjustments.initialParams) in
  total.(TotalDeltas.yawRad) = cur.(yawRad) - init.(yawRad)
  /\ total.(TotalDeltas.pitchRad) = cur.(pitchRad) - init.(pitchRad)
  /\ total.(TotalDeltas.rollRad) = cur.(rollRad) - init.(rollRad)
  /\ total.(TotalDeltas.tEast) = cur.(tEast) - init.(tEast)
  /\ total.(TotalDeltas.tNorth) = cur.(tNorth) - init.(tNorth)
  /\ total.(TotalDeltas.tUp) = cur.(tUp) - init.(tUp)
  /\ (total.(TotalDeltas.scale) = 0
      \/ total.(TotalDeltas.scale) = cur.(scale) / init.(scale)).

(** Three ground points on the plane through the origin with unit normal
    (0, -0.6, 0.8); their centroid is the origin. *)
Definition tiltedPoints : list Vec3 :=
  [mkVec3 1 0 0; mkVec3 0 4 3; mkVec3 (-1) (-4) (-3)].

(** Their unit normal, and the matrix that the ground alignment returns for
    them: row by row, the rotation about the X axis that lowers the normal
    onto Up. *)
Definition tiltedNormal : Vec3 := mkVec3 0 (- 0.6) 0.8.

Definition tiltedAlignMatrix : Flat3x3 :=
  mkFlat3x3 1 0 0   0 0.8 0.6   0 (- 0.6) 0.8.

(** The manual adjustments among the controller's operations, and what
    each operation adds to the yaw. *)
Definition isAdjustment (o : AlignmentController.operation) : bool :=
  match o with
  | AlignmentController.AdjustScale _ _
  | AlignmentController.AdjustYaw _ _
  | AlignmentController.AdjustPitch _ _
  | AlignmentController.AdjustRoll _ _
  | AlignmentController.AdjustPosition _ _ _ _ => true
  | _ => false
  end.

Definition yawDelta (o : AlignmentController.operation) : R :=
  match o with
  | AlignmentController.AdjustYaw _ deltaRad => deltaRad
  | _ => 0
  end.

Definition assignsYaw (o : AlignmentController.operation) : bool :=
  match o with
  | AlignmentController.SetEnuParams q =>
      present q.(PartialEnuParams.yawRad)
  | _ => false
  end.

(* ================================================================= *)
(** * Properties *)

(** ** Plane fit *)

Module PlaneFitFacts.
Import PlaneFit.

Lemma vectorLength_unit (v : Vec3) : dot v v = 1 -> vectorLength v = 1.
Proof.
  unfold dot, vectorLength. intros ->. apply sqrt_1.
Qed.

Lemma normalize_unit (v : Vec3) : dot v v = 1 -> normalize v = v.
Proof.
  intros H. unfold normalize. rewrite (vectorLength_unit v H).
  destruct (Rlt_dec 1 1e-10) as [Hlt | _]; [lra |].
  destruct v as [a b c]; cbn [v0 v1 v2]. f_equal; lra.
Qed.

Lemma normalize_short (v : Vec3) :
  vectorLength v < 1e-10 -> normalize v = up.
Proof.
  intros H. unfold normalize.
  destruct (Rlt_dec (vectorLength v) 1e-10); [reflexivity | contradiction].
Qed.

Lemma dot_up_up : dot up up = 1.
Proof. unfold dot, up; cbn [v0 v1 v2]. lra. Qed.

Lemma quaternionBetween_up_up : quaternionBetween up up = identityQuat.
Proof.
  unfold quaternionBetween. rewrite (normalize_unit up dot_up_up).
  unfold up; cbn [v0 v1 v2].
  destruct (Rlt_dec 0.999999 (0 * 0 + 0 * 0 + 1 * 1)); [reflexivity | lra].
Qed.

Lemma quaternionToMatrix3_identity :
  quaternionToMatrix3 identityQuat = identityFlat.
Proof.
  unfold quaternionToMatrix3, identityQuat, identityFlat; cbn [q0 q1 q2 q3].
  f_equal; lra.
Qed.

Lemma atan2_0_1 : Math_atan2 0 1 = 0.
Proof.
  unfold Math_atan2. destruct (Rlt_dec 0 1); [| lra].
  replace (0 / 1) with 0 by lra. apply atan_0.
Qed.

(** With fewer than three points the guard of [estimatePlaneNormal]
    fires, whatever the points are. *)
Lemma estimatePlaneNormal_few (points : list Vec3) :
  (List.length points < 3)%nat ->
  estimatePlaneNormal points = Throw insufficientData.
Proof.
  intros H. unfold estimatePlaneNormal.
  apply Nat.ltb_lt in H. rewrite H. reflexivity.
Qed.

Lemma estimatePlaneNormal_enough (points : list Vec3) :
  (3 <= List.length points)%nat ->
  exists n, estimatePlaneNormal points = Normal n.
Proof.
  intros H. unfold estimatePlaneNormal.
  apply Nat.ltb_ge in H. rewrite H. eexists; reflexivity.
Qed.

Lemma normalize_axis (w a : Vec3) :
  0.19 <= dot w w -> dot w a = 0 ->
  dot (normalize w) (normalize w) = 1 /\ dot (normalize w) a = 0.
Proof.
  intros Hs Ho. unfold normalize.
  assert (Hl : vectorLength w * vectorLength w = dot w w).
  { unfold vectorLength, dot in *. apply sqrt_sqrt. lra. }
  assert (Hpos : 0 <= vectorLength w) by (unfold vectorLength; apply sqrt_pos).
  destruct (Rlt_dec (vectorLength w) 1e-10) as [Hlt | _].
  - exfalso. nra.
  - assert (Hne : vectorLength w <> 0) by nra.
    set (l := vectorLength w) in *.
    unfold dot in *; cbn [v0 v1 v2]. split.
    + field_simplify_eq; [| exact Hne]. nra.
    + field_simplify_eq; [| exact Hne]. nra.
Qed.

(** The helper axis of the antiparallel branch is never parallel to a unit
    [a]: their cross product is long enough to be normalised, and it is
    orthogonal to [a]. *)
Lemma antiparallel_axis (a : Vec3) :
  dot a a = 1 ->
  let h := if Rlt_dec 0.9 (Rabs a.(v0)) then mkVec3 0 1 0 else mkVec3 1 0 0 in
  0.19 <= dot (crossProduct a h) (crossProduct a h)
  /\ dot (crossProduct a h) a = 0.
Proof.
  intros Ha h. subst h. destruct a as [x y z].
  unfold dot in *; cbn [v0 v1 v2] in *.
  destruct (Rlt_dec 0.9 (Rabs x)) as [Hx | Hx];
    unfold crossProduct; cbn [v0 v1 v2];
    unfold Rabs in Hx; destruct (Rcase_abs x); split; nra.
Qed.

Lemma quaternionBetween_parallel (a b : Vec3) :
  dot a a = 1 -> dot b b = 1 -> 0.999999 < dot a b ->
  quaternionBetween a b = identityQuat.
Proof.
  intros Ha Hb H. unfold quaternionBetween.
  rewrite (normalize_unit a Ha), (normalize_unit b Hb). fold (dot a b).
  destruct (Rlt_dec 0.999999 (dot a b)); [reflexivity | contradiction].
Qed.

Lemma quaternionBetween_antiparallel (a b : Vec3) :
  dot a a = 1 -> dot b b = 1 -> dot a b < - 0.999999 ->
  let h := if Rlt_dec 0.9 (Rabs a.(v0)) then mkVec3 0 1 0 else mkVec3 1 0 0 in
  let c := normalize (crossProduct a h) in
  quaternionBetween a b = mkQuat c.(v0) c.(v1) c.(v2) 0.
Proof.
  intros Ha Hb H. unfold quaternionBetween.
  rewrite (normalize_unit a Ha), (normalize_unit b Hb). fold (dot a b).
  destruct (Rlt_dec 0.999999 (dot a b)); [lra |].
  destruct (Rlt_dec (dot a b) (- 0.999999)); [reflexivity | contradiction].
Qed.

(** The plane fit of [tiltedPoints]. *)
Lemma estimatePlaneNormal_tiltedPoints :
  PlaneFit.estimatePlaneNormal tiltedPoints = Normal tiltedNormal.
Proof.
  assert (Ec : PlaneFit.centerPoints tiltedPoints = tiltedPoints).
  { unfold PlaneFit.centerPoints, PlaneFit.centroidOf, tiltedPoints.
    cbn [map fold_left List.length v0 v1 v2 INR].
    repeat (f_equal; try lra). }
  assert (El : PlaneFit.vectorLength
                 (PlaneFit.crossProduct (mkVec3 1 0 0) (mkVec3 0 4 3)) = 5).
  { unfold PlaneFit.vectorLength, PlaneFit.crossProduct. cbn [v0 v1 v2].
    replace (_ + _ + _) with (5 * 5) by lra. apply sqrt_square. lra. }
  assert (En : PlaneFit.normalize
                 (PlaneFit.crossProduct (mkVec3 1 0 0) (mkVec3 0 4 3))
               = tiltedNormal).
  { unfold PlaneFit.normalize. rewrite El.
    destruct (Rlt_dec 5 1e-10) as [H | _]; [lra |].
    unfold PlaneFit.crossProduct, tiltedNormal. cbn [v0 v1 v2]. f_equal; lra. }
  unfold PlaneFit.estimatePlaneNormal.
  change ((List.length tiltedPoints <? 3)%nat) with false. cbv iota zeta.
  rewrite Ec. unfold tiltedPoints. cbv iota. rewrite En.
  unfold tiltedNormal. cbn [v0 v1 v2].
  destruct (Rlt_dec 0.8 0) as [H | _]; [lra | reflexivity].
Qed.

Lemma alignGroundToUp_tiltedPoints :
  exists al,
    PlaneFit.alignGroundToUp tiltedPoints = Normal al
    /\ al.(PlaneAlignment.alignMatrix) = tiltedAlignMatrix.
Proof.
  unfold PlaneFit.alignGroundToUp. rewrite estimatePlaneNormal_tiltedPoints.
  unfold bind. eexists. split; [reflexivity |].
  cbn [PlaneAlignment.alignMatrix]. fold up.
  assert (Hn : dot tiltedNormal tiltedNormal = 1)
    by (unfold dot, tiltedNormal; cbn [v0 v1 v2]; lra).
  unfold PlaneFit.quaternionBetween.
  rewrite (normalize_unit tiltedNormal Hn), (normalize_unit up dot_up_up).
  unfold tiltedNormal, up, PlaneFit.crossProduct. cbn [v0 v1 v2].
  destruct (Rlt_dec 0.999999 _) as [H | _]; [lra |].
  destruct (Rlt_dec _ (- 0.999999)) as [H | _]; [lra |].
  replace ((1 + (0 * 0 + - 0.6 * 0 + 0.8 * 1)) * 2) with 3.6 by lra.
  assert (Hs : sqrt 3.6 * sqrt 3.6 = 3.6) by (apply sqrt_sqrt; lra).
  assert (Hp : 0 < sqrt 3.6) by (apply sqrt_lt_R0; lra).
  set (s := sqrt 3.6) in *.
  assert (Hi : s * (1 / s) = 1) by (field; lra).
  set (i := 1 / s) in *.
  assert (Hii : i * i = / 3.6).
  { assert (H : (s * s) * (i * i) = 1)
      by (replace (s * s * (i * i)) with ((s * i) * (s * i)) by ring;
          rewrite Hi; ring).
    rewrite Hs in H. lra. }
  unfold PlaneFit.quaternionToMatrix3, tiltedAlignMatrix.
  cbn [q0 q1 q2 q3].
  f_equal.
  all: try lra.
  all: assert (Hq : / 3.6 * 3.6 = 1) by lra; nra.
Qed.

End PlaneFitFacts.

(** ** The composer *)

Module ComposerFacts.
Import Cesium ComposeModelMatrix.

Lemma Map_get_set_same {V} (k : string) (v : V) (m : JS.Map V) :
  Map_get k (Map_set k v m) = Some v.
Proof.
  induction m as [| [k' v'] m IH]; simpl.
  - now rewrite String.eqb_refl.
  - destruct (String.eqb k k') eqn:E; simpl.
    + now rewrite String.eqb_refl.
    + now rewrite E.
Qed.

Lemma Matrix4_ext (a b : Matrix4) :
  a.(m00) = b.(m00) -> a.(m01) = b.(m01) -> a.(m02) = b.(m02) -> a.(m03) = b.(m03) ->
  a.(m10) = b.(m10) -> a.(m11) = b.(m11) -> a.(m12) = b.(m12) -> a.(m13) = b.(m13) ->
  a.(m20) = b.(m20) -> a.(m21) = b.(m21) -> a.(m22) = b.(m22) -> a.(m23) = b.(m23) ->
  a.(m30) = b.(m30) -> a.(m31) = b.(m31) -> a.(m32) = b.(m32) -> a.(m33) = b.(m33) ->
  a = b.
Proof.
  destruct a, b;
    cbn [m00 m01 m02 m03 m10 m11 m12 m13 m20 m21 m22 m23 m30 m31 m32 m33].
  intros; subst; reflexivity.
Qed.

(** Equality of two 4x4 matrices, entry by entry. *)
Ltac by_entries :=
  apply Matrix4_ext;
  cbn [Matrix4.multiply
       m00 m01 m02 m03 m10 m11 m12 m13 m20 m21 m22 m23 m30 m31 m32 m33].

(** [equatorFrameInverse] is the inverse of [equatorFrame], on both sides. *)
Lemma equatorFrame_inverse :
  Matrix4.multiply equatorFrame equatorFrameInverse = Matrix4.IDENTITY
  /\ Matrix4.multiply equatorFrameInverse equatorFrame = Matrix4.IDENTITY.
Proof.
  unfold equatorFrame, equatorFrameInverse, Matrix4.IDENTITY.
  split; by_entries; lra.
Qed.

(** Under real arithmetic the grouping of the products does not matter. *)
Lemma Matrix4_multiply_assoc (a b c : Matrix4) :
  Matrix4.multiply (Matrix4.multiply a b) c
  = Matrix4.multiply a (Matrix4.multiply b c).
Proof. by_entries; ring. Qed.

Section WithExternals.
Context {ext : Externals}.

(** On a miss the frame is computed for this anchor and stored. *)
Lemma composeModelMatrixENU_miss (a : Anchor) (p : EnuParams) (cache : Cache) :
  Map_get (cacheKey a) cache = None ->
  let E := Transforms_eastNorthUpToFixedFrame
             (Cartesian3_fromDegrees a.(lon) a.(lat) a.(height)) in
  composeModelMatrixENU a p cache
  = (Normal (Matrix4.multiply
               (Matrix4.multiply (Matrix4_inverse E) (composeLocal p)) E),
     Map_set (cacheKey a) (buildEnuTransforms a) cache).
Proof.
  intros H E. unfold composeModelMatrixENU, bindM, getCachedEnuTransforms,
    Map_has.
  rewrite H. cbn [present negb]. rewrite Map_get_set_same. reflexivity.
Qed.

(** On a hit the stored frame is used and the cache is left alone. *)
Lemma composeModelMatrixENU_hit (a : Anchor) (p : EnuParams) (cache : Cache)
    (frames : EnuTransforms) :
  Map_get (cacheKey a) cache = Some frames ->
  composeModelMatrixENU a p cache
  = (Normal (Matrix4.multiply
               (Matrix4.multiply frames.(enuToEcef) (composeLocal p))
               frames.(ecefToEnu)),
     cache).
Proof.
  intros H. unfold composeModelMatrixENU, bindM, getCachedEnuTransforms,
    Map_has.
  rewrite H. cbn [present negb]. rewrite H. reflexivity.
Qed.

(** A second call with the same anchor and parameters returns the same
    matrix and no longer changes the cache. *)
Lemma composeModelMatrixENU_again (a : Anchor) (p : EnuParams) (cache : Cache) :
  let first := composeModelMatrixENU a p cache in
  composeModelMatrixENU a p (snd first) = (fst first, snd first).
Proof.
  cbv zeta. destruct (Map_get (cacheKey a) cache) as [frames |] eqn:G.
  - rewrite (composeModelMatrixENU_hit a p cache frames G). cbn [fst snd].
    apply composeModelMatrixENU_hit, G.
  - rewrite (composeModelMatrixENU_miss a p cache G). cbn [fst snd].
    rewrite (composeModelMatrixENU_hit a p _ (buildEnuTransforms a)
               (Map_get_set_same _ _ _)).
    reflexivity.
Qed.

End WithExternals.
End ComposerFacts.

(** ** How each controller method transforms the heap *)

Module ControllerFacts.
Import AlignmentController.

Section WithExternals.
Context {ext : Externals} {layerMethods : SplatLayerMethods}.

Lemma composeModelMatrixENU_returns a p cache :
  exists m cache',
    ComposeModelMatrix.composeModelMatrixENU a p cache = (Normal m, cache').
Proof.
  destruct (Map_get (ComposeModelMatrix.cacheKey a) cache) as [f |] eqn:G.
  - rewrite (ComposerFacts.composeModelMatrixENU_hit a p cache f G).
    eexists; eexists; reflexivity.
  - rewrite (ComposerFacts.composeModelMatrixENU_miss a p cache G).
    eexists; eexists; reflexivity.
Qed.

Lemma applyTransformation_spec (h : Heap) :
  exists h', applyTransformation h = (Normal tt, h')
             /\ after h h.(this).(enuParams) h.(this).(tracker) h'.
Proof.
  unfold applyTransformation, ALIGNMENT_V2, applyTransformationV2.
  unfold bindM at 1. unfold params, gets. unfold bindM at 1.
  unfold bindM, withCache.
  destruct (composeModelMatrixENU_returns h.(this).(anchor)
              (set_scale 1.0 h.(this).(enuParams)) h.(enuTransformCache))
    as (m & c & E).
  rewrite E. unfold withLayer, modify.
  eexists; split; [reflexivity |].
  unfold after; cbn [this enuParams tracker anchor]. auto.
Qed.

(** Runs the straight-line part of a method down to its closing
    [applyTransformation] and replaces that call by its effect. *)
Ltac run_to_apply :=
  unfold bindM, params, gets, assign, track, modify, call, ret;
  cbn [this enuParams tracker anchor splatLayer enuTransformCache];
  match goal with
  | |- context [applyTransformation ?h0] =>
      let h' := fresh "h'" in
      let E := fresh "E" in
      let A := fresh "A" in
      destruct (applyTransformation_spec h0) as (h' & E & A);
      rewrite E; exists h'; split; [reflexivity |];
      unfold after in *;
      cbn [this enuParams tracker anchor splatLayer enuTransformCache] in A;
      exact A
  end.

Lemma adjustScale_spec now factor (h : Heap) :
  let p := h.(this).(enuParams) in
  let next := Rmax 0.1 (Rmin 50.0 (p.(scale) * factor)) in
  exists h', adjustScale now factor h = (Normal tt, h')
    /\ after h (set_scale next p)
         (AdjustmentTracker.logScaleAdjustment now p.(scale) next
            h.(this).(tracker)) h'.
Proof. unfold adjustScale. run_to_apply. Qed.

Lemma adjustYaw_spec now deltaRad (h : Heap) :
  let p := h.(this).(enuParams) in
  let next := p.(yawRad) + deltaRad in
  exists h', adjustYaw now deltaRad h = (Normal tt, h')
    /\ after h (set_yawRad next p)
         (AdjustmentTracker.logYawAdjustment now p.(yawRad) next
            h.(this).(tracker)) h'.
Proof. unfold adjustYaw. run_to_apply. Qed.

Lemma adjustPitch_locked now deltaRad (h : Heap) :
  truthy h.(this).(enuParams).(tiltLocked) = true ->
  adjustPitch now deltaRad h = (Normal tt, h).
Proof.
  intros L. unfold adjustPitch, bindM, params, gets. rewrite L. reflexivity.
Qed.

Lemma adjustPitch_unlocked now deltaRad (h : Heap) :
  truthy h.(this).(enuParams).(tiltLocked) = false ->
  let p := h.(this).(enuParams) in
  let next := p.(pitchRad) + deltaRad in
  exists h', adjustPitch now deltaRad h = (Normal tt, h')
    /\ after h (set_pitchRad next p)
         (AdjustmentTracker.logPitchAdjustment now p.(pitchRad) next
            h.(this).(tracker)) h'.
Proof.
  intros L. unfold adjustPitch. unfold bindM at 1. unfold params at 1, gets.
  rewrite L. run_to_apply.
Qed.

Lemma adjustRoll_locked now deltaRad (h : Heap) :
  truthy h.(this).(enuParams).(tiltLocked) = true ->
  adjustRoll now deltaRad h = (Normal tt, h).
Proof.
  intros L. unfold adjustRoll, bindM, params, gets. rewrite L. reflexivity.
Qed.

Lemma adjustRoll_unlocked now deltaRad (h : Heap) :
  truthy h.(this).(enuParams).(tiltLocked) = false ->
  let p := h.(this).(enuParams) in
  let next := p.(rollRad) + deltaRad in
  exists h', adjustRoll now deltaRad h = (Normal tt, h')
    /\ after h (set_rollRad next p)
         (AdjustmentTracker.logRollAdjustment now p.(rollRad) next
            h.(this).(tracker)) h'.
Proof.
  intros L. unfold adjustRoll. unfold bindM at 1. unfold params at 1, gets.
  rewrite L. run_to_apply.
Qed.

Lemma adjustPosition_spec now dE dN dU (h : Heap) :
  let p := h.(this).(enuParams) in
  exists h', adjustPosition now dE dN dU h = (Normal tt, h')
    /\ after h
         (set_tUp (p.(tUp) + dU)
            (set_tNorth (p.(tNorth) + dN) (set_tEast (p.(tEast) + dE) p)))
         (AdjustmentTracker.logPositionAdjustment now
            p.(tEast) p.(tNorth) p.(tUp)
            (p.(tEast) + dE) (p.(tNorth) + dN) (p.(tUp) + dU)
            h.(this).(tracker)) h'.
Proof. unfold adjustPosition. run_to_apply. Qed.

Lemma calibrate_invalid trueWidth measured (h : Heap) :
  measured <= 0 ->
  calibrateScaleFromRoadWidth trueWidth measured h = (Normal tt, h).
Proof.
  intros H. unfold calibrateScaleFromRoadWidth, tryCatch, bindM, call,
    ScaleCalibration.metersPerUnitFromRoadWidth.
  destruct (Rle_dec measured 0); [reflexivity | contradiction].
Qed.

Lemma calibrate_valid trueWidth measured (h : Heap) :
  0 < measured ->
  exists h', calibrateScaleFromRoadWidth trueWidth measured h = (Normal tt, h')
    /\ after h (set_scale (trueWidth / measured) h.(this).(enuParams))
         h.(this).(tracker) h'.
Proof.
  intros H. unfold calibrateScaleFromRoadWidth, tryCatch.
  unfold bindM at 1. unfold call,
    ScaleCalibration.metersPerUnitFromRoadWidth.
  destruct (Rle_dec measured 0); [lra |].
  unfold bindM, assign, modify.
  match goal with
  | |- context [applyTransformation ?h0] =>
      destruct (applyTransformation_spec h0) as (h' & E & A); rewrite E
  end.
  exists h'; split; [reflexivity |]. exact A.
Qed.

Lemma lockTilt_few (points : list Vec3) (h : Heap) :
  (List.length points < 3)%nat ->
  lockTilt (Some points) h = (Normal tt, h).
Proof.
  intros H. unfold lockTilt. apply Nat.ltb_lt in H. rewrite H. reflexivity.
Qed.

Lemma lockTilt_none (h : Heap) : lockTilt None h = (Normal tt, h).
Proof. reflexivity. Qed.

Lemma lockTilt_enough (points : list Vec3) (h : Heap) :
  (3 <= List.length points)%nat ->
  exists al h',
    PlaneFit.alignGroundToUp points = Normal al
    /\ lockTilt (Some points) h = (Normal tt, h')
    /\ after h
         (set_rollRad 0 (set_pitchRad 0 (set_tiltLocked (Some true)
            (set_alignRotation (Some al.(PlaneAlignment.alignMatrix))
               h.(this).(enuParams)))))
         h.(this).(tracker) h'.
Proof.
  intros H. unfold lockTilt.
  destruct (PlaneFitFacts.estimatePlaneNormal_enough points H) as (n & En).
  apply Nat.ltb_ge in H. rewrite H.
  unfold PlaneFit.alignGroundToUp. rewrite En. unfold bind.
  eexists. unfold tryCatch, bindM at 1, call.
  unfold bindM, assign, modify.
  match goal with
  | |- context [applyTransformation ?h0] =>
      destruct (applyTransformation_spec h0) as (h' & E & A); rewrite E
  end.
  unfold withLayer, modify.
  eexists; split; [reflexivity |]; split; [reflexivity |].
  unfold after in *.
  cbn [this enuParams tracker anchor splatLayer enuTransformCache] in *.
  exact A.
Qed.

Lemma setEnuParams_spec (q : PartialEnuParams.t) (h : Heap) :
  let p := h.(this).(enuParams) in
  exists h', setEnuParams q h = (Normal tt, h')
    /\ after h
         (if truthy p.(tiltLocked) then Object_assign p (safeParams q)
          else Object_assign p q)
         h.(this).(tracker) h'.
Proof.
  unfold setEnuParams. unfold bindM at 1. unfold params at 1, gets.
  cbn zeta.
  destruct (truthy h.(this).(enuParams).(tiltLocked)); run_to_apply.
Qed.

End WithExternals.
End ControllerFacts.

(* ================================================================= *)
(** ** Tilt lock: too few points *)

(** C4. With fewer than 3 points the plane fit throws its
    insufficient-data error (no default normal is returned), the ground
    alignment throws it too, and [lockTilt] returns with the heap, hence
    every field of the controller's EnuParams, exactly as it was. *)
Theorem lockTilt_insufficient_points
    {ext : Externals} {layerMethods : SplatLayerMethods}
    (points : list Vec3) (h : AlignmentController.Heap) :
  (List.length points < 3)%nat ->
  PlaneFit.estimatePlaneNormal points = Throw insufficientData
  /\ PlaneFit.alignGroundToUp points = Throw insufficientData
  /\ AlignmentController.lockTilt (Some points) h = (Normal tt, h).
Proof.
  intros H. split; [| split].
  - now apply PlaneFitFacts.estimatePlaneNormal_few.
  - unfold PlaneFit.alignGroundToUp.
    now rewrite (PlaneFitFacts.estimatePlaneNormal_few points H).
  - now apply ControllerFacts.lockTilt_few.
Qed.

Lemma lockTilt_insufficient_points_witness :
  let points := [mkVec3 0 0 0; mkVec3 1 0 0] in
  (List.length points < 3)%nat
  /\ PlaneFit.estimatePlaneNormal points = Throw insufficientData
  /\ @AlignmentController.lockTilt equatorExternals plainLayerMethods
       (Some points) plainStart = (Normal tt, plainStart).
Proof.
  intros points.
  assert (H : (List.length points < 3)%nat) by (simpl; lia).
  split; [exact H |].
  destruct (@lockTilt_insufficient_points equatorExternals plainLayerMethods
              points plainStart H) as (E1 & _ & E3).
  split; [exact E1 | exact E3].
Defined.

(* ================================================================= *)
(** ** Road-width calibration *)

(** C6. The calibrator throws its invalid-measurement error exactly when
    the measured width is [<= 0], and otherwise returns the plain quotient;
    when it throws, the controller call returns with the heap (so the
    scale) as it was. *)
Theorem metersPerUnitFromRoadWidth_contract
    {ext : Externals} {layerMethods : SplatLayerMethods}
    (trueWidthMeters measuredWidthUnits : R) (h : AlignmentController.Heap) :
  (ScaleCalibration.metersPerUnitFromRoadWidth trueWidthMeters measuredWidthUnits
     = Throw invalidMeasurement <-> measuredWidthUnits <= 0)
  /\ (~ measuredWidthUnits <= 0 ->
      ScaleCalibration.metersPerUnitFromRoadWidth trueWidthMeters measuredWidthUnits
        = Normal (trueWidthMeters / measuredWidthUnits))
  /\ (measuredWidthUnits <= 0 ->
      AlignmentController.calibrateScaleFromRoadWidth
        trueWidthMeters measuredWidthUnits h = (Normal tt, h)).
Proof.
  unfold ScaleCalibration.metersPerUnitFromRoadWidth.
  split; [| split].
  - destruct (Rle_dec measuredWidthUnits 0); split; intros H;
      try reflexivity; try assumption; try discriminate; contradiction.
  - intros H. destruct (Rle_dec measuredWidthUnits 0);
      [contradiction | reflexivity].
  - apply ControllerFacts.calibrate_invalid.
Qed.

Lemma metersPerUnitFromRoadWidth_contract_witness :
  ScaleCalibration.metersPerUnitFromRoadWidth 12 4 = Normal (12 / 4)
  /\ ScaleCalibration.metersPerUnitFromRoadWidth 12 0 = Throw invalidMeasurement
  /\ @AlignmentController.calibrateScaleFromRoadWidth
       equatorExternals plainLayerMethods 12 0 plainStart
     = (Normal tt, plainStart).
Proof.
  split; [| split].
  - apply (@metersPerUnitFromRoadWidth_contract equatorExternals
             plainLayerMethods 12 4 plainStart). lra.
  - apply (@metersPerUnitFromRoadWidth_contract equatorExternals
             plainLayerMethods 12 0 plainStart). lra.
  - apply (@metersPerUnitFromRoadWidth_contract equatorExternals
             plainLayerMethods 12 0 plainStart). lra.
Defined.

(** C10. A successful road-width calibration stores the raw quotient as the
    scale, leaves every other parameter and the whole tracker (its log
    included) as they were; [adjustScale] keeps the scale within
    [0.1, 50], the calibration does not. *)
Theorem calibrateScaleFromRoadWidth_effect
    {ext : Externals} {layerMethods : SplatLayerMethods}
    (trueWidthMeters measuredWidthUnits : R) (h : AlignmentController.Heap) :
  0 < measuredWidthUnits ->
  let params h :=
    h.(AlignmentController.this).(AlignmentController.enuParams) in
  let tracker h :=
    h.(AlignmentController.this).(AlignmentController.tracker) in
  let h' := snd (AlignmentController.calibrateScaleFromRoadWidth
                   trueWidthMeters measuredWidthUnits h) in
  params h' = set_scale (trueWidthMeters / measuredWidthUnits) (params h)
  /\ tracker h' = tracker h
  /\ (forall now factor,
        let s := (params (snd (AlignmentController.adjustScale now factor h))).(scale) in
        0.1 <= s <= 50).
Proof.
  intros Hpos params tracker h'. subst h'.
  destruct (ControllerFacts.calibrate_valid trueWidthMeters measuredWidthUnits h Hpos)
    as (h1 & E & A1 & A2 & _).
  rewrite E. cbn [snd]. split; [exact A1 | split; [exact A2 |]].
  intros now factor.
  destruct (ControllerFacts.adjustScale_spec now factor h) as (h2 & E2 & B1 & _).
  rewrite E2. cbn [snd]. cbv zeta. subst params. cbv beta. rewrite B1.
  cbn [set_scale scale].
  unfold Rmax, Rmin.
  repeat match goal with |- context [Rle_dec ?a ?b] => destruct (Rle_dec a b) end;
    lra.
Qed.

Lemma calibrateScaleFromRoadWidth_effect_witness :
  let h' := snd (@AlignmentController.calibrateScaleFromRoadWidth
                   equatorExternals plainLayerMethods 100 1 plainStart) in
  0 < 1
  /\ h'.(AlignmentController.this).(AlignmentController.enuParams)
     = mkEnuParams (100 / 1) 0 0 0 0 0 0 None None
  /\ 50 < 100 / 1
  /\ h'.(AlignmentController.this).(AlignmentController.tracker).(AdjustmentTracker.adjustments).(SplatAdjustments.logs) = [].
Proof.
  intros h'.
  assert (Hpos : 0 < 1) by lra.
  destruct (@calibrateScaleFromRoadWidth_effect equatorExternals
              plainLayerMethods 100 1 plainStart Hpos) as (E1 & E2 & _).
  split; [exact Hpos |]. split; [| split; [lra |]].
  - subst h'. rewrite E1.
    unfold plainStart, AlignmentController.start, AlignmentController.new,
      plainLayer, set_scale, orDefault.
    cbn [AlignmentController.this AlignmentController.enuParams
         GaussianSplatLayer.scale GaussianSplatLayer.rotation
         GaussianSplatLayer.x GaussianSplatLayer.y GaussianSplatLayer.z
         scale yawRad pitchRad rollRad tEast tNorth tUp tiltLocked alignRotation].
    destruct (Req_dec_T 1 0); [lra |].
    destruct (Req_dec_T 0 0); reflexivity.
  - subst h'. rewrite E2. reflexivity.
Defined.

(* ================================================================= *)
(** ** Degenerate point sets *)

(** C9. With three or more points whose first two centred points have a
    cross product shorter than 1e-10, the normal estimator returns the
    fallback normal (0,0,1) without raising anything, and the ground
    alignment is the identity rotation (identity quaternion, zero pitch and
    roll, identity matrix). *)
Theorem estimatePlaneNormal_degenerate
    (points : list Vec3) (c1 c2 : Vec3) (rest : list Vec3) :
  (3 <= List.length points)%nat ->
  PlaneFit.centerPoints points = c1 :: c2 :: rest ->
  PlaneFit.vectorLength (PlaneFit.crossProduct c1 c2) < 1e-10 ->
  PlaneFit.estimatePlaneNormal points = Normal up
  /\ PlaneFit.alignGroundToUp points
     = Normal (PlaneAlignment.mk identityQuat 0 0 identityFlat).
Proof.
  intros Hlen Hc Hshort.
  assert (En : PlaneFit.estimatePlaneNormal points = Normal up).
  { unfold PlaneFit.estimatePlaneNormal.
    apply Nat.ltb_ge in Hlen. rewrite Hlen, Hc.
    rewrite (PlaneFitFacts.normalize_short _ Hshort).
    unfold up; cbn [v2]. destruct (Rlt_dec 1 0); [lra | reflexivity]. }
  split; [exact En |].
  unfold PlaneFit.alignGroundToUp. rewrite En. unfold bind.
  fold up. rewrite PlaneFitFacts.quaternionBetween_up_up.
  rewrite PlaneFitFacts.quaternionToMatrix3_identity.
  unfold identityQuat; cbn [q0 q1 q2 q3].
  replace (2 * (1 * 0 + 0 * 0)) with 0 by lra.
  replace (2 * (1 * 0 - 0 * 0)) with 0 by lra.
  replace (1 - 2 * (0 * 0 + 0 * 0)) with 1 by lra.
  rewrite PlaneFitFacts.atan2_0_1. reflexivity.
Qed.

Lemma estimatePlaneNormal_degenerate_witness :
  let points := [mkVec3 1 0 0; mkVec3 2 0 0; mkVec3 3 0 0] in
  PlaneFit.estimatePlaneNormal points = Normal up
  /\ PlaneFit.alignGroundToUp points
     = Normal (PlaneAlignment.mk identityQuat 0 0 identityFlat).
Proof.
  intros points.
  apply (estimatePlaneNormal_degenerate points
           (nth 0 (PlaneFit.centerPoints points) up)
           (nth 1 (PlaneFit.centerPoints points) up)
           (skipn 2 (PlaneFit.centerPoints points))).
  - simpl; lia.
  - reflexivity.
  - unfold PlaneFit.vectorLength, PlaneFit.crossProduct, points,
      PlaneFit.centerPoints, PlaneFit.centroidOf.
    cbn [map nth fold_left v0 v1 v2 List.length].
    match goal with |- sqrt ?s < _ => replace s with 0 by (unfold Rdiv; ring) end.
    rewrite sqrt_0. lra.
Defined.

(* ================================================================= *)
(** ** Shortest-arc quaternion: the two special cases *)

(** C5, as the code has it.  For unit vectors [a], [b]: above 0.999999 the
    result is the identity quaternion; below -0.999999 it is [(c, 0)], the
    half turn about the unit axis [c = normalize (a x h)], which is
    orthogonal to [a]; the helper axis [h] is (1,0,0) unless [|a.x| > 0.9],
    where it is (0,1,0).  The helper axis is not itself the rotation
    axis. *)
Theorem quaternionBetween_special_cases (a b : Vec3) :
  dot a a = 1 -> dot b b = 1 ->
  (0.999999 < dot a b -> PlaneFit.quaternionBetween a b = identityQuat)
  /\ (dot a b < - 0.999999 ->
      let h := if Rlt_dec 0.9 (Rabs a.(v0)) then mkVec3 0 1 0 else mkVec3 1 0 0 in
      let c := PlaneFit.normalize (PlaneFit.crossProduct a h) in
      PlaneFit.quaternionBetween a b = mkQuat c.(v0) c.(v1) c.(v2) 0
      /\ dot c c = 1 /\ dot c a = 0).
Proof.
  intros Ha Hb. split.
  - now apply PlaneFitFacts.quaternionBetween_parallel.
  - intros H h c. split.
    + now apply PlaneFitFacts.quaternionBetween_antiparallel.
    + destruct (PlaneFitFacts.antiparallel_axis a Ha) as (Hlong & Horth).
      now apply PlaneFitFacts.normalize_axis.
Qed.

Lemma quaternionBetween_special_cases_witness :
  let a := mkVec3 1 0 0 in
  let b := mkVec3 (-1) 0 0 in
  dot a a = 1 /\ dot b b = 1 /\ dot a b < - 0.999999
  /\ (PlaneFit.quaternionBetween a b).(q3) = 0
  /\ PlaneFit.quaternionBetween a a = identityQuat.
Proof.
  intros a b.
  assert (Ha : dot a a = 1) by (unfold dot, a; cbn [v0 v1 v2]; lra).
  assert (Hb : dot b b = 1) by (unfold dot, b; cbn [v0 v1 v2]; lra).
  assert (Hab : dot a b < - 0.999999)
    by (unfold dot, a, b; cbn [v0 v1 v2]; lra).
  assert (Haa : 0.999999 < dot a a) by lra.
  split; [exact Ha |]. split; [exact Hb |]. split; [exact Hab |]. split.
  - destruct (quaternionBetween_special_cases a b Ha Hb) as (_ & Hanti).
    destruct (Hanti Hab) as (Eq & _ & _).
    rewrite Eq. reflexivity.
  - exact (proj1 (quaternionBetween_special_cases a a Ha Ha) Haa).
Defined.

(** C5, against the claim: for the antiparallel unit vectors
    [a = (0, 0.6, 0.8)] and [b = -a] ([a] is parallel to neither the X nor
    the Y axis) the result is the half turn about (0, 0.8, -0.6), that is
    [a x (1,0,0)]; it is a half turn about neither (0,1,0) nor (1,0,0), and
    it is not [a x (0,1,0) = (-0.8, 0, 0)] normalised either. *)
Lemma quaternionBetween_antiparallel_oblique :
  let a := mkVec3 0 0.6 0.8 in
  let b := mkVec3 0 (-0.6) (-0.8) in
  dot a a = 1 /\ dot b b = 1 /\ dot a b < - 0.999999
  /\ PlaneFit.quaternionBetween a b = mkQuat 0 0.8 (-0.6) 0
  /\ PlaneFit.quaternionBetween a b <> mkQuat 0 1 0 0
  /\ PlaneFit.quaternionBetween a b <> mkQuat 0 (-1) 0 0
  /\ PlaneFit.quaternionBetween a b <> mkQuat 1 0 0 0
  /\ PlaneFit.quaternionBetween a b <> mkQuat (-1) 0 0 0.
Proof.
  intros a b.
  assert (Ha : dot a a = 1) by (unfold dot, a; cbn [v0 v1 v2]; lra).
  assert (Hb : dot b b = 1) by (unfold dot, b; cbn [v0 v1 v2]; lra).
  assert (Hab : dot a b < - 0.999999)
    by (unfold dot, a, b; cbn [v0 v1 v2]; lra).
  assert (E : PlaneFit.quaternionBetween a b = mkQuat 0 0.8 (-0.6) 0).
  { rewrite (PlaneFitFacts.quaternionBetween_antiparallel a b Ha Hb Hab).
    assert (Eh : (if Rlt_dec 0.9 (Rabs a.(v0))
                  then mkVec3 0 1 0 else mkVec3 1 0 0) = mkVec3 1 0 0).
    { unfold a; cbn [v0]. rewrite Rabs_R0.
      destruct (Rlt_dec 0.9 0); [lra | reflexivity]. }
    assert (Ec : PlaneFit.crossProduct a (mkVec3 1 0 0) = mkVec3 0 0.8 (-0.6))
      by (unfold PlaneFit.crossProduct, a; cbn [v0 v1 v2]; f_equal; lra).
    cbv zeta. rewrite Eh, Ec, PlaneFitFacts.normalize_unit.
    - reflexivity.
    - unfold dot; cbn [v0 v1 v2]. lra. }
  repeat split; try assumption;
    rewrite E; intros Hq;
    assert (H1 := f_equal q1 Hq); assert (H2 := f_equal q2 Hq);
    cbn [q1 q2] in H1, H2; lra.
Qed.

(* ================================================================= *)
(** ** The rotation and the frame order of the composer *)

(** C2, evaluated on the code.  Without a truthy [tiltLocked] the rotation
    of the composer is Rz(yaw) * Rx(pitch) * Ry(roll), as claimed, and it
    depends on yaw, pitch, roll, the lock flag and the cached array only.
    With the lock set it is not cachedAlignRotation * Rz(yaw): the composer
    loads the cached array with [Matrix3.fromArray], column by column,
    where the plane fit wrote it row by row, so its rotation is the
    transpose of the cached rotation times Rz(yaw).  On the ground points
    [tiltedPoints], whose normal is (0, -0.6, 0.8), the cached rotation
    lowers the normal onto Up, while the rotation of the composer differs
    from cachedAlignRotation * Rz(yaw) for every yaw and, at yaw 0, sends the
    normal to (0, -0.96, 0.28). *)
Theorem composeRotation_locked_transposed (p : EnuParams) :
  let Rz := Cesium.Matrix3.fromRotationZ p.(yawRad) in
  let R := Matrix4_getMatrix3 (ComposeModelMatrix.composeRotation p) in
  let cached := Matrix3_fromRowMajorArray tiltedAlignMatrix in
  (truthy p.(tiltLocked) = false ->
   ComposeModelMatrix.composeRotation p
   = Cesium.Matrix4.fromRotation
       (Cesium.Matrix3.multiply
          (Cesium.Matrix3.multiply Rz
             (Cesium.Matrix3.fromRotationX p.(pitchRad)))
          (Cesium.Matrix3.fromRotationY p.(rollRad))))
  /\ (forall cachedAlignRotation,
        p.(tiltLocked) = Some true ->
        p.(alignRotation) = Some cachedAlignRotation ->
        ComposeModelMatrix.composeRotation p
        = Cesium.Matrix4.fromRotation
            (Cesium.Matrix3.multiply
               (Matrix3_transpose
                  (Matrix3_fromRowMajorArray cachedAlignRotation))
               Rz))
  /\ (forall q,
        q.(yawRad) = p.(yawRad) -> q.(pitchRad) = p.(pitchRad) ->
        q.(rollRad) = p.(rollRad) -> q.(tiltLocked) = p.(tiltLocked) ->
        q.(alignRotation) = p.(alignRotation) ->
        ComposeModelMatrix.composeRotation q
        = ComposeModelMatrix.composeRotation p)
  /\ PlaneFit.estimatePlaneNormal tiltedPoints = Normal tiltedNormal
  /\ (exists al,
        PlaneFit.alignGroundToUp tiltedPoints = Normal al
        /\ al.(PlaneAlignment.alignMatrix) = tiltedAlignMatrix)
  /\ Matrix3_multiplyByVector cached tiltedNormal = up
  /\ (p.(tiltLocked) = Some true ->
      p.(alignRotation) = Some tiltedAlignMatrix ->
      R <> Cesium.Matrix3.multiply cached Rz
      /\ (p.(yawRad) = 0 ->
          Matrix3_multiplyByVector R tiltedNormal = mkVec3 0 (- 0.96) 0.28
          /\ Matrix3_multiplyByVector R tiltedNormal <> up)).
Proof.
  cbv zeta.
  split; [| split; [| split; [| split; [| split; [| split]]]]].
  - intros H. unfold ComposeModelMatrix.composeRotation. rewrite H.
    reflexivity.
  - intros a Hl Ha. unfold ComposeModelMatrix.composeRotation.
    rewrite Hl, Ha. reflexivity.
  - intros q Hy Hp Hr Hl Ha. unfold ComposeModelMatrix.composeRotation.
    rewrite Hy, Hp, Hr, Hl, Ha. reflexivity.
  - exact PlaneFitFacts.estimatePlaneNormal_tiltedPoints.
  - exact PlaneFitFacts.alignGroundToUp_tiltedPoints.
  - unfold Matrix3_multiplyByVector, Matrix3_fromRowMajorArray,
      tiltedAlignMatrix, tiltedNormal, up.
    cbn [a0 a1 a2 a3 a4 a5 a6 a7 a8 v0 v1 v2
         Cesium.c0r0 Cesium.c0r1 Cesium.c0r2 Cesium.c1r0 Cesium.c1r1
         Cesium.c1r2 Cesium.c2r0 Cesium.c2r1 Cesium.c2r2].
    f_equal; lra.
  - intros Hl Ha. unfold ComposeModelMatrix.composeRotation.
    rewrite Hl, Ha. cbn [truthy].
    unfold Matrix4_getMatrix3, Matrix3_multiplyByVector,
      Matrix3_fromRowMajorArray, Matrix3_fromArray, tiltedAlignMatrix,
      tiltedNormal, up, Cesium.Matrix4.fromRotation, Cesium.Matrix3.multiply,
      Cesium.Matrix3.fromRotationZ.
    cbn [a0 a1 a2 a3 a4 a5 a6 a7 a8 v0 v1 v2
         Cesium.c0r0 Cesium.c0r1 Cesium.c0r2 Cesium.c1r0 Cesium.c1r1
         Cesium.c1r2 Cesium.c2r0 Cesium.c2r1 Cesium.c2r2
         Cesium.m00 Cesium.m01 Cesium.m02 Cesium.m10 Cesium.m11 Cesium.m12
         Cesium.m20 Cesium.m21 Cesium.m22].
    split.
    + intros Heq. apply (f_equal Cesium.c2r1) in Heq.
      cbn [Cesium.c2r1] in Heq. lra.
    + intros Hy. rewrite Hy, cos_0, sin_0. split.
      * f_equal; lra.
      * intros Heq. apply (f_equal v1) in Heq. cbn [v1] in Heq. lra.
Qed.

Lemma composeRotation_locked_transposed_witness :
  let unlocked := mkEnuParams 2 0.5 0.1 0.2 1 2 3 None None in
  let locked :=
    mkEnuParams 1 0 0 0 0 0 0 (Some true) (Some tiltedAlignMatrix) in
  ComposeModelMatrix.composeRotation unlocked
  = Cesium.Matrix4.fromRotation
      (Cesium.Matrix3.multiply
         (Cesium.Matrix3.multiply
            (Cesium.Matrix3.fromRotationZ 0.5)
            (Cesium.Matrix3.fromRotationX 0.1))
         (Cesium.Matrix3.fromRotationY 0.2))
  /\ Matrix3_multiplyByVector
       (Matrix4_getMatrix3 (ComposeModelMatrix.composeRotation locked))
       tiltedNormal
     = mkVec3 0 (- 0.96) 0.28.
Proof.
  intros unlocked locked. split.
  - exact (proj1 (composeRotation_locked_transposed unlocked) eq_refl).
  - destruct (composeRotation_locked_transposed locked)
      as (_ & _ & _ & _ & _ & _ & H).
    destruct (H eq_refl eq_refl) as (_ & Hyaw).
    exact (proj1 (Hyaw eq_refl)).
Defined.

(** C1, evaluated on the code.  Anchor on the equator at the prime meridian,
    identity parameters but for [tEast = 1], empty cache: whenever Cesium's
    east-north-up-to-fixed frame at that anchor is [equatorFrame] and its
    inverse [equatorFrameInverse], the composer returns
    worldToLocal * M_local * localToWorld, which differs from
    localToWorld * M_local * worldToLocal. *)
Theorem composeModelMatrixENU_frame_order {ext : Externals} :
  let p := set_tEast 1 identityParams in
  let localToWorld := equatorFrame in
  let worldToLocal := equatorFrameInverse in
  let M_local := ComposeModelMatrix.composeLocal p in
  Transforms_eastNorthUpToFixedFrame (Cartesian3_fromDegrees 0 0 0)
    = localToWorld ->
  Matrix4_inverse localToWorld = worldToLocal ->
  fst (ComposeModelMatrix.composeModelMatrixENU equatorAnchor p [])
    = Normal (Cesium.Matrix4.multiply
                (Cesium.Matrix4.multiply worldToLocal M_local) localToWorld)
  /\ fst (ComposeModelMatrix.composeModelMatrixENU equatorAnchor p [])
     <> Normal (Cesium.Matrix4.multiply
                  (Cesium.Matrix4.multiply localToWorld M_local) worldToLocal).
Proof.
  intros p localToWorld worldToLocal M_local HE HI.
  assert (Ecode :
    fst (ComposeModelMatrix.composeModelMatrixENU equatorAnchor p [])
    = Normal (Cesium.Matrix4.multiply
                (Cesium.Matrix4.multiply worldToLocal M_local) localToWorld)).
  { rewrite (ComposerFacts.composeModelMatrixENU_miss equatorAnchor p [] eq_refl).
    cbn [fst equatorAnchor lat lon height]. rewrite HE, HI. reflexivity. }
  split; [exact Ecode |].
  rewrite Ecode. intros Heq.
  assert (Hm := f_equal (fun c => match c with
                                  | Normal m => m.(Cesium.m31)
                                  | Throw _ => 0
                                  end) Heq).
  cbv beta iota in Hm.
  subst M_local localToWorld worldToLocal p.
  unfold ComposeModelMatrix.composeLocal, ComposeModelMatrix.composeRotation,
    identityParams, set_tEast, equatorFrame, equatorFrameInverse in Hm.
  cbn [Cesium.Matrix4.multiply Cesium.Matrix4.fromScale
       Cesium.Matrix4.fromTranslation Cesium.Matrix4.fromRotation
       Cesium.Matrix3.multiply Cesium.Matrix3.fromRotationX
       Cesium.Matrix3.fromRotationY Cesium.Matrix3.fromRotationZ
       truthy scale yawRad pitchRad rollRad tEast tNorth tUp tiltLocked
       alignRotation Cesium.x Cesium.y Cesium.z
       Cesium.c0r0 Cesium.c0r1 Cesium.c0r2 Cesium.c1r0 Cesium.c1r1
       Cesium.c1r2 Cesium.c2r0 Cesium.c2r1 Cesium.c2r2
       Cesium.m00 Cesium.m01 Cesium.m02 Cesium.m03
       Cesium.m10 Cesium.m11 Cesium.m12 Cesium.m13
       Cesium.m20 Cesium.m21 Cesium.m22 Cesium.m23
       Cesium.m30 Cesium.m31 Cesium.m32 Cesium.m33] in Hm.
  rewrite cos_0, sin_0 in Hm. lra.
Qed.

Lemma composeModelMatrixENU_frame_order_witness :
  let p := set_tEast 1 identityParams in
  fst (@ComposeModelMatrix.composeModelMatrixENU equatorExternals
         equatorAnchor p [])
  <> Normal (Cesium.Matrix4.multiply
               (Cesium.Matrix4.multiply equatorFrame
                  (ComposeModelMatrix.composeLocal p))
               equatorFrameInverse).
Proof.
  exact (proj2 (@composeModelMatrixENU_frame_order equatorExternals
                  eq_refl eq_refl)).
Defined.

(** C3, against the claim: with scale 0 the composer returns a matrix; it
    throws nothing. *)
Lemma composeModelMatrixENU_zero_scale :
  let p := set_scale 0 identityParams in
  p.(scale) <= 0
  /\ isThrow (fst (@ComposeModelMatrix.composeModelMatrixENU equatorExternals
                     equatorAnchor p [])) = false.
Proof.
  split.
  - cbn [set_scale scale]. lra.
  - reflexivity.
Qed.

(** C3, as the code has it.  For every anchor, every parameter set (of any
    scale, positive or not) and every cache, the composer returns a matrix:
    the conjugation, by the frame pair the cache holds or receives for the
    anchor, of T * (R * S) with S = diag(scale, scale, scale) taken from the
    parameters as they are. *)
Theorem composeModelMatrixENU_any_scale {ext : Externals}
    (anchor : Anchor) (p : EnuParams) (cache : ComposeModelMatrix.Cache) :
  let frames :=
    match Map_get (ComposeModelMatrix.cacheKey anchor) cache with
    | Some entry => entry
    | None => ComposeModelMatrix.buildEnuTransforms anchor
    end in
  let S := Cesium.Matrix4.fromScale
             (Cesium.mkCartesian3 p.(scale) p.(scale) p.(scale)) in
  let R := ComposeModelMatrix.composeRotation p in
  let T := Cesium.Matrix4.fromTranslation
             (Cesium.mkCartesian3 p.(tEast) p.(tNorth) p.(tUp)) in
  fst (ComposeModelMatrix.composeModelMatrixENU anchor p cache)
  = Normal (Cesium.Matrix4.multiply
              (Cesium.Matrix4.multiply
                 frames.(ComposeModelMatrix.enuToEcef)
                 (Cesium.Matrix4.multiply T (Cesium.Matrix4.multiply R S)))
              frames.(ComposeModelMatrix.ecefToEnu)).
Proof.
  cbv zeta.
  destruct (Map_get (ComposeModelMatrix.cacheKey anchor) cache) as [f |] eqn:G.
  - now rewrite (ComposerFacts.composeModelMatrixENU_hit anchor p cache f G).
  - now rewrite (ComposerFacts.composeModelMatrixENU_miss anchor p cache G).
Qed.

(* ================================================================= *)
(** ** The tilt lock as an invariant of the controller *)

Module LockFacts.
Import AlignmentController.

Section WithExternals.
Context {ext : Externals} {layerMethods : SplatLayerMethods}.

Lemma start_invariant (layer : GaussianSplatLayer.t) :
  tiltInvariant (start layer).(this).(enuParams).
Proof. unfold tiltInvariant; cbn. discriminate. Qed.

(** Yaw stays adjustable, locked or not. *)
Lemma adjustYaw_adds now deltaRad (h : Heap) :
  (snd (adjustYaw now deltaRad h)).(this).(enuParams).(yawRad)
  = h.(this).(enuParams).(yawRad) + deltaRad.
Proof.
  destruct (ControllerFacts.adjustYaw_spec now deltaRad h) as (h' & E & A & _).
  rewrite E; cbn [snd]. rewrite A. reflexivity.
Qed.

(** Every operation keeps the invariant, except a bulk assignment that sets
    the lock flag while the controller is unlocked. *)
Lemma perform_keeps_invariant (o : operation) (h : Heap) :
  tiltInvariant h.(this).(enuParams) ->
  (forall q, o = SetEnuParams q ->
             truthy h.(this).(enuParams).(tiltLocked) = false ->
             ~ setsLock q) ->
  tiltInvariant (snd (perform o h)).(this).(enuParams).
Proof.
  intros I Hq. destruct o as [now f | now d | now d | now d | now dE dN dU
                             | pts | w m | q]; cbn [perform].
  - destruct (ControllerFacts.adjustScale_spec now f h) as (h' & E & A & _).
    rewrite E; cbn [snd]. rewrite A. exact I.
  - destruct (ControllerFacts.adjustYaw_spec now d h) as (h' & E & A & _).
    rewrite E; cbn [snd]. rewrite A. exact I.
  - destruct (truthy h.(this).(enuParams).(tiltLocked)) eqn:L.
    + rewrite (ControllerFacts.adjustPitch_locked now d h L). exact I.
    + destruct (ControllerFacts.adjustPitch_unlocked now d h L)
        as (h' & E & A & _).
      rewrite E; cbn [snd]. rewrite A.
      unfold tiltInvariant; cbn [set_pitchRad tiltLocked]. congruence.
  - destruct (truthy h.(this).(enuParams).(tiltLocked)) eqn:L.
    + rewrite (ControllerFacts.adjustRoll_locked now d h L). exact I.
    + destruct (ControllerFacts.adjustRoll_unlocked now d h L)
        as (h' & E & A & _).
      rewrite E; cbn [snd]. rewrite A.
      unfold tiltInvariant; cbn [set_rollRad tiltLocked]. congruence.
  - destruct (ControllerFacts.adjustPosition_spec now dE dN dU h)
      as (h' & E & A & _).
    rewrite E; cbn [snd]. rewrite A. exact I.
  - destruct pts as [points |]; [| rewrite ControllerFacts.lockTilt_none; exact I].
    destruct (Nat.lt_ge_cases (List.length points) 3) as [Hfew | Henough].
    + rewrite (ControllerFacts.lockTilt_few points h Hfew). exact I.
    + destruct (ControllerFacts.lockTilt_enough points h Henough)
        as (al & h' & _ & E & A & _).
      rewrite E; cbn [snd]. rewrite A.
      unfold tiltInvariant; cbn. auto.
  - destruct (Rle_lt_dec m 0) as [Hbad | Hgood].
    + rewrite (ControllerFacts.calibrate_invalid w m h Hbad). exact I.
    + destruct (ControllerFacts.calibrate_valid w m h Hgood) as (h' & E & A & _).
      rewrite E; cbn [snd]. rewrite A. exact I.
  - destruct (ControllerFacts.setEnuParams_spec q h) as (h' & E & A & _).
    rewrite E; cbn [snd]. rewrite A.
    destruct (truthy h.(this).(enuParams).(tiltLocked)) eqn:L.
    + specialize (I L). unfold tiltInvariant.
      cbn [Object_assign safeParams tiltLocked pitchRad rollRad
           PartialEnuParams.tiltLocked PartialEnuParams.pitchRad
           PartialEnuParams.rollRad]. auto.
    + specialize (Hq q eq_refl eq_refl). unfold setsLock in Hq.
      unfold tiltInvariant. cbn [Object_assign tiltLocked].
      destruct (PartialEnuParams.tiltLocked q) as [[[|] |] |]; cbn;
        try discriminate; try congruence.
Qed.

(** Hence the invariant holds after every sequence of operations in which
    no bulk assignment sets the lock flag. *)
Lemma runAll_keeps_invariant (ops : list operation) (h : Heap) :
  tiltInvariant h.(this).(enuParams) ->
  Forall (fun o => forall q, o = SetEnuParams q -> ~ setsLock q) ops ->
  tiltInvariant (runAll ops h).(this).(enuParams).
Proof.
  revert h. induction ops as [| o ops IH]; intros h I F; [exact I |].
  inversion F as [| ? ? Fo Fops]; subst.
  cbn [runAll fold_left]. apply (IH (snd (perform o h))); [| exact Fops].
  apply perform_keeps_invariant; [exact I |].
  intros q Eq _. exact (Fo q Eq).
Qed.

End WithExternals.
End LockFacts.

(** C7, evaluated on the code.  On a new controller (any layer), the single
    call setEnuParams({ tiltLocked: true, pitchRad: 0.5 }) leads to a
    reachable state that is tilt-locked with a pitch of 0.5: the invariant
    of the lock is lost. *)
Theorem setEnuParams_breaks_tilt_invariant
    {ext : Externals} {layerMethods : SplatLayerMethods}
    (layer : GaussianSplatLayer.t) :
  let q := PartialEnuParams.mk None None (Some 0.5) None None None None
             (Some (Some true)) None in
  let h := snd (AlignmentController.setEnuParams q
                  (AlignmentController.start layer)) in
  let p := h.(AlignmentController.this).(AlignmentController.enuParams) in
  AlignmentController.reachable h
  /\ p.(tiltLocked) = Some true
  /\ p.(pitchRad) = 0.5
  /\ ~ tiltInvariant p.
Proof.
  intros q h p.
  assert (R : AlignmentController.reachable h).
  { exists layer, [AlignmentController.SetEnuParams q]. reflexivity. }
  destruct (ControllerFacts.setEnuParams_spec q (AlignmentController.start layer))
    as (h' & E & A & _).
  assert (Ep : p = Object_assign
                     (AlignmentController.start layer).(AlignmentController.this).(AlignmentController.enuParams) q).
  { subst p h. rewrite E; cbn [snd]. rewrite A. reflexivity. }
  assert (El : p.(tiltLocked) = Some true) by (rewrite Ep; reflexivity).
  assert (Epitch : p.(pitchRad) = 0.5) by (rewrite Ep; reflexivity).
  repeat split; try assumption.
  intros I. unfold tiltInvariant in I. rewrite El in I.
  destruct (I eq_refl) as (Hp & _). rewrite Epitch in Hp. lra.
Qed.

(* ================================================================= *)
(** ** The adjustment tracker *)

Module TrackerFacts.
Import AdjustmentTracker.

Lemma clamp_inside (s : R) :
  0.1 <= s <= 50 -> Rmax 0.1 (Rmin 50.0 s) = s.
Proof.
  intros [Hlo Hhi].
  unfold Rmin. destruct (Rle_dec 50.0 s);
    unfold Rmax; match goal with |- context [Rle_dec ?a ?b] =>
                   destruct (Rle_dec a b) end; lra.
Qed.

(** A disabled tracker ignores every logging call. *)
Lemma disabled_ignores (tr : AdjustmentTracker.t) (now : Z) (before after : R) :
  tr.(enabled) = false ->
  logScaleAdjustment now before after tr = tr
  /\ logYawAdjustment now before after tr = tr
  /\ logPitchAdjustment now before after tr = tr
  /\ logRollAdjustment now before after tr = tr
  /\ logHeightAdjustment now before after tr = tr.
Proof.
  intros H. unfold logScaleAdjustment, logYawAdjustment, logPitchAdjustment,
    logRollAdjustment, logHeightAdjustment. rewrite H. cbn. auto.
Qed.

(** Logging never touches the initial parameters. *)
Lemma record_initial entry total current (tr : AdjustmentTracker.t) :
  initial (record entry total current tr) = initial tr.
Proof. reflexivity. Qed.

End TrackerFacts.

(** C8, against the claim: after [setEnabled(false)] a logging call changes
    nothing; the total for scale stays 0 instead of after / initial, and
    nothing is appended. *)
Lemma logScaleAdjustment_when_disabled :
  let tr := AdjustmentTracker.setEnabled false
              (AdjustmentTracker.new identityParams) in
  let tr' := AdjustmentTracker.logScaleAdjustment 0 1 1.1 tr in
  let a := tr'.(AdjustmentTracker.adjustments) in
  a.(SplatAdjustments.totalDeltas).(TotalDeltas.scale) = 0
  /\ a.(SplatAdjustments.totalDeltas).(TotalDeltas.scale)
     <> 1.1 / a.(SplatAdjustments.initialParams).(scale)
  /\ a.(SplatAdjustments.logs) = [].
Proof.
  cbn. repeat split. lra.
Qed.

(** C8, as the code has it.  While the tracker is enabled, every logging
    call sets the total of its kind to the after-value minus the initial
    value of the session (after / initial for scale), appends one entry and
    keeps the initial values; while it is disabled, each of the six logging
    calls returns the tracker as it was.  And, from an initial scale of 1 on
    a new controller, two calls of adjustScale(f) whose products stay within
    [0.1, 50] (as for f = 1.1) give exactly two log entries, with befores
    1, 1 * f and afters 1 * f, (1 * f) * f, and a total for scale of
    ((1 * f) * f) / 1: the products as the controller computed them. *)
Theorem tracker_totals_from_initial
    {ext : Externals} {layerMethods : SplatLayerMethods}
    (tr : AdjustmentTracker.t) (now : Z) (before after : R) :
  let init := AdjustmentTracker.initial tr in
  let total t :=
    t.(AdjustmentTracker.adjustments).(SplatAdjustments.totalDeltas) in
  let logs t := t.(AdjustmentTracker.adjustments).(SplatAdjustments.logs) in
  let appended kind t :=
    logs t = logs tr ++ [AdjustmentLog.mk now kind (AdjustmentLog.num before)
                           (AdjustmentLog.num after)
                           (Some (AdjustmentLog.num (after - before)))]
    /\ AdjustmentTracker.initial t = init in
  (tr.(AdjustmentTracker.enabled) = true ->
   (let t := AdjustmentTracker.logScaleAdjustment now before after tr in
    (total t).(TotalDeltas.scale) = after / init.(scale)
    /\ logs t = logs tr ++ [AdjustmentLog.mk now AdjustmentLog.scale
                              (AdjustmentLog.num before)
                              (AdjustmentLog.num after)
                              (Some (AdjustmentLog.num (after / before)))]
    /\ AdjustmentTracker.initial t = init)
   /\ (let t := AdjustmentTracker.logYawAdjustment now before after tr in
       (total t).(TotalDeltas.yawRad) = after - init.(yawRad)
       /\ appended AdjustmentLog.yaw t)
   /\ (let t := AdjustmentTracker.logPitchAdjustment now before after tr in
       (total t).(TotalDeltas.pitchRad) = after - init.(pitchRad)
       /\ appended AdjustmentLog.pitch t)
   /\ (let t := AdjustmentTracker.logRollAdjustment now before after tr in
       (total t).(TotalDeltas.rollRad) = after - init.(rollRad)
       /\ appended AdjustmentLog.roll t)
   /\ (let t := AdjustmentTracker.logHeightAdjustment now before after tr in
       (total t).(TotalDeltas.tUp) = after - init.(tUp)
       /\ appended AdjustmentLog.height t)
   /\ (forall beforeE beforeN beforeU afterE afterN afterU,
         let t := AdjustmentTracker.logPositionAdjustment now
                    beforeE beforeN beforeU afterE afterN afterU tr in
         (total t).(TotalDeltas.tEast) = afterE - init.(tEast)
         /\ (total t).(TotalDeltas.tNorth) = afterN - init.(tNorth)
         /\ (total t).(TotalDeltas.tUp) = afterU - init.(tUp)
         /\ List.length (logs t) = S (List.length (logs tr))
         /\ AdjustmentTracker.initial t = init))
  /\ (tr.(AdjustmentTracker.enabled) = false ->
      AdjustmentTracker.logScaleAdjustment now before after tr = tr
      /\ AdjustmentTracker.logYawAdjustment now before after tr = tr
      /\ AdjustmentTracker.logPitchAdjustment now before after tr = tr
      /\ AdjustmentTracker.logRollAdjustment now before after tr = tr
      /\ AdjustmentTracker.logHeightAdjustment now before after tr = tr
      /\ (forall beforeE beforeN beforeU afterE afterN afterU,
            AdjustmentTracker.logPositionAdjustment now
              beforeE beforeN beforeU afterE afterN afterU tr = tr))
  /\ (forall (layer : GaussianSplatLayer.t) (now1 now2 : Z) (factor : R),
        layer.(GaussianSplatLayer.scale) = 1 ->
        0.1 <= 1 * factor <= 50 -> 0.1 <= 1 * factor * factor <= 50 ->
        let h2 := snd (AlignmentController.adjustScale now2 factor
                         (snd (AlignmentController.adjustScale now1 factor
                                 (AlignmentController.start layer)))) in
        let t := h2.(AlignmentController.this).(AlignmentController.tracker) in
        (total t).(TotalDeltas.scale) = 1 * factor * factor / 1
        /\ List.length (logs t) = 2%nat
        /\ map AdjustmentLog.before (logs t)
           = [AdjustmentLog.num 1; AdjustmentLog.num (1 * factor)]
        /\ map AdjustmentLog.after (logs t)
           = [AdjustmentLog.num (1 * factor);
              AdjustmentLog.num (1 * factor * factor)]).
Proof.
  intros init total logs appended.
  split; [| split].
  - intros En.
    unfold AdjustmentTracker.logScaleAdjustment,
      AdjustmentTracker.logYawAdjustment, AdjustmentTracker.logPitchAdjustment,
      AdjustmentTracker.logRollAdjustment,
      AdjustmentTracker.logHeightAdjustment,
      AdjustmentTracker.logPositionAdjustment.
    rewrite En. cbn [negb].
    do 5 (split; [subst appended total logs init; cbn; repeat split |]).
    intros bE bN bU aE aN aU. subst total logs init. cbn. repeat split.
    now rewrite length_app, Nat.add_comm.
  - intros Dis.
    destruct (TrackerFacts.disabled_ignores tr now before after Dis)
      as (Hs & Hy & Hp & Hr & Hh).
    repeat (split; [assumption |]).
    intros bE bN bU aE aN aU.
    unfold AdjustmentTracker.logPositionAdjustment. rewrite Dis. reflexivity.
  - intros layer now1 now2 factor Hs R1 R2. clear tr init appended.
    set (h0 := AlignmentController.start layer).
    assert (Es0 : h0.(AlignmentController.this).(AlignmentController.enuParams).(scale) = 1).
    { subst h0. cbn. rewrite Hs. unfold orDefault.
      destruct (Req_dec_T 1 0); [lra | reflexivity]. }
    assert (Et0 : h0.(AlignmentController.this).(AlignmentController.tracker)
                  = AdjustmentTracker.new
                      h0.(AlignmentController.this).(AlignmentController.enuParams))
      by reflexivity.
    clearbody h0.
    destruct (ControllerFacts.adjustScale_spec now1 factor h0)
      as (h1 & E1 & P1 & T1 & _).
    rewrite E1; cbn [snd].
    destruct (ControllerFacts.adjustScale_spec now2 factor h1)
      as (h2 & E2 & P2 & T2 & _).
    rewrite E2; cbn [snd]. rewrite T2, T1, P1, Et0.
    cbn [set_scale scale]. rewrite Es0.
    rewrite (TrackerFacts.clamp_inside (1 * factor) R1).
    rewrite (TrackerFacts.clamp_inside (1 * factor * factor) R2).
    subst total logs.
    unfold AdjustmentTracker.logScaleAdjustment, AdjustmentTracker.new,
      AdjustmentTracker.record, AdjustmentTracker.initial,
      AdjustmentTracker.fresh.
    cbn [negb AdjustmentTracker.enabled AdjustmentTracker.adjustments
         SplatAdjustments.initialParams SplatAdjustments.logs
         SplatAdjustments.totalDeltas TotalDeltas.set_scale TotalDeltas.scale
         app map List.length AdjustmentLog.before AdjustmentLog.after].
    rewrite Es0. repeat split.
Qed.

Lemma tracker_totals_from_initial_witness :
  let tr := AdjustmentTracker.new identityParams in
  let off := AdjustmentTracker.setEnabled false tr in
  let total t :=
    t.(AdjustmentTracker.adjustments).(SplatAdjustments.totalDeltas) in
  let h2 := snd (@AlignmentController.adjustScale equatorExternals
                   plainLayerMethods 2 1.1
                   (snd (@AlignmentController.adjustScale equatorExternals
                           plainLayerMethods 1 1.1 plainStart))) in
  tr.(AdjustmentTracker.enabled) = true
  /\ off.(AdjustmentTracker.enabled) = false
  /\ plainLayer.(GaussianSplatLayer.scale) = 1
  /\ (total (AdjustmentTracker.logYawAdjustment 0 0 0.5 tr)).(TotalDeltas.yawRad)
     = 0.5 - (AdjustmentTracker.initial tr).(yawRad)
  /\ AdjustmentTracker.logPositionAdjustment 0 0 0 0 1 2 3 off = off
  /\ (total h2.(AlignmentController.this).(AlignmentController.tracker)).(TotalDeltas.scale)
     = 1 * 1.1 * 1.1 / 1.
Proof.
  intros tr off total h2.
  destruct (@tracker_totals_from_initial equatorExternals plainLayerMethods
              tr 0%Z 0 0.5) as (Hon & _ & Hscenario).
  destruct (Hon eq_refl) as (_ & (Hyaw & _) & _).
  destruct (@tracker_totals_from_initial equatorExternals plainLayerMethods
              off 0%Z 0 0.5) as (_ & Hoff & _).
  destruct (Hoff eq_refl) as (_ & _ & _ & _ & _ & Hpos).
  assert (R1 : 0.1 <= 1 * 1.1 <= 50) by lra.
  assert (R2 : 0.1 <= 1 * 1.1 * 1.1 <= 50) by lra.
  destruct (Hscenario plainLayer 1%Z 2%Z 1.1 eq_refl R1 R2) as (Htotal & _).
  split; [reflexivity |]. split; [reflexivity |]. split; [reflexivity |].
  split; [exact Hyaw |]. split; [apply Hpos | exact Htotal].
Defined.

(** The scenario of C8 in IEEE doubles: the scale after two calls of
    adjustScale(1.1) from 1.0 is 1.2100000000000002, which is not the double
    1.21, and so is the total that logScaleAdjustment stores. *)
Module Binary64Facts.
Import PrimFloat.
Local Open Scope float_scope.
Local Set Warnings "-inexact-float".

Lemma adjustScale_twice_in_doubles :
  let s1 := Binary64.adjustedScale 1 1.1 in
  let s2 := Binary64.adjustedScale s1 1.1 in
  s1 = 1.1
  /\ s2 = 1.2100000000000002
  /\ (s2 =? 1.21) = false
  /\ Binary64.totalScale s2 1 = 1.2100000000000002.
Proof. cbv zeta. repeat split; reflexivity. Qed.

End Binary64Facts.

(* ================================================================= *)
(** * Further properties of the code *)

(** ** Plane fit: normals, quaternions and the cached matrix *)

Module PlaneFitMore.
Import PlaneFit.

Lemma lagrange (a b : Vec3) :
  dot (crossProduct a b) (crossProduct a b) + dot a b * dot a b
  = dot a a * dot b b.
Proof. unfold dot, crossProduct; cbn [v0 v1 v2]. ring. Qed.

Lemma crossProduct_orthogonal (a b : Vec3) :
  dot (crossProduct a b) a = 0 /\ dot (crossProduct a b) b = 0.
Proof. unfold dot, crossProduct; cbn [v0 v1 v2]. split; ring. Qed.

Lemma vectorLength_square (v : Vec3) :
  vectorLength v * vectorLength v = dot v v.
Proof. unfold vectorLength, dot. apply sqrt_sqrt. nra. Qed.

(** Scaling by the length keeps orthogonality. *)
Lemma normalize_orthogonal (w a : Vec3) :
  1e-10 <= vectorLength w -> dot w a = 0 -> dot (normalize w) a = 0.
Proof.
  intros Hl Ho. unfold normalize.
  destruct (Rlt_dec (vectorLength w) 1e-10) as [Hlt | _]; [lra |].
  assert (Hne : vectorLength w <> 0) by lra.
  set (l := vectorLength w) in *.
  unfold dot in *; cbn [v0 v1 v2].
  field_simplify_eq; [| exact Hne]. lra.
Qed.

(** The sum the centroid loop accumulates, for a translated list and any
    two starting values. *)
Lemma centroid_sum_translate (t : Vec3) (l : list Vec3) (acc acc' : Vec3) :
  let add := fun c p => {| v0 := c.(v0) + p.(v0);
                           v1 := c.(v1) + p.(v1);
                           v2 := c.(v2) + p.(v2) |} in
  let s := fold_left add l acc in
  let s' := fold_left add (map (translate t) l) acc' in
  s'.(v0) = s.(v0) + (acc'.(v0) - acc.(v0)) + INR (List.length l) * t.(v0)
  /\ s'.(v1) = s.(v1) + (acc'.(v1) - acc.(v1)) + INR (List.length l) * t.(v1)
  /\ s'.(v2) = s.(v2) + (acc'.(v2) - acc.(v2)) + INR (List.length l) * t.(v2).
Proof.
  cbv zeta. revert acc acc'. induction l as [| p l IH]; intros acc acc'.
  - cbn [map fold_left List.length INR]. repeat split; ring.
  - cbn [map fold_left]. change (List.length (p :: l)) with (S (List.length l)).
    rewrite S_INR.
    destruct (IH {| v0 := acc.(v0) + p.(v0);
                    v1 := acc.(v1) + p.(v1);
                    v2 := acc.(v2) + p.(v2) |}
                 {| v0 := acc'.(v0) + (translate t p).(v0);
                    v1 := acc'.(v1) + (translate t p).(v1);
                    v2 := acc'.(v2) + (translate t p).(v2) |}) as (E0 & E1 & E2).
    rewrite E0, E1, E2. unfold translate; cbn [v0 v1 v2].
    repeat split; ring.
Qed.

Lemma centerPoints_translate (t : Vec3) (points : list Vec3) :
  points <> [] ->
  centerPoints (map (translate t) points) = centerPoints points.
Proof.
  intros Hne. unfold centerPoints, centroidOf.
  rewrite length_map, map_map.
  destruct (centroid_sum_translate t points {| v0 := 0; v1 := 0; v2 := 0 |}
              {| v0 := 0; v1 := 0; v2 := 0 |}) as (E0 & E1 & E2).
  cbv zeta in E0, E1, E2. rewrite E0, E1, E2.
  assert (Hn : INR (List.length points) <> 0).
  { apply not_0_INR. destruct points; [contradiction | discriminate]. }
  apply map_ext. intros p. unfold translate; cbn [v0 v1 v2].
  f_equal; field; exact Hn.
Qed.

(** Once the normal is Up, the alignment is the identity. *)
Lemma alignGroundToUp_of_up (points : list Vec3) :
  estimatePlaneNormal points = Normal up ->
  alignGroundToUp points
  = Normal (PlaneAlignment.mk identityQuat 0 0 identityFlat).
Proof.
  intros En. unfold alignGroundToUp. rewrite En. unfold bind.
  fold up. rewrite PlaneFitFacts.quaternionBetween_up_up.
  rewrite PlaneFitFacts.quaternionToMatrix3_identity.
  unfold identityQuat; cbn [q0 q1 q2 q3].
  replace (2 * (1 * 0 + 0 * 0)) with 0 by lra.
  replace (2 * (1 * 0 - 0 * 0)) with 0 by lra.
  replace (1 - 2 * (0 * 0 + 0 * 0)) with 1 by lra.
  rewrite PlaneFitFacts.atan2_0_1. reflexivity.
Qed.

(** Whatever the input, the result of [normalize] has length 1. *)
Lemma normalize_unit_any (v : Vec3) : dot (normalize v) (normalize v) = 1.
Proof.
  unfold normalize.
  pose proof (vectorLength_square v) as Hl.
  destruct (Rlt_dec (vectorLength v) 1e-10) as [Hlt | Hge].
  - unfold dot; cbn [v0 v1 v2]. lra.
  - assert (Hne : vectorLength v <> 0) by lra.
    set (l := vectorLength v) in *.
    unfold dot in *; cbn [v0 v1 v2].
    field_simplify_eq; [| exact Hne]. nra.
Qed.

Lemma upward_facts (v : Vec3) :
  dot (upward v) (upward v) = dot v v /\ 0 <= (upward v).(v2)
  /\ forall c, dot v c = 0 -> dot (upward v) c = 0.
Proof.
  unfold upward. destruct (Rlt_dec v.(v2) 0); unfold dot; cbn [v0 v1 v2].
  - split; [ring |]. split; [lra |]. intros c H. lra.
  - split; [ring |]. split; [lra |]. auto.
Qed.

(** With three or more points the estimator takes the first two centred
    points, normalises their cross product and corrects its sign. *)
Lemma estimatePlaneNormal_shape (points : list Vec3) :
  (3 <= List.length points)%nat ->
  exists c1 c2 rest,
    centerPoints points = c1 :: c2 :: rest
    /\ estimatePlaneNormal points
       = Normal (upward (normalize (crossProduct c1 c2))).
Proof.
  intros Hlen. unfold estimatePlaneNormal.
  assert (L : List.length (centerPoints points) = List.length points)
    by (unfold centerPoints; apply length_map).
  apply Nat.ltb_ge in Hlen. rewrite Hlen. apply Nat.ltb_ge in Hlen.
  destruct (centerPoints points) as [| c1 [| c2 rest]];
    try (cbn in L; lia).
  exists c1, c2, rest. split; reflexivity.
Qed.

(** The general branch of [quaternionBetween] yields a unit quaternion. *)
Lemma quaternionBetween_unit (a b : Vec3) :
  dot a a = 1 -> dot b b = 1 ->
  qnorm2 (quaternionBetween a b) = 1.
Proof.
  intros Ha Hb.
  destruct (Rlt_dec 0.999999 (dot a b)) as [Hp | Hp].
  { rewrite (PlaneFitFacts.quaternionBetween_parallel a b Ha Hb Hp).
    unfold qnorm2, identityQuat; cbn [q0 q1 q2 q3]. lra. }
  destruct (Rlt_dec (dot a b) (- 0.999999)) as [Hn | Hn].
  { rewrite (PlaneFitFacts.quaternionBetween_antiparallel a b Ha Hb Hn).
    cbv zeta. unfold qnorm2; cbn [q0 q1 q2 q3].
    pose proof (normalize_unit_any
                  (crossProduct a
                     (if Rlt_dec 0.9 (Rabs a.(v0))
                      then mkVec3 0 1 0 else mkVec3 1 0 0))) as Hu.
    unfold dot in Hu. lra. }
  unfold quaternionBetween.
  rewrite (PlaneFitFacts.normalize_unit a Ha), (PlaneFitFacts.normalize_unit b Hb).
  fold (dot a b).
  destruct (Rlt_dec 0.999999 (dot a b)); [contradiction |].
  destruct (Rlt_dec (dot a b) (- 0.999999)); [contradiction |].
  set (d := dot a b) in *.
  assert (Hs : sqrt ((1 + d) * 2) * sqrt ((1 + d) * 2) = (1 + d) * 2)
    by (apply sqrt_sqrt; lra).
  assert (Hs0 : sqrt ((1 + d) * 2) <> 0) by nra.
  set (s := sqrt ((1 + d) * 2)) in *.
  pose proof (lagrange a b) as L. rewrite Ha, Hb in L. fold d in L.
  unfold dot in L.
  unfold qnorm2; cbn [q0 q1 q2 q3].
  set (c := crossProduct a b) in *.
  field_simplify_eq; [| exact Hs0].
  nra.
Qed.

(** Between the two thresholds the matrix of the quaternion turns [a] into
    [b] when read row by row, and [b] into [a] when read column by
    column. *)
Lemma general_maps (a b : Vec3) :
  dot a a = 1 -> dot b b = 1 ->
  - 0.999999 <= dot a b <= 0.999999 ->
  let m := quaternionToMatrix3 (quaternionBetween a b) in
  applyRows m a = b
  /\ Matrix3_multiplyByVector (Matrix3_fromArray m) b = a.
Proof.
  intros Ha Hb [Hlo Hhi] m. subst m.
  unfold quaternionBetween.
  rewrite (PlaneFitFacts.normalize_unit a Ha), (PlaneFitFacts.normalize_unit b Hb).
  fold (dot a b).
  destruct (Rlt_dec 0.999999 (dot a b)); [lra |].
  destruct (Rlt_dec (dot a b) (- 0.999999)); [lra |].
  assert (Hs : sqrt ((1 + dot a b) * 2) * sqrt ((1 + dot a b) * 2)
               = (1 + dot a b) * 2)
    by (apply sqrt_sqrt; lra).
  assert (Hs0 : sqrt ((1 + dot a b) * 2) <> 0) by nra.
  set (s := sqrt ((1 + dot a b) * 2)) in *.
  destruct a as [x1 y1 z1], b as [x2 y2 z2].
  unfold dot in *; cbn [v0 v1 v2] in *.
  unfold applyRows, Matrix3_multiplyByVector, Matrix3_fromArray,
    quaternionToMatrix3, crossProduct;
    cbn [v0 v1 v2 q0 q1 q2 q3 a0 a1 a2 a3 a4 a5 a6 a7 a8
         Cesium.c0r0 Cesium.c0r1 Cesium.c0r2 Cesium.c1r0 Cesium.c1r1
         Cesium.c1r2 Cesium.c2r0 Cesium.c2r1 Cesium.c2r2].
  replace 0.5 with (/ 2) by lra.
  split; f_equal.
  all: field_simplify_eq; [| exact Hs0].
  all: replace (s ^ 2) with ((1 + (x1 * x2 + y1 * y2 + z1 * z2)) * 2)
      by (rewrite <- Hs; ring).
  all: let A := constr:(x1 * x1 + y1 * y1 + z1 * z1) in
       let B := constr:(x2 * x2 + y2 * y2 + z2 * z2) in
       let d := constr:(x1 * x2 + y1 * y2 + z1 * z2) in
       match goal with
       | |- ?L = ?R =>
           first
             [ assert (E : L - R
                           = 2 * x1 * (1 - A * B) + 2 * (1 + d) * x2 * (A - 1))
                 by ring
             | assert (E : L - R
                           = 2 * y1 * (1 - A * B) + 2 * (1 + d) * y2 * (A - 1))
                 by ring
             | assert (E : L - R
                           = 2 * z1 * (1 - A * B) + 2 * (1 + d) * z2 * (A - 1))
                 by ring
             | assert (E : L - R
                           = 2 * x2 * (1 - A * B) + 2 * (1 + d) * x1 * (B - 1))
                 by ring
             | assert (E : L - R
                           = 2 * y2 * (1 - A * B) + 2 * (1 + d) * y1 * (B - 1))
                 by ring
             | assert (E : L - R
                           = 2 * z2 * (1 - A * B) + 2 * (1 + d) * z1 * (B - 1))
                 by ring ]
       end.
  all: rewrite Ha, Hb in E; lra.
Qed.

End PlaneFitMore.

(** X1. [normalize] returns a unit vector for every input: the fallback
    (0,0,1) when the input is shorter than 1e-10, and otherwise the vector
    that, scaled by the input's length, gives the input back. *)
Theorem normalize_is_unit (v : Vec3) :
  let n := PlaneFit.normalize v in
  let len := PlaneFit.vectorLength v in
  dot n n = 1
  /\ (len < 1e-10 -> n = up)
  /\ (1e-10 <= len ->
      v = mkVec3 (len * n.(v0)) (len * n.(v1)) (len * n.(v2))).
Proof.
  cbv zeta. split; [apply PlaneFitMore.normalize_unit_any |]. split.
  - apply PlaneFitFacts.normalize_short.
  - intros Hl. unfold PlaneFit.normalize.
    destruct (Rlt_dec (PlaneFit.vectorLength v) 1e-10) as [Hlt | _]; [lra |].
    assert (Hne : PlaneFit.vectorLength v <> 0) by lra.
    destruct v as [x y z]; cbn [v0 v1 v2].
    f_equal; field; exact Hne.
Qed.

Lemma normalize_is_unit_witness :
  let v := mkVec3 3 0 4 in
  1e-10 <= PlaneFit.vectorLength v
  /\ dot (PlaneFit.normalize v) (PlaneFit.normalize v) = 1.
Proof.
  intros v.
  assert (Hl : PlaneFit.vectorLength v = 5).
  { unfold PlaneFit.vectorLength, v; cbn [v0 v1 v2].
    replace (3 * 3 + 0 * 0 + 4 * 4) with (5 * 5) by lra.
    apply sqrt_square. lra. }
  split; [rewrite Hl; lra |].
  exact (proj1 (normalize_is_unit v)).
Defined.

(** X2. For three or more points the estimated plane normal is a unit
    vector whose Z component is not negative; unless the first two centred
    points have a cross product shorter than 1e-10, it is orthogonal to
    both of them. *)
Theorem estimatePlaneNormal_unit_upward (points : list Vec3) :
  (3 <= List.length points)%nat ->
  exists n,
    PlaneFit.estimatePlaneNormal points = Normal n
    /\ dot n n = 1 /\ 0 <= n.(v2)
    /\ (forall c1 c2 rest,
          PlaneFit.centerPoints points = c1 :: c2 :: rest ->
          1e-10 <= PlaneFit.vectorLength (PlaneFit.crossProduct c1 c2) ->
          dot n c1 = 0 /\ dot n c2 = 0).
Proof.
  intros Hlen.
  destruct (PlaneFitMore.estimatePlaneNormal_shape points Hlen)
    as (c1 & c2 & rest & Ec & En).
  eexists. split; [exact En |].
  destruct (PlaneFitMore.upward_facts
              (PlaneFit.normalize (PlaneFit.crossProduct c1 c2)))
    as (Hdot & Hpos & Hkeep).
  split; [rewrite Hdot; apply PlaneFitMore.normalize_unit_any |].
  split; [exact Hpos |].
  intros d1 d2 rest' Ec' Hl. rewrite Ec in Ec'. injection Ec' as <- <- _.
  destruct (PlaneFitMore.crossProduct_orthogonal c1 c2) as (O1 & O2).
  split; apply Hkeep; apply PlaneFitMore.normalize_orthogonal; assumption.
Qed.

Lemma estimatePlaneNormal_unit_upward_witness :
  let points := [mkVec3 0 0 0; mkVec3 1 0 0; mkVec3 0 1 0] in
  (3 <= List.length points)%nat
  /\ exists n, PlaneFit.estimatePlaneNormal points = Normal n
               /\ dot n n = 1 /\ 0 <= n.(v2).
Proof.
  intros points.
  assert (H : (3 <= List.length points)%nat) by (simpl; lia).
  split; [exact H |].
  destruct (estimatePlaneNormal_unit_upward points H) as (n & E & U & P & _).
  exists n. auto.
Defined.

(** X3. Moving a non-empty point set as a whole changes neither the
    centred points, nor the estimated normal, nor the ground alignment. *)
Theorem alignGroundToUp_translation_invariant (t : Vec3) (points : list Vec3) :
  points <> [] ->
  PlaneFit.centerPoints (map (translate t) points)
    = PlaneFit.centerPoints points
  /\ PlaneFit.estimatePlaneNormal (map (translate t) points)
     = PlaneFit.estimatePlaneNormal points
  /\ PlaneFit.alignGroundToUp (map (translate t) points)
     = PlaneFit.alignGroundToUp points.
Proof.
  intros Hne.
  pose proof (PlaneFitMore.centerPoints_translate t points Hne) as Ec.
  assert (En : PlaneFit.estimatePlaneNormal (map (translate t) points)
               = PlaneFit.estimatePlaneNormal points).
  { unfold PlaneFit.estimatePlaneNormal. rewrite length_map, Ec. reflexivity. }
  split; [exact Ec |]. split; [exact En |].
  unfold PlaneFit.alignGroundToUp. rewrite En. reflexivity.
Qed.

Lemma alignGroundToUp_translation_invariant_witness :
  let points := [mkVec3 0 0 0; mkVec3 1 0 0; mkVec3 0 1 0] in
  let t := mkVec3 10 20 30 in
  points <> []
  /\ PlaneFit.alignGroundToUp (map (translate t) points)
     = PlaneFit.alignGroundToUp points.
Proof.
  intros points t.
  assert (H : points <> []) by discriminate.
  split; [exact H |].
  exact (proj2 (proj2 (alignGroundToUp_translation_invariant t points H))).
Defined.

(** X4. Level ground: when all points (three or more) have the same Z, the
    estimated normal is exactly (0,0,1) whatever their X and Y are, and the
    ground alignment is the identity rotation with zero pitch and roll. *)
Theorem alignGroundToUp_level_ground (points : list Vec3) (z : R) :
  (3 <= List.length points)%nat ->
  Forall (fun p => p.(v2) = z) points ->
  PlaneFit.estimatePlaneNormal points = Normal up
  /\ PlaneFit.alignGroundToUp points
     = Normal (PlaneAlignment.mk identityQuat 0 0 identityFlat).
Proof.
  intros Hlen Hz.
  assert (Hsum : forall (l : list Vec3) (acc : Vec3),
             Forall (fun p => p.(v2) = z) l ->
             (fold_left (fun c p => {| v0 := c.(v0) + p.(v0);
                                       v1 := c.(v1) + p.(v1);
                                       v2 := c.(v2) + p.(v2) |}) l acc).(v2)
             = acc.(v2) + INR (List.length l) * z).
  { induction l as [| p l IH]; intros acc F.
    - cbn [fold_left List.length INR]. ring.
    - inversion F as [| ? ? Hp Hl]; subst. cbn [fold_left].
      rewrite (IH _ Hl). cbn [v2].
      change (List.length (p :: l)) with (S (List.length l)).
      rewrite S_INR. ring. }
  assert (Hn : INR (List.length points) <> 0).
  { apply not_0_INR. lia. }
  assert (Hcz : Forall (fun c => c.(v2) = 0) (PlaneFit.centerPoints points)).
  { unfold PlaneFit.centerPoints. apply Forall_map.
    apply Forall_forall. intros p Hin. cbn [v2].
    unfold PlaneFit.centroidOf; cbn [v2].
    rewrite (Hsum points _ Hz); cbn [v2].
    rewrite Forall_forall in Hz. rewrite (Hz p Hin). field. exact Hn. }
  assert (En : PlaneFit.estimatePlaneNormal points = Normal up).
  { destruct (PlaneFitMore.estimatePlaneNormal_shape points Hlen)
      as (c1 & c2 & rest & Ec & En).
    rewrite En. f_equal. rewrite Ec in Hcz.
    inversion Hcz as [| ? ? Z1 Hr]; subst.
    inversion Hr as [| ? ? Z2 _]; subst.
    set (raw := PlaneFit.normalize (PlaneFit.crossProduct c1 c2)).
    assert (Hraw : raw.(v0) = 0 /\ raw.(v1) = 0).
    { subst raw. unfold PlaneFit.normalize.
      destruct (Rlt_dec _ 1e-10) as [_ | Hge]; cbn [v0 v1];
        [split; reflexivity |].
      unfold PlaneFit.crossProduct; cbn [v0 v1 v2]. rewrite Z1, Z2.
      unfold Rdiv. split; ring. }
    pose proof (PlaneFitMore.normalize_unit_any (PlaneFit.crossProduct c1 c2))
      as Hu. fold raw in Hu.
    destruct Hraw as (R0 & R1). clearbody raw.
    destruct raw as [r0 r1 r2]. unfold dot in Hu; cbn [v0 v1 v2] in *.
    subst r0 r1. unfold upward, up; cbn [v0 v1 v2].
    destruct (Rlt_dec r2 0); f_equal; nra. }
  split; [exact En |]. now apply PlaneFitMore.alignGroundToUp_of_up.
Qed.

Lemma alignGroundToUp_level_ground_witness :
  let points := [mkVec3 0 0 5; mkVec3 3 1 5; mkVec3 (-2) 7 5; mkVec3 4 4 5] in
  PlaneFit.estimatePlaneNormal points = Normal up.
Proof.
  intros points.
  apply (alignGroundToUp_level_ground points 5).
  - simpl; lia.
  - repeat constructor.
Defined.

(** X5. For unit vectors the shortest-arc construction returns a unit
    quaternion whose scalar part is not negative, in each of its three
    branches. *)
Theorem quaternionBetween_is_unit (a b : Vec3) :
  dot a a = 1 -> dot b b = 1 ->
  qnorm2 (PlaneFit.quaternionBetween a b) = 1
  /\ 0 <= (PlaneFit.quaternionBetween a b).(q3).
Proof.
  intros Ha Hb. split; [now apply PlaneFitMore.quaternionBetween_unit |].
  unfold PlaneFit.quaternionBetween.
  repeat match goal with
         | |- context [Rlt_dec ?x ?y] => destruct (Rlt_dec x y)
         end; cbn [q3]; try lra.
  pose proof (sqrt_pos ((1 + (v0 (PlaneFit.normalize a) * v0 (PlaneFit.normalize b)
                              + v1 (PlaneFit.normalize a) * v1 (PlaneFit.normalize b)
                              + v2 (PlaneFit.normalize a) * v2 (PlaneFit.normalize b)))
                        * 2)).
  lra.
Qed.

Lemma quaternionBetween_is_unit_witness :
  let a := mkVec3 0 0.6 0.8 in
  dot a a = 1 /\ dot up up = 1
  /\ qnorm2 (PlaneFit.quaternionBetween a up) = 1.
Proof.
  intros a.
  assert (Ha : dot a a = 1) by (unfold dot, a; cbn [v0 v1 v2]; lra).
  assert (Hb : dot up up = 1) by apply PlaneFitFacts.dot_up_up.
  split; [exact Ha |]. split; [exact Hb |].
  exact (proj1 (quaternionBetween_is_unit a up Ha Hb)).
Defined.

(** X6. What the matrix of the quaternion does to [a], for unit vectors.
    Between the thresholds (dot product from -0.999999 to 0.999999) the
    matrix, read row by row as [quaternionToMatrix3] writes it, maps [a]
    exactly onto [b], and read the way [Matrix3.fromArray] reads it (column
    by column) it maps [b] onto [a].  Below -0.999999 it maps [a] onto
    [-a], in either reading. *)
Theorem quaternionBetween_matrix_maps (a b : Vec3) :
  dot a a = 1 -> dot b b = 1 ->
  let m := PlaneFit.quaternionToMatrix3 (PlaneFit.quaternionBetween a b) in
  (- 0.999999 <= dot a b <= 0.999999 ->
   applyRows m a = b
   /\ Matrix3_multiplyByVector (Matrix3_fromArray m) b = a)
  /\ (dot a b < - 0.999999 ->
      applyRows m a = mkVec3 (- a.(v0)) (- a.(v1)) (- a.(v2))
      /\ Matrix3_multiplyByVector (Matrix3_fromArray m) a
         = mkVec3 (- a.(v0)) (- a.(v1)) (- a.(v2))).
Proof.
  intros Ha Hb m. split.
  - intros Hd. now apply PlaneFitMore.general_maps.
  - intros Hd. subst m.
    rewrite (PlaneFitFacts.quaternionBetween_antiparallel a b Ha Hb Hd).
    cbv zeta.
    destruct (PlaneFitFacts.antiparallel_axis a Ha) as (Hlong & Horth).
    destruct (PlaneFitFacts.normalize_axis _ a Hlong Horth) as (Hu & Ho).
    set (c := PlaneFit.normalize _) in *. clearbody c.
    destruct a as [x y z], c as [c0 c1 c2].
    unfold dot in *; cbn [v0 v1 v2] in *.
    unfold applyRows, Matrix3_multiplyByVector, Matrix3_fromArray,
      PlaneFit.quaternionToMatrix3;
      cbn [v0 v1 v2 q0 q1 q2 q3 a0 a1 a2 a3 a4 a5 a6 a7 a8
           Cesium.c0r0 Cesium.c0r1 Cesium.c0r2 Cesium.c1r0 Cesium.c1r1
           Cesium.c1r2 Cesium.c2r0 Cesium.c2r1 Cesium.c2r2].
    split; f_equal.
    all: let N := constr:(c0 * c0 + c1 * c1 + c2 * c2) in
         let O := constr:(c0 * x + c1 * y + c2 * z) in
         match goal with
         | |- ?L = ?R =>
             first
               [ assert (E : L - R = 2 * c0 * O - 2 * x * (N - 1)) by ring
               | assert (E : L - R = 2 * c1 * O - 2 * y * (N - 1)) by ring
               | assert (E : L - R = 2 * c2 * O - 2 * z * (N - 1)) by ring ]
         end.
    all: rewrite Hu, Ho in E; lra.
Qed.

Lemma quaternionBetween_matrix_maps_witness :
  let a := mkVec3 0 0.6 0.8 in
  let m := PlaneFit.quaternionToMatrix3 (PlaneFit.quaternionBetween a up) in
  - 0.999999 <= dot a up <= 0.999999
  /\ applyRows m a = up
  /\ Matrix3_multiplyByVector (Matrix3_fromArray m) up = a.
Proof.
  intros a m.
  assert (Ha : dot a a = 1) by (unfold dot, a; cbn [v0 v1 v2]; lra).
  assert (Hd : - 0.999999 <= dot a up <= 0.999999)
    by (unfold dot, a, up; cbn [v0 v1 v2]; lra).
  split; [exact Hd |].
  exact (proj1 (quaternionBetween_matrix_maps a up Ha PlaneFitFacts.dot_up_up) Hd).
Defined.

(** X7. The matrix of a unit quaternion, as [Matrix3.fromArray] loads it,
    has orthonormal columns: it is a rotation matrix. *)
Theorem quaternionToMatrix3_orthonormal (q : Quat) :
  qnorm2 q = 1 ->
  orthonormal (Matrix3_fromArray (PlaneFit.quaternionToMatrix3 q)).
Proof.
  intros Hq. destruct q as [x y z w]. unfold qnorm2 in Hq; cbn [q0 q1 q2 q3] in Hq.
  unfold orthonormal, Matrix3_transpose, Matrix3_fromArray, Matrix3_IDENTITY,
    PlaneFit.quaternionToMatrix3, Cesium.Matrix3.multiply;
    cbn [q0 q1 q2 q3 a0 a1 a2 a3 a4 a5 a6 a7 a8
         Cesium.c0r0 Cesium.c0r1 Cesium.c0r2 Cesium.c1r0 Cesium.c1r1
         Cesium.c1r2 Cesium.c2r0 Cesium.c2r1 Cesium.c2r2].
  f_equal.
  all: let N := constr:(x * x + y * y + z * z + w * w) in
       match goal with
       | |- ?L = ?R =>
           first
             [ assert (E : L - R = 4 * (y * y + z * z) * (N - 1)) by ring
             | assert (E : L - R = 4 * (x * x + z * z) * (N - 1)) by ring
             | assert (E : L - R = 4 * (x * x + y * y) * (N - 1)) by ring
             | assert (E : L - R = - 4 * (x * y) * (N - 1)) by ring
             | assert (E : L - R = - 4 * (x * z) * (N - 1)) by ring
             | assert (E : L - R = - 4 * (y * z) * (N - 1)) by ring ]
       end.
  all: rewrite Hq in E; lra.
Qed.

Lemma quaternionToMatrix3_orthonormal_witness :
  qnorm2 identityQuat = 1
  /\ orthonormal (Matrix3_fromArray (PlaneFit.quaternionToMatrix3 identityQuat)).
Proof.
  assert (H : qnorm2 identityQuat = 1)
    by (unfold qnorm2, identityQuat; cbn [q0 q1 q2 q3]; lra).
  split; [exact H | exact (quaternionToMatrix3_orthonormal identityQuat H)].
Defined.

(** X8. The ground alignment of three or more points: the antiparallel
    branch is never taken; when the Z component of the estimated normal is
    at most 0.999999 the cached matrix, read row by row, maps the normal
    exactly onto Up, and in Cesium's reading it maps Up onto the normal;
    above 0.999999 the alignment is the identity. *)
Theorem alignGroundToUp_levels (points : list Vec3) :
  (3 <= List.length points)%nat ->
  exists n al,
    PlaneFit.estimatePlaneNormal points = Normal n
    /\ PlaneFit.alignGroundToUp points = Normal al
    /\ al.(PlaneAlignment.quat) = PlaneFit.quaternionBetween n up
    /\ al.(PlaneAlignment.alignMatrix)
       = PlaneFit.quaternionToMatrix3 al.(PlaneAlignment.quat)
    /\ qnorm2 al.(PlaneAlignment.quat) = 1
    /\ (n.(v2) <= 0.999999 ->
        applyRows al.(PlaneAlignment.alignMatrix) n = up
        /\ Matrix3_multiplyByVector
             (Matrix3_fromArray al.(PlaneAlignment.alignMatrix)) up = n)
    /\ (0.999999 < n.(v2) ->
        al.(PlaneAlignment.quat) = identityQuat
        /\ al.(PlaneAlignment.alignMatrix) = identityFlat).
Proof.
  intros Hlen.
  destruct (PlaneFitMore.estimatePlaneNormal_shape points Hlen)
    as (c1 & c2 & rest & _ & En).
  destruct (PlaneFitMore.upward_facts
              (PlaneFit.normalize (PlaneFit.crossProduct c1 c2)))
    as (Hdot & Hpos & _).
  rewrite PlaneFitMore.normalize_unit_any in Hdot. rename Hdot into Hu.
  set (n := upward _) in *. clearbody n.
  exists n. unfold PlaneFit.alignGroundToUp. rewrite En. unfold bind.
  eexists. split; [reflexivity |]. split; [reflexivity |].
  cbn [PlaneAlignment.quat PlaneAlignment.alignMatrix]. fold up.
  split; [reflexivity |]. split; [reflexivity |].
  assert (Hd : dot n up = n.(v2)) by (unfold dot, up; cbn [v0 v1 v2]; ring).
  split; [apply PlaneFitMore.quaternionBetween_unit;
          [exact Hu | apply PlaneFitFacts.dot_up_up] |].
  split.
  - intros Hz.
    apply (PlaneFitMore.general_maps n up Hu PlaneFitFacts.dot_up_up).
    rewrite Hd. lra.
  - intros Hz.
    assert (Eq : PlaneFit.quaternionBetween n up = identityQuat).
    { apply PlaneFitFacts.quaternionBetween_parallel;
        [exact Hu | apply PlaneFitFacts.dot_up_up | rewrite Hd; exact Hz]. }
    rewrite Eq. split; [reflexivity |].
    apply PlaneFitFacts.quaternionToMatrix3_identity.
Qed.

Lemma alignGroundToUp_levels_witness :
  let points := [mkVec3 0 0 0; mkVec3 1 0 1; mkVec3 0 1 0] in
  (3 <= List.length points)%nat
  /\ exists n al,
       PlaneFit.estimatePlaneNormal points = Normal n
       /\ PlaneFit.alignGroundToUp points = Normal al
       /\ qnorm2 al.(PlaneAlignment.quat) = 1.
Proof.
  intros points.
  assert (H : (3 <= List.length points)%nat) by (simpl; lia).
  split; [exact H |].
  destruct (alignGroundToUp_levels points H)
    as (n & al & En & Ea & _ & _ & Hq & _).
  exists n, al. auto.
Defined.

(* ================================================================= *)
(** ** The composer: frame cache, local matrix, rotation block *)

Module ComposerMore.
Import Cesium ComposeModelMatrix.

Lemma Map_get_set_other {V} (k k' : string) (v : V) (m : JS.Map V) :
  k <> k' -> Map_get k (Map_set k' v m) = Map_get k m.
Proof.
  intros Hne. induction m as [| [k0 v0] m IH]; cbn [Map_set Map_get].
  - destruct (String.eqb k k') eqn:E; [| reflexivity].
    apply String.eqb_eq in E. contradiction.
  - destruct (String.eqb k' k0) eqn:E0; cbn [Map_get].
    + apply String.eqb_eq in E0. subst k0.
      destruct (String.eqb k k') eqn:E; [| reflexivity].
      apply String.eqb_eq in E. contradiction.
    + destruct (String.eqb k k0); [reflexivity | exact IH].
Qed.

Lemma Matrix3_ext (a b : Matrix3) :
  a.(c0r0) = b.(c0r0) -> a.(c0r1) = b.(c0r1) -> a.(c0r2) = b.(c0r2) ->
  a.(c1r0) = b.(c1r0) -> a.(c1r1) = b.(c1r1) -> a.(c1r2) = b.(c1r2) ->
  a.(c2r0) = b.(c2r0) -> a.(c2r1) = b.(c2r1) -> a.(c2r2) = b.(c2r2) ->
  a = b.
Proof.
  destruct a, b; cbn [c0r0 c0r1 c0r2 c1r0 c1r1 c1r2 c2r0 c2r1 c2r2].
  intros; subst; reflexivity.
Qed.

Ltac by_entries3 :=
  apply Matrix3_ext;
  cbn [Matrix3.multiply Matrix3_transpose Matrix3_IDENTITY
       c0r0 c0r1 c0r2 c1r0 c1r1 c1r2 c2r0 c2r1 c2r2].

Lemma Matrix3_transpose_multiply (a b : Matrix3) :
  Matrix3_transpose (Matrix3.multiply a b)
  = Matrix3.multiply (Matrix3_transpose b) (Matrix3_transpose a).
Proof. by_entries3; ring. Qed.

Lemma Matrix3_multiply_assoc (a b c : Matrix3) :
  Matrix3.multiply (Matrix3.multiply a b) c
  = Matrix3.multiply a (Matrix3.multiply b c).
Proof. by_entries3; ring. Qed.

Lemma Matrix3_multiply_identity_l (a : Matrix3) :
  Matrix3.multiply Matrix3_IDENTITY a = a.
Proof. by_entries3; ring. Qed.

Lemma Matrix4_multiply_identity_r (a : Matrix4) :
  Matrix4.multiply a Matrix4.IDENTITY = a.
Proof. unfold Matrix4.IDENTITY. ComposerFacts.by_entries; ring. Qed.

(** Products of matrices with orthonormal columns have orthonormal
    columns. *)
Lemma orthonormal_multiply (a b : Matrix3) :
  orthonormal a -> orthonormal b -> orthonormal (Matrix3.multiply a b).
Proof.
  unfold orthonormal. intros Ha Hb.
  rewrite Matrix3_transpose_multiply, Matrix3_multiply_assoc.
  rewrite <- (Matrix3_multiply_assoc (Matrix3_transpose a) a b).
  rewrite Ha, Matrix3_multiply_identity_l. exact Hb.
Qed.

Lemma cos2_sin2 (x : R) : cos x * cos x + sin x * sin x = 1.
Proof. pose proof (sin2_cos2 x) as H. unfold Rsqr in H. lra. Qed.

Lemma orthonormal_rotations (angle : R) :
  orthonormal (Matrix3.fromRotationX angle)
  /\ orthonormal (Matrix3.fromRotationY angle)
  /\ orthonormal (Matrix3.fromRotationZ angle).
Proof.
  pose proof (cos2_sin2 angle) as H.
  unfold orthonormal, Matrix3.fromRotationX, Matrix3.fromRotationY,
    Matrix3.fromRotationZ.
  repeat split; by_entries3; lra.
Qed.

Lemma composeLocal_identity :
  composeLocal identityParams = Matrix4.IDENTITY.
Proof.
  unfold composeLocal, composeRotation, identityParams, Matrix4.IDENTITY.
  cbn [truthy scale yawRad pitchRad rollRad tEast tNorth tUp tiltLocked
       alignRotation].
  apply ComposerFacts.Matrix4_ext;
    cbn [Matrix4.multiply Matrix4.fromScale Matrix4.fromTranslation
         Matrix4.fromRotation Matrix3.multiply Matrix3.fromRotationX
         Matrix3.fromRotationY Matrix3.fromRotationZ x y z
         c0r0 c0r1 c0r2 c1r0 c1r1 c1r2 c2r0 c2r1 c2r2
         m00 m01 m02 m03 m10 m11 m12 m13 m20 m21 m22 m23 m30 m31 m32 m33];
    rewrite ?cos_0, ?sin_0; lra.
Qed.

(** The integer part of a real between two consecutive integers. *)
Lemma Int_part_between (r : R) (z : Z) :
  IZR z <= r < IZR z + 1 -> Int_part r = z.
Proof.
  intros (Hl & Hu). unfold Int_part.
  assert (E : (z + 1)%Z = Rdefinitions.up r)
    by (apply tech_up; rewrite plus_IZR; simpl; lra).
  lia.
Qed.

(** A non-negative number that rounds to 0 is formatted as zero is. *)
Lemma toFixed_rounds_to_zero (x : R) (fractionDigits : nat) :
  0 <= x -> x * 10 ^ fractionDigits < / 2 ->
  Number.toFixed x fractionDigits = Number.toFixed 0 fractionDigits.
Proof.
  intros H0 Hs. unfold Number.toFixed.
  destruct (Rlt_dec x 0) as [H | _]; [lra |].
  destruct (Rlt_dec 0 0) as [H | _]; [lra |].
  unfold Number.nearest.
  rewrite (Int_part_between (x * 10 ^ fractionDigits + / 2) 0),
          (Int_part_between (0 * 10 ^ fractionDigits + / 2) 0);
    [reflexivity | simpl; lra | simpl].
  assert (0 <= x * 10 ^ fractionDigits)
    by (apply Rmult_le_pos; [exact H0 | apply pow_le; lra]).
  lra.
Qed.

End ComposerMore.

(** X9. The frame cache only grows: a call of the composer leaves every
    entry it finds as it is (no eviction, no overwrite), touches no key but
    the anchor's, and leaves the anchor's key present. *)
Theorem enuTransformCache_only_grows {ext : Externals}
    (anchor : Anchor) (p : EnuParams) (cache : ComposeModelMatrix.Cache) :
  let cache' := snd (ComposeModelMatrix.composeModelMatrixENU anchor p cache) in
  (forall key frames,
      Map_get key cache = Some frames -> Map_get key cache' = Some frames)
  /\ (forall key,
        key <> ComposeModelMatrix.cacheKey anchor ->
        Map_get key cache' = Map_get key cache)
  /\ Map_has (ComposeModelMatrix.cacheKey anchor) cache' = true.
Proof.
  cbv zeta.
  destruct (Map_get (ComposeModelMatrix.cacheKey anchor) cache) as [f |] eqn:G.
  - rewrite (ComposerFacts.composeModelMatrixENU_hit anchor p cache f G).
    cbn [snd]. unfold Map_has. rewrite G. auto.
  - rewrite (ComposerFacts.composeModelMatrixENU_miss anchor p cache G).
    cbn [snd]. split; [| split].
    + intros key frames Hk.
      rewrite ComposerMore.Map_get_set_other; [exact Hk |].
      intros ->. rewrite G in Hk. discriminate.
    + intros key Hne. now apply ComposerMore.Map_get_set_other.
    + unfold Map_has. now rewrite ComposerFacts.Map_get_set_same.
Qed.

Lemma enuTransformCache_only_grows_witness :
  let cache' := snd (@ComposeModelMatrix.composeModelMatrixENU equatorExternals
                       equatorAnchor identityParams []) in
  Map_has "0,0,0" cache' = true
  /\ Map_get "1,1,1" cache' = None.
Proof.
  intros cache'.
  destruct (@enuTransformCache_only_grows equatorExternals equatorAnchor
              identityParams []) as (_ & Hother & Hhas).
  split; [exact Hhas |].
  apply (Hother "1,1,1"%string). discriminate.
Defined.

(** X10. Anchors with the same cache key share one frame.  Two anchors
    whose latitudes agree in toFixed(8), whose longitudes agree in
    toFixed(8) and whose heights agree in toFixed(2) have the same key.
    After a call for [a1], a call for any [a2] with the same key (in
    particular [a1] again) conjugates with the frame pair the first call
    used and leaves the cache unchanged; on a first-call miss that pair is
    the one built for [a1], whatever [a2] is. *)
Theorem composeModelMatrixENU_shares_frame {ext : Externals}
    (a1 a2 : Anchor) (p1 p2 : EnuParams) (cache : ComposeModelMatrix.Cache) :
  let sameKey :=
    ComposeModelMatrix.cacheKey a2 = ComposeModelMatrix.cacheKey a1 in
  (toFixed a2.(lat) 8 = toFixed a1.(lat) 8 ->
   toFixed a2.(lon) 8 = toFixed a1.(lon) 8 ->
   toFixed a2.(height) 2 = toFixed a1.(height) 2 ->
   sameKey)
  /\ (sameKey ->
      let first := ComposeModelMatrix.composeModelMatrixENU a1 p1 cache in
      let conj frames p :=
        Cesium.Matrix4.multiply
          (Cesium.Matrix4.multiply frames.(ComposeModelMatrix.enuToEcef)
             (ComposeModelMatrix.composeLocal p))
          frames.(ComposeModelMatrix.ecefToEnu) in
      exists frames,
        fst first = Normal (conj frames p1)
        /\ ComposeModelMatrix.composeModelMatrixENU a2 p2 (snd first)
           = (Normal (conj frames p2), snd first)
        /\ (Map_get (ComposeModelMatrix.cacheKey a1) cache = None ->
            frames = ComposeModelMatrix.buildEnuTransforms a1)).
Proof.
  intros sameKey. subst sameKey. split.
  - intros Hlat Hlon Hheight. unfold ComposeModelMatrix.cacheKey.
    rewrite Hlat, Hlon, Hheight. reflexivity.
  - intros Hk first conj. subst first.
    destruct (Map_get (ComposeModelMatrix.cacheKey a1) cache) as [f |] eqn:G.
    + exists f.
      rewrite (ComposerFacts.composeModelMatrixENU_hit a1 p1 cache f G).
      cbn [fst snd]. split; [reflexivity |]. split; [| discriminate].
      apply ComposerFacts.composeModelMatrixENU_hit. now rewrite Hk.
    + exists (ComposeModelMatrix.buildEnuTransforms a1).
      rewrite (ComposerFacts.composeModelMatrixENU_miss a1 p1 cache G).
      cbn [fst snd]. split; [reflexivity |]. split; [| reflexivity].
      apply ComposerFacts.composeModelMatrixENU_hit.
      rewrite Hk. apply ComposerFacts.Map_get_set_same.
Qed.

Lemma composeModelMatrixENU_shares_frame_witness :
  let first := @ComposeModelMatrix.composeModelMatrixENU decimalExternals
                 equatorAnchor identityParams [] in
  Number.toFixed nearEquatorAnchor.(lat) 8 = Number.toFixed equatorAnchor.(lat) 8
  /\ Number.toFixed nearEquatorAnchor.(height) 2
     = Number.toFixed equatorAnchor.(height) 2
  /\ @ComposeModelMatrix.cacheKey decimalExternals nearEquatorAnchor
     = @ComposeModelMatrix.cacheKey decimalExternals equatorAnchor
  /\ snd (@ComposeModelMatrix.composeModelMatrixENU decimalExternals
            nearEquatorAnchor identityParams (snd first)) = snd first.
Proof.
  intros first.
  assert (Hlat : Number.toFixed nearEquatorAnchor.(lat) 8
                 = Number.toFixed equatorAnchor.(lat) 8)
    by (apply ComposerMore.toFixed_rounds_to_zero; cbn; lra).
  assert (Hheight : Number.toFixed nearEquatorAnchor.(height) 2
                    = Number.toFixed equatorAnchor.(height) 2)
    by (apply ComposerMore.toFixed_rounds_to_zero; cbn; lra).
  destruct (@composeModelMatrixENU_shares_frame decimalExternals
              equatorAnchor nearEquatorAnchor identityParams identityParams [])
    as (Hkey & Hshare).
  pose proof (Hkey Hlat eq_refl Hheight) as Hk.
  split; [exact Hlat |]. split; [exact Hheight |]. split; [exact Hk |].
  destruct (Hshare Hk) as (frames & _ & E & _).
  fold first in E. rewrite E. reflexivity.
Defined.

(** X11. The local matrix is the affine map "scale, rotate, translate": its
    upper-left block is the rotation block times the scale, its last column
    is (tEast, tNorth, tUp, 1) and its last row is (0, 0, 0, 1), with or
    without a tilt lock. *)
Theorem composeLocal_affine (p : EnuParams) :
  let r := Matrix4_getMatrix3 (ComposeModelMatrix.composeRotation p) in
  let s := p.(scale) in
  ComposeModelMatrix.composeLocal p
  = Cesium.mkMatrix4
      (r.(Cesium.c0r0) * s) (r.(Cesium.c0r1) * s) (r.(Cesium.c0r2) * s) 0
      (r.(Cesium.c1r0) * s) (r.(Cesium.c1r1) * s) (r.(Cesium.c1r2) * s) 0
      (r.(Cesium.c2r0) * s) (r.(Cesium.c2r1) * s) (r.(Cesium.c2r2) * s) 0
      p.(tEast) p.(tNorth) p.(tUp) 1.
Proof.
  cbv zeta. unfold ComposeModelMatrix.composeLocal.
  assert (Hr : exists m, ComposeModelMatrix.composeRotation p
                         = Cesium.Matrix4.fromRotation m).
  { unfold ComposeModelMatrix.composeRotation.
    destruct (truthy p.(tiltLocked)), p.(alignRotation); eexists; reflexivity. }
  destruct Hr as (m & ->).
  apply ComposerFacts.Matrix4_ext;
    cbn [Cesium.Matrix4.multiply Cesium.Matrix4.fromScale
         Cesium.Matrix4.fromTranslation Cesium.Matrix4.fromRotation
         Matrix4_getMatrix3 Cesium.x Cesium.y Cesium.z
         Cesium.c0r0 Cesium.c0r1 Cesium.c0r2 Cesium.c1r0 Cesium.c1r1
         Cesium.c1r2 Cesium.c2r0 Cesium.c2r1 Cesium.c2r2
         Cesium.m00 Cesium.m01 Cesium.m02 Cesium.m03
         Cesium.m10 Cesium.m11 Cesium.m12 Cesium.m13
         Cesium.m20 Cesium.m21 Cesium.m22 Cesium.m23
         Cesium.m30 Cesium.m31 Cesium.m32 Cesium.m33];
    ring.
Qed.

(** X12. Without a tilt lock the rotation block of the composer has
    orthonormal columns for every yaw, pitch and roll: it is a rotation
    matrix, so the local matrix scales all lengths by [scale]. *)
Theorem composeRotation_unlocked_orthonormal (p : EnuParams) :
  truthy p.(tiltLocked) = false ->
  orthonormal (Matrix4_getMatrix3 (ComposeModelMatrix.composeRotation p)).
Proof.
  intros Hl. unfold ComposeModelMatrix.composeRotation. rewrite Hl.
  destruct (ComposerMore.orthonormal_rotations p.(yawRad)) as (_ & _ & Hz).
  destruct (ComposerMore.orthonormal_rotations p.(pitchRad)) as (Hx & _ & _).
  destruct (ComposerMore.orthonormal_rotations p.(rollRad)) as (_ & Hy & _).
  pose proof (ComposerMore.orthonormal_multiply _ _
                (ComposerMore.orthonormal_multiply _ _ Hz Hx) Hy) as H.
  cbv zeta.
  match goal with
  | |- orthonormal (Matrix4_getMatrix3 (Cesium.Matrix4.fromRotation ?m)) =>
      replace (Matrix4_getMatrix3 (Cesium.Matrix4.fromRotation m)) with m
        by (destruct m; reflexivity)
  end.
  exact H.
Qed.

Lemma composeRotation_unlocked_orthonormal_witness :
  let p := mkEnuParams 2 0.5 0.1 0.2 1 2 3 None None in
  orthonormal (Matrix4_getMatrix3 (ComposeModelMatrix.composeRotation p)).
Proof.
  intros p.
  exact (composeRotation_unlocked_orthonormal p eq_refl).
Defined.

(** X13. With the identity parameters the local matrix is the identity, so
    on a cold cache the composer returns inverse(E) * E for the anchor's
    frame E: the identity matrix whenever [Matrix4.inverse] yields a left
    inverse of E.  The anchor does not show in the result. *)
Theorem composeModelMatrixENU_identity_params {ext : Externals}
    (anchor : Anchor) (cache : ComposeModelMatrix.Cache) :
  let E := Transforms_eastNorthUpToFixedFrame
             (Cartesian3_fromDegrees anchor.(lon) anchor.(lat) anchor.(height)) in
  Map_get (ComposeModelMatrix.cacheKey anchor) cache = None ->
  ComposeModelMatrix.composeLocal identityParams = Cesium.Matrix4.IDENTITY
  /\ fst (ComposeModelMatrix.composeModelMatrixENU anchor identityParams cache)
     = Normal (Cesium.Matrix4.multiply (Matrix4_inverse E) E)
  /\ (Cesium.Matrix4.multiply (Matrix4_inverse E) E = Cesium.Matrix4.IDENTITY ->
      fst (ComposeModelMatrix.composeModelMatrixENU anchor identityParams cache)
      = Normal Cesium.Matrix4.IDENTITY).
Proof.
  intros E Hmiss.
  assert (Ec : fst (ComposeModelMatrix.composeModelMatrixENU anchor
                      identityParams cache)
               = Normal (Cesium.Matrix4.multiply (Matrix4_inverse E) E)).
  { rewrite (ComposerFacts.composeModelMatrixENU_miss anchor identityParams
               cache Hmiss).
    cbn [fst]. rewrite ComposerMore.composeLocal_identity.
    rewrite ComposerMore.Matrix4_multiply_identity_r. reflexivity. }
  split; [apply ComposerMore.composeLocal_identity |].
  split; [exact Ec |]. intros Hinv. rewrite Ec, Hinv. reflexivity.
Qed.

Lemma composeModelMatrixENU_identity_params_witness :
  fst (@ComposeModelMatrix.composeModelMatrixENU equatorExternals
         equatorAnchor identityParams [])
  = Normal Cesium.Matrix4.IDENTITY.
Proof.
  apply (@composeModelMatrixENU_identity_params equatorExternals
           equatorAnchor [] eq_refl).
  exact (proj2 ComposerFacts.equatorFrame_inverse).
Defined.

(** X14. Plane fit and composer together.  For three or more points whose
    estimated normal [n] has a Z component of at most 0.999999, whenever the
    parameters are tilt-locked on the matrix that the ground alignment
    returns, the rotation block of the composer maps Up, (0,0,1), onto [n],
    for every yaw. *)
Theorem composeRotation_locked_maps_up_to_normal
    (points : list Vec3) (n : Vec3) (al : PlaneAlignment.t) (p : EnuParams) :
  (3 <= List.length points)%nat ->
  PlaneFit.estimatePlaneNormal points = Normal n ->
  PlaneFit.alignGroundToUp points = Normal al ->
  n.(v2) <= 0.999999 ->
  p.(tiltLocked) = Some true ->
  p.(alignRotation) = Some al.(PlaneAlignment.alignMatrix) ->
  Matrix3_multiplyByVector
    (Matrix4_getMatrix3 (ComposeModelMatrix.composeRotation p)) up = n.
Proof.
  intros Hlen En Ea Hz Hl Hr.
  destruct (PlaneFitMore.estimatePlaneNormal_shape points Hlen)
    as (c1 & c2 & rest & _ & En').
  rewrite En in En'. injection En' as En'.
  destruct (PlaneFitMore.upward_facts
              (PlaneFit.normalize (PlaneFit.crossProduct c1 c2)))
    as (Hdot & Hpos & _).
  rewrite PlaneFitMore.normalize_unit_any, <- En' in Hdot.
  rewrite <- En' in Hpos.
  assert (Hd : dot n up = n.(v2)) by (unfold dot, up; cbn [v0 v1 v2]; ring).
  assert (Hm : al.(PlaneAlignment.alignMatrix)
               = PlaneFit.quaternionToMatrix3 (PlaneFit.quaternionBetween n up)).
  { revert Ea. unfold PlaneFit.alignGroundToUp. rewrite En. unfold bind.
    intros Ea. injection Ea as <-. reflexivity. }
  destruct (PlaneFitMore.general_maps n up Hdot PlaneFitFacts.dot_up_up)
    as (_ & Hcol); [rewrite Hd; lra |].
  rewrite <- Hm in Hcol. etransitivity; [| exact Hcol].
  unfold ComposeModelMatrix.composeRotation. rewrite Hl, Hr.
  cbn [truthy].
  unfold Matrix3_multiplyByVector, Matrix4_getMatrix3, up;
    cbn [Cesium.Matrix4.fromRotation Cesium.Matrix3.multiply
         Cesium.Matrix3.fromRotationZ v0 v1 v2
         Cesium.c0r0 Cesium.c0r1 Cesium.c0r2 Cesium.c1r0 Cesium.c1r1
         Cesium.c1r2 Cesium.c2r0 Cesium.c2r1 Cesium.c2r2
         Cesium.m00 Cesium.m01 Cesium.m02 Cesium.m10 Cesium.m11 Cesium.m12
         Cesium.m20 Cesium.m21 Cesium.m22].
  f_equal; ring.
Qed.

Lemma composeRotation_locked_maps_up_to_normal_witness :
  exists al,
    PlaneFit.alignGroundToUp tiltedPoints = Normal al
    /\ Matrix3_multiplyByVector
         (Matrix4_getMatrix3
            (ComposeModelMatrix.composeRotation
               (mkEnuParams 1 0.3 0 0 0 0 0 (Some true)
                  (Some al.(PlaneAlignment.alignMatrix))))) up
       = mkVec3 0 (- 0.6) 0.8.
Proof.
  pose proof PlaneFitFacts.estimatePlaneNormal_tiltedPoints as En.
  assert (Ea : exists al, PlaneFit.alignGroundToUp tiltedPoints = Normal al).
  { unfold PlaneFit.alignGroundToUp. rewrite En. unfold bind.
    eexists; reflexivity. }
  destruct Ea as (al & Ea). exists al. split; [exact Ea |].
  apply (composeRotation_locked_maps_up_to_normal tiltedPoints
           (mkVec3 0 (- 0.6) 0.8) al);
    [cbn; lia | exact En | exact Ea | cbn; lra | reflexivity | reflexivity].
Defined.

(* ================================================================= *)
(** ** The tracker over sequences of calls *)

Module TrackerMore.
Import AdjustmentTracker.

Lemma consistent_fresh (p : EnuParams) (e : bool) :
  trackerConsistent (AdjustmentTracker.mk (fresh p) e).
Proof.
  unfold trackerConsistent, fresh, TotalDeltas.zero; cbn.
  repeat split; try ring. now left.
Qed.

Lemma consistent_run (c : TrackerCall.t) (tr : AdjustmentTracker.t) :
  trackerConsistent tr -> trackerConsistent (TrackerCall.run c tr).
Proof.
  intros (Hy & Hp & Hr & He & Hn & Hu & Hs).
  destruct c; cbn [TrackerCall.run];
    try (unfold logScaleAdjustment, logYawAdjustment, logPitchAdjustment,
           logRollAdjustment, logPositionAdjustment, logHeightAdjustment;
         destruct (enabled tr); cbn [negb];
         [| unfold trackerConsistent; auto 10];
         unfold trackerConsistent, record, initial; cbn;
         repeat split; try assumption; try ring; auto).
Qed.

Lemma logs_run_no_reset (c : TrackerCall.t) (tr : AdjustmentTracker.t) :
  TrackerCall.isReset c = false ->
  exists more,
    (adjustments (TrackerCall.run c tr)).(SplatAdjustments.logs)
    = (adjustments tr).(SplatAdjustments.logs) ++ more
    /\ (adjustments (TrackerCall.run c tr)).(SplatAdjustments.initialParams)
       = (adjustments tr).(SplatAdjustments.initialParams)
    /\ (List.length more <= 1)%nat
    /\ (TrackerCall.isLog c = true -> enabled tr = true ->
        List.length more = 1%nat
        /\ enabled (TrackerCall.run c tr) = true).
Proof.
  intros Hr.
  destruct c; try discriminate; cbn [TrackerCall.run].
  1-6: unfold logScaleAdjustment, logYawAdjustment, logPitchAdjustment,
         logRollAdjustment, logPositionAdjustment, logHeightAdjustment;
       destruct (enabled tr) eqn:En; cbn [negb];
       [ eexists; unfold record; cbn [adjustments SplatAdjustments.logs
           SplatAdjustments.initialParams enabled];
         split; [reflexivity |]; split; [reflexivity |];
         split; [cbn; lia |]; intros _ _; split; [reflexivity | exact En]
       | exists []; rewrite app_nil_r; split; [reflexivity |];
         split; [reflexivity |]; split; [cbn; lia |];
         intros _ Hen; discriminate ].
  exists []. rewrite app_nil_r. cbn. repeat split; auto; discriminate.
Qed.

End TrackerMore.

(** X15. Whatever calls are made on a tracker (logging of any kind,
    [reset], [setEnabled], in any order), its six additive totals stay equal
    to the current value minus the initial value of the session, and the
    total for scale is either 0 (no scale logged since the last baseline) or
    the current scale over the initial one. *)
Theorem tracker_totals_consistent
    (p : EnuParams) (calls : list TrackerCall.t) :
  let a := (TrackerCall.runAll calls
              (AdjustmentTracker.new p)).(AdjustmentTracker.adjustments) in
  let total := a.(SplatAdjustments.totalDeltas) in
  let cur := a.(SplatAdjustments.currentParams) in
  let init := a.(SplatAdjustments.initialParams) in
  total.(TotalDeltas.yawRad) = cur.(yawRad) - init.(yawRad)
  /\ total.(TotalDeltas.pitchRad) = cur.(pitchRad) - init.(pitchRad)
  /\ total.(TotalDeltas.rollRad) = cur.(rollRad) - init.(rollRad)
  /\ total.(TotalDeltas.tEast) = cur.(tEast) - init.(tEast)
  /\ total.(TotalDeltas.tNorth) = cur.(tNorth) - init.(tNorth)
  /\ total.(TotalDeltas.tUp) = cur.(tUp) - init.(tUp)
  /\ (total.(TotalDeltas.scale) = 0
      \/ total.(TotalDeltas.scale) = cur.(scale) / init.(scale)).
Proof.
  cbv zeta.
  assert (H : forall tr, trackerConsistent tr ->
                         trackerConsistent (TrackerCall.runAll calls tr)).
  { induction calls as [| c calls IH]; intros tr Hc; [exact Hc |].
    cbn [TrackerCall.runAll fold_left].
    apply (IH (TrackerCall.run c tr)). now apply TrackerMore.consistent_run. }
  exact (H _ (TrackerMore.consistent_fresh p true)).
Qed.

(** X16. The log is append-only.  Over any sequence of calls without
    [reset], the entries present before are a prefix of the log afterwards,
    at most one entry is added per call, and the initial parameters stay
    the same; if the tracker is enabled and every call is a logging call,
    exactly one entry per call is added. *)
Theorem tracker_log_append_only
    (calls : list TrackerCall.t) (tr : AdjustmentTracker.t) :
  forallb (fun c => negb (TrackerCall.isReset c)) calls = true ->
  let logs t := t.(AdjustmentTracker.adjustments).(SplatAdjustments.logs) in
  let init t :=
    t.(AdjustmentTracker.adjustments).(SplatAdjustments.initialParams) in
  let tr' := TrackerCall.runAll calls tr in
  exists more,
    logs tr' = logs tr ++ more
    /\ init tr' = init tr
    /\ (List.length more <= List.length calls)%nat
    /\ (tr.(AdjustmentTracker.enabled) = true ->
        forallb TrackerCall.isLog calls = true ->
        List.length more = List.length calls).
Proof.
  cbv zeta. revert tr. induction calls as [| c calls IH]; intros tr Hno.
  - exists []. rewrite app_nil_r. cbn. auto.
  - cbn [forallb] in Hno. apply andb_prop in Hno as (Hc & Hrest).
    apply negb_true_iff in Hc.
    destruct (TrackerMore.logs_run_no_reset c tr Hc)
      as (m1 & L1 & I1 & N1 & F1).
    destruct (IH (TrackerCall.run c tr) Hrest) as (m2 & L2 & I2 & N2 & F2).
    exists (m1 ++ m2). cbn [TrackerCall.runAll fold_left].
    change (fold_left (fun t c0 => TrackerCall.run c0 t) calls
              (TrackerCall.run c tr))
      with (TrackerCall.runAll calls (TrackerCall.run c tr)).
    rewrite L2, L1, I2, I1, app_assoc, length_app. cbn [List.length].
    split; [reflexivity |]. split; [reflexivity |]. split; [lia |].
    intros En Hlog. cbn [forallb] in Hlog.
    apply andb_prop in Hlog as (Hlc & Hlrest).
    destruct (F1 Hlc En) as (E1 & En1). rewrite E1, (F2 En1 Hlrest). lia.
Qed.

Lemma tracker_log_append_only_witness :
  let calls := [TrackerCall.LogYaw 1 0 0.1; TrackerCall.SetEnabled false;
                TrackerCall.LogScale 2 1 2] in
  let tr' := TrackerCall.runAll calls (AdjustmentTracker.new identityParams) in
  forallb (fun c => negb (TrackerCall.isReset c)) calls = true
  /\ (List.length tr'.(AdjustmentTracker.adjustments).(SplatAdjustments.logs)
      <= 3)%nat.
Proof.
  intros calls tr'.
  assert (H : forallb (fun c => negb (TrackerCall.isReset c)) calls = true)
    by reflexivity.
  split; [exact H |].
  destruct (tracker_log_append_only calls
              (AdjustmentTracker.new identityParams) H)
    as (more & L & _ & N & _).
  subst tr'. rewrite L. cbn [AdjustmentTracker.new AdjustmentTracker.fresh
    AdjustmentTracker.adjustments SplatAdjustments.logs app].
  exact N.
Defined.

(* ================================================================= *)
(** ** The controller over sequences of operations *)

Module ControllerMore.
Import AlignmentController.

Section WithExternals.
Context {ext : Externals} {layerMethods : SplatLayerMethods}.

(** The yaw after one operation that does not assign it in bulk. *)
Lemma perform_yaw (o : operation) (h : Heap) :
  assignsYaw o = false ->
  (snd (perform o h)).(this).(enuParams).(yawRad)
  = h.(this).(enuParams).(yawRad) + yawDelta o.
Proof.
  intros Hy.
  destruct o as [now f | now d | now d | now d | now dE dN dU | pts | w m | q];
    cbn [perform yawDelta].
  - destruct (ControllerFacts.adjustScale_spec now f h) as (h' & E & A & _).
    rewrite E; cbn [snd]. rewrite A. cbn [set_scale yawRad]. ring.
  - destruct (ControllerFacts.adjustYaw_spec now d h) as (h' & E & A & _).
    rewrite E; cbn [snd]. rewrite A. reflexivity.
  - destruct (truthy h.(this).(enuParams).(tiltLocked)) eqn:L.
    + rewrite (ControllerFacts.adjustPitch_locked now d h L). cbn [snd]. ring.
    + destruct (ControllerFacts.adjustPitch_unlocked now d h L)
        as (h' & E & A & _).
      rewrite E; cbn [snd]. rewrite A. cbn [set_pitchRad yawRad]. ring.
  - destruct (truthy h.(this).(enuParams).(tiltLocked)) eqn:L.
    + rewrite (ControllerFacts.adjustRoll_locked now d h L). cbn [snd]. ring.
    + destruct (ControllerFacts.adjustRoll_unlocked now d h L)
        as (h' & E & A & _).
      rewrite E; cbn [snd]. rewrite A. cbn [set_rollRad yawRad]. ring.
  - destruct (ControllerFacts.adjustPosition_spec now dE dN dU h)
      as (h' & E & A & _).
    rewrite E; cbn [snd]. rewrite A.
    cbn [set_tUp set_tNorth set_tEast yawRad]. ring.
  - destruct pts as [points |];
      [| rewrite ControllerFacts.lockTilt_none; cbn [snd]; ring].
    destruct (Nat.lt_ge_cases (List.length points) 3) as [Hfew | Henough].
    + rewrite (ControllerFacts.lockTilt_few points h Hfew). cbn [snd]. ring.
    + destruct (ControllerFacts.lockTilt_enough points h Henough)
        as (al & h' & _ & E & A & _).
      rewrite E; cbn [snd]. rewrite A.
      cbn [set_rollRad set_pitchRad set_tiltLocked set_alignRotation yawRad].
      ring.
  - destruct (Rle_lt_dec m 0) as [Hbad | Hgood].
    + rewrite (ControllerFacts.calibrate_invalid w m h Hbad). cbn [snd]. ring.
    + destruct (ControllerFacts.calibrate_valid w m h Hgood) as (h' & E & A & _).
      rewrite E; cbn [snd]. rewrite A. cbn [set_scale yawRad]. ring.
  - destruct (ControllerFacts.setEnuParams_spec q h) as (h' & E & A & _).
    rewrite E; cbn [snd]. rewrite A.
    cbn [assignsYaw] in Hy.
    destruct (PartialEnuParams.yawRad q) eqn:Q; [discriminate |].
    destruct (truthy h.(this).(enuParams).(tiltLocked));
      cbn [Object_assign safeParams yawRad PartialEnuParams.yawRad];
      rewrite ?Q; ring.
Qed.

(** No operation clears the lock. *)
Lemma perform_keeps_lock (o : operation) (h : Heap) :
  truthy h.(this).(enuParams).(tiltLocked) = true ->
  truthy (snd (perform o h)).(this).(enuParams).(tiltLocked) = true.
Proof.
  intros L.
  destruct o as [now f | now d | now d | now d | now dE dN dU | pts | w m | q];
    cbn [perform].
  - destruct (ControllerFacts.adjustScale_spec now f h) as (h' & E & A & _).
    rewrite E; cbn [snd]. rewrite A. exact L.
  - destruct (ControllerFacts.adjustYaw_spec now d h) as (h' & E & A & _).
    rewrite E; cbn [snd]. rewrite A. exact L.
  - rewrite (ControllerFacts.adjustPitch_locked now d h L). exact L.
  - rewrite (ControllerFacts.adjustRoll_locked now d h L). exact L.
  - destruct (ControllerFacts.adjustPosition_spec now dE dN dU h)
      as (h' & E & A & _).
    rewrite E; cbn [snd]. rewrite A. exact L.
  - destruct pts as [points |];
      [| rewrite ControllerFacts.lockTilt_none; exact L].
    destruct (Nat.lt_ge_cases (List.length points) 3) as [Hfew | Henough].
    + rewrite (ControllerFacts.lockTilt_few points h Hfew). exact L.
    + destruct (ControllerFacts.lockTilt_enough points h Henough)
        as (al & h' & _ & E & A & _).
      rewrite E; cbn [snd]. rewrite A. reflexivity.
  - destruct (Rle_lt_dec m 0) as [Hbad | Hgood].
    + rewrite (ControllerFacts.calibrate_invalid w m h Hbad). exact L.
    + destruct (ControllerFacts.calibrate_valid w m h Hgood) as (h' & E & A & _).
      rewrite E; cbn [snd]. rewrite A. exact L.
  - destruct (ControllerFacts.setEnuParams_spec q h) as (h' & E & A & _).
    rewrite E; cbn [snd]. rewrite A. rewrite L.
    cbn [Object_assign safeParams tiltLocked PartialEnuParams.tiltLocked].
    exact L.
Qed.

(** One manual adjustment on an unlocked controller whose tracker is
    enabled and mirrors the parameters: the mirror is kept and one entry is
    logged. *)
Lemma adjustment_keeps_mirror (o : operation) (h : Heap) :
  isAdjustment o = true ->
  h.(this).(tracker).(AdjustmentTracker.enabled) = true ->
  truthy h.(this).(enuParams).(tiltLocked) = false ->
  AdjustmentTracker.getCurrentParams h.(this).(tracker) = h.(this).(enuParams) ->
  let h' := snd (perform o h) in
  h'.(this).(tracker).(AdjustmentTracker.enabled) = true
  /\ truthy h'.(this).(enuParams).(tiltLocked) = false
  /\ AdjustmentTracker.getCurrentParams h'.(this).(tracker) = h'.(this).(enuParams)
  /\ AdjustmentTracker.initial h'.(this).(tracker)
     = AdjustmentTracker.initial h.(this).(tracker)
  /\ List.length h'.(this).(tracker).(AdjustmentTracker.adjustments).(SplatAdjustments.logs)
     = S (List.length h.(this).(tracker).(AdjustmentTracker.adjustments).(SplatAdjustments.logs)).
Proof.
  intros Ha En L M h'. subst h'.
  unfold AdjustmentTracker.getCurrentParams in *.
  destruct o as [now f | now d | now d | now d | now dE dN dU | pts | w m | q];
    try discriminate; cbn [perform].
  - destruct (ControllerFacts.adjustScale_spec now f h) as (h' & E & A & T & _).
    rewrite E; cbn [snd]. rewrite A, T.
    unfold AdjustmentTracker.logScaleAdjustment. rewrite En. cbn [negb].
    unfold AdjustmentTracker.record, AdjustmentTracker.initial.
    cbn [AdjustmentTracker.enabled AdjustmentTracker.adjustments
         SplatAdjustments.currentParams SplatAdjustments.initialParams
         SplatAdjustments.logs set_scale tiltLocked].
    rewrite M, length_app. cbn [List.length].
    repeat split; try assumption; try reflexivity. lia.
  - destruct (ControllerFacts.adjustYaw_spec now d h) as (h' & E & A & T & _).
    rewrite E; cbn [snd]. rewrite A, T.
    unfold AdjustmentTracker.logYawAdjustment. rewrite En. cbn [negb].
    unfold AdjustmentTracker.record, AdjustmentTracker.initial.
    cbn [AdjustmentTracker.enabled AdjustmentTracker.adjustments
         SplatAdjustments.currentParams SplatAdjustments.initialParams
         SplatAdjustments.logs set_yawRad tiltLocked].
    rewrite M, length_app. cbn [List.length].
    repeat split; try assumption; try reflexivity. lia.
  - destruct (ControllerFacts.adjustPitch_unlocked now d h L)
      as (h' & E & A & T & _).
    rewrite E; cbn [snd]. rewrite A, T.
    unfold AdjustmentTracker.logPitchAdjustment. rewrite En. cbn [negb].
    unfold AdjustmentTracker.record, AdjustmentTracker.initial.
    cbn [AdjustmentTracker.enabled AdjustmentTracker.adjustments
         SplatAdjustments.currentParams SplatAdjustments.initialParams
         SplatAdjustments.logs set_pitchRad tiltLocked].
    rewrite M, length_app. cbn [List.length].
    repeat split; try assumption; try reflexivity. lia.
  - destruct (ControllerFacts.adjustRoll_unlocked now d h L)
      as (h' & E & A & T & _).
    rewrite E; cbn [snd]. rewrite A, T.
    unfold AdjustmentTracker.logRollAdjustment. rewrite En. cbn [negb].
    unfold AdjustmentTracker.record, AdjustmentTracker.initial.
    cbn [AdjustmentTracker.enabled AdjustmentTracker.adjustments
         SplatAdjustments.currentParams SplatAdjustments.initialParams
         SplatAdjustments.logs set_rollRad tiltLocked].
    rewrite M, length_app. cbn [List.length].
    repeat split; try assumption; try reflexivity. lia.
  - destruct (ControllerFacts.adjustPosition_spec now dE dN dU h)
      as (h' & E & A & T & _).
    rewrite E; cbn [snd]. rewrite A, T.
    unfold AdjustmentTracker.logPositionAdjustment. rewrite En. cbn [negb].
    unfold AdjustmentTracker.record, AdjustmentTracker.initial.
    cbn [AdjustmentTracker.enabled AdjustmentTracker.adjustments
         SplatAdjustments.currentParams SplatAdjustments.initialParams
         SplatAdjustments.logs set_tUp set_tNorth set_tEast tiltLocked].
    rewrite M, length_app. cbn [List.length].
    repeat split; try assumption; try reflexivity. lia.
Qed.

End WithExternals.
End ControllerMore.

(** X17. Manual adjustments are mirrored.  After any sequence of
    adjustScale / adjustYaw / adjustPitch / adjustRoll / adjustPosition calls
    on a new controller, the tracker's current parameters are the
    controller's parameters, its initial parameters are those the controller
    started with, and its log has one entry per call. *)
Theorem adjustments_are_mirrored
    {ext : Externals} {layerMethods : SplatLayerMethods}
    (layer : GaussianSplatLayer.t) (ops : list AlignmentController.operation) :
  forallb isAdjustment ops = true ->
  let h0 := AlignmentController.start layer in
  let h := AlignmentController.runAll ops h0 in
  let tr := h.(AlignmentController.this).(AlignmentController.tracker) in
  AdjustmentTracker.getCurrentParams tr
    = h.(AlignmentController.this).(AlignmentController.enuParams)
  /\ AdjustmentTracker.initial tr
     = h0.(AlignmentController.this).(AlignmentController.enuParams)
  /\ List.length tr.(AdjustmentTracker.adjustments).(SplatAdjustments.logs)
     = List.length ops.
Proof.
  intros Hops h0 h tr. subst h tr.
  assert (G : forall (l : list AlignmentController.operation)
                     (h : AlignmentController.Heap),
             forallb isAdjustment l = true ->
             let tr := h.(AlignmentController.this).(AlignmentController.tracker) in
             let p := h.(AlignmentController.this).(AlignmentController.enuParams) in
             tr.(AdjustmentTracker.enabled) = true ->
             truthy p.(tiltLocked) = false ->
             AdjustmentTracker.getCurrentParams tr = p ->
             let h' := AlignmentController.runAll l h in
             let tr' := h'.(AlignmentController.this).(AlignmentController.tracker) in
             AdjustmentTracker.getCurrentParams tr'
               = h'.(AlignmentController.this).(AlignmentController.enuParams)
             /\ AdjustmentTracker.initial tr' = AdjustmentTracker.initial tr
             /\ List.length tr'.(AdjustmentTracker.adjustments).(SplatAdjustments.logs)
                = (List.length tr.(AdjustmentTracker.adjustments).(SplatAdjustments.logs)
                   + List.length l)%nat).
  { induction l as [| o l IH]; intros h Hl; cbv zeta; intros En L M.
    - cbn. repeat split; auto.
    - cbn [forallb] in Hl. apply andb_prop in Hl as (Ho & Hrest).
      destruct (ControllerMore.adjustment_keeps_mirror o h Ho En L M)
        as (En' & L' & M' & I' & N').
      cbn [AlignmentController.runAll fold_left].
      destruct (IH (snd (AlignmentController.perform o h)) Hrest En' L' M')
        as (M2 & I2 & N2).
      unfold AlignmentController.runAll in M2, I2, N2.
      rewrite M2, I2, N2, I', N'. cbn [List.length].
      repeat split; auto; lia. }
  destruct (G ops h0 Hops eq_refl eq_refl eq_refl) as (M & I & N).
  split; [exact M |]. split; [exact I |]. rewrite N. reflexivity.
Qed.

Lemma adjustments_are_mirrored_witness :
  let ops := [AlignmentController.AdjustScale 1 1.1;
              AlignmentController.AdjustPitch 2 0.1;
              AlignmentController.AdjustPosition 3 1 0 0] in
  let h := @AlignmentController.runAll equatorExternals plainLayerMethods
             ops plainStart in
  forallb isAdjustment ops = true
  /\ AdjustmentTracker.getCurrentParams
       h.(AlignmentController.this).(AlignmentController.tracker)
     = h.(AlignmentController.this).(AlignmentController.enuParams).
Proof.
  intros ops h.
  assert (H : forallb isAdjustment ops = true) by reflexivity.
  split; [exact H |].
  exact (proj1 (@adjustments_are_mirrored equatorExternals plainLayerMethods
                  plainLayer ops H)).
Defined.

(** X18. Yaw is changed by adjustYaw and by a bulk assignment of yawRad
    only.  Over any sequence of operations without such a bulk assignment
    (scale, pitch, roll, position, tilt lock and calibration included, locked
    or not) the final yaw is the first yaw plus the sum of the adjustYaw
    deltas. *)
Theorem yaw_accumulates
    {ext : Externals} {layerMethods : SplatLayerMethods}
    (ops : list AlignmentController.operation) (h : AlignmentController.Heap) :
  forallb (fun o => negb (assignsYaw o)) ops = true ->
  (AlignmentController.runAll ops h).(AlignmentController.this).(AlignmentController.enuParams).(yawRad)
  = h.(AlignmentController.this).(AlignmentController.enuParams).(yawRad)
    + fold_right Rplus 0 (map yawDelta ops).
Proof.
  revert h. induction ops as [| o ops IH]; intros h Hops.
  - cbn. ring.
  - cbn [forallb] in Hops. apply andb_prop in Hops as (Ho & Hrest).
    apply negb_true_iff in Ho.
    cbn [AlignmentController.runAll fold_left map fold_right].
    change (fold_left (fun h0 o0 => snd (AlignmentController.perform o0 h0)) ops
              (snd (AlignmentController.perform o h)))
      with (AlignmentController.runAll ops (snd (AlignmentController.perform o h))).
    rewrite (IH _ Hrest), (ControllerMore.perform_yaw o h Ho). ring.
Qed.

Lemma yaw_accumulates_witness :
  let ops := [AlignmentController.AdjustYaw 1 0.1;
              AlignmentController.LockTilt (Some tiltedPoints);
              AlignmentController.AdjustYaw 2 0.2] in
  forallb (fun o => negb (assignsYaw o)) ops = true
  /\ (@AlignmentController.runAll equatorExternals plainLayerMethods ops
        plainStart).(AlignmentController.this).(AlignmentController.enuParams).(yawRad)
     = plainStart.(AlignmentController.this).(AlignmentController.enuParams).(yawRad)
       + (0.1 + (0 + (0.2 + 0))).
Proof.
  intros ops.
  assert (H : forallb (fun o => negb (assignsYaw o)) ops = true) by reflexivity.
  split; [exact H |].
  exact (@yaw_accumulates equatorExternals plainLayerMethods ops plainStart H).
Defined.

(** X19. There is no way out of the tilt lock.  From a locked state with
    zero pitch and roll, every sequence of controller operations ends in a
    locked state with zero pitch and roll. *)
Theorem tilt_lock_is_permanent
    {ext : Externals} {layerMethods : SplatLayerMethods}
    (ops : list AlignmentController.operation) (h : AlignmentController.Heap) :
  let params h :=
    h.(AlignmentController.this).(AlignmentController.enuParams) in
  truthy (params h).(tiltLocked) = true ->
  (params h).(pitchRad) = 0 -> (params h).(rollRad) = 0 ->
  let h' := AlignmentController.runAll ops h in
  truthy (params h').(tiltLocked) = true
  /\ (params h').(pitchRad) = 0 /\ (params h').(rollRad) = 0.
Proof.
  cbv zeta. revert h. induction ops as [| o ops IH]; intros h L Hp Hr.
  - cbn. auto.
  - cbn [AlignmentController.runAll fold_left].
    pose proof (ControllerMore.perform_keeps_lock o h L) as L'.
    assert (I : tiltInvariant
                  (snd (AlignmentController.perform o h)).(AlignmentController.this).(AlignmentController.enuParams)).
    { apply LockFacts.perform_keeps_invariant.
      - intros _. auto.
      - intros q _ Hfalse. rewrite L in Hfalse. discriminate. }
    destruct (I L') as (Hp' & Hr').
    exact (IH _ L' Hp' Hr').
Qed.

Lemma tilt_lock_is_permanent_witness :
  let h := snd (@AlignmentController.lockTilt equatorExternals
                  plainLayerMethods (Some tiltedPoints) plainStart) in
  let unlock := PartialEnuParams.mk None None (Some 0.5) None None None None
                  (Some (Some false)) None in
  let ops := [AlignmentController.SetEnuParams unlock;
              AlignmentController.AdjustPitch 1 0.3] in
  let h' := @AlignmentController.runAll equatorExternals plainLayerMethods
              ops h in
  truthy h.(AlignmentController.this).(AlignmentController.enuParams).(tiltLocked)
    = true
  /\ truthy h'.(AlignmentController.this).(AlignmentController.enuParams).(tiltLocked)
     = true
  /\ h'.(AlignmentController.this).(AlignmentController.enuParams).(pitchRad) = 0.
Proof.
  intros h unlock ops h'.
  assert (Hn : (3 <= List.length tiltedPoints)%nat) by (cbn; lia).
  destruct (@ControllerFacts.lockTilt_enough equatorExternals plainLayerMethods
              tiltedPoints plainStart Hn) as (al & h1 & _ & E & A & _).
  assert (Eh : h = h1) by (subst h; rewrite E; reflexivity).
  assert (L : truthy h.(AlignmentController.this).(AlignmentController.enuParams).(tiltLocked)
              = true) by (rewrite Eh, A; reflexivity).
  assert (Hp : h.(AlignmentController.this).(AlignmentController.enuParams).(pitchRad)
               = 0) by (rewrite Eh, A; reflexivity).
  assert (Hr : h.(AlignmentController.this).(AlignmentController.enuParams).(rollRad)
               = 0) by (rewrite Eh, A; reflexivity).
  split; [exact L |].
  destruct (@tilt_lock_is_permanent equatorExternals plainLayerMethods
              ops h L Hp Hr) as (L' & Hp' & _).
  split; [exact L' | exact Hp'].
Defined.

(** X20. lockTilt with three or more ground points always takes effect,
    whatever the points are (the [catch] branch is never taken): the plane
    fit returns an alignment, its matrix is stored as alignRotation, the lock
    is set, pitch and roll are zeroed, scale, yaw and the translation are
    kept, and nothing is logged in the tracker. *)
Theorem lockTilt_takes_effect
    {ext : Externals} {layerMethods : SplatLayerMethods}
    (points : list Vec3) (h : AlignmentController.Heap) :
  (3 <= List.length points)%nat ->
  let p := h.(AlignmentController.this).(AlignmentController.enuParams) in
  let h' := snd (AlignmentController.lockTilt (Some points) h) in
  let p' := h'.(AlignmentController.this).(AlignmentController.enuParams) in
  fst (AlignmentController.lockTilt (Some points) h) = Normal tt
  /\ (exists al, PlaneFit.alignGroundToUp points = Normal al
                 /\ p'.(alignRotation) = Some al.(PlaneAlignment.alignMatrix))
  /\ p'.(tiltLocked) = Some true
  /\ p'.(pitchRad) = 0 /\ p'.(rollRad) = 0
  /\ p'.(scale) = p.(scale) /\ p'.(yawRad) = p.(yawRad)
  /\ p'.(tEast) = p.(tEast) /\ p'.(tNorth) = p.(tNorth) /\ p'.(tUp) = p.(tUp)
  /\ h'.(AlignmentController.this).(AlignmentController.tracker)
     = h.(AlignmentController.this).(AlignmentController.tracker).
Proof.
  intros Hn p h' p'. subst p' h'.
  destruct (ControllerFacts.lockTilt_enough points h Hn)
    as (al & h1 & Eal & E & A & T & _).
  rewrite E; cbn [fst snd]. rewrite A, T.
  split; [reflexivity |].
  split; [exists al; split; [exact Eal | reflexivity] |].
  repeat split.
Qed.

Lemma lockTilt_takes_effect_witness :
  (snd (@AlignmentController.lockTilt equatorExternals plainLayerMethods
          (Some tiltedPoints) plainStart)).(AlignmentController.this).(AlignmentController.enuParams).(tiltLocked)
  = Some true.
Proof.
  assert (Hn : (3 <= List.length tiltedPoints)%nat) by (cbn; lia).
  exact (proj1 (proj2 (proj2
           (@lockTilt_takes_effect equatorExternals plainLayerMethods
              tiltedPoints plainStart Hn)))).
Defined.

(** X21. While the tilt is locked, a bulk assignment changes scale, yaw and
    the translation only (each where the argument carries it); pitch, roll,
    the alignment rotation and the lock flag stay as they are, whatever the
    argument says, and nothing is logged in the tracker. *)
Theorem setEnuParams_while_locked
    {ext : Externals} {layerMethods : SplatLayerMethods}
    (q : PartialEnuParams.t) (h : AlignmentController.Heap) :
  let p := h.(AlignmentController.this).(AlignmentController.enuParams) in
  truthy p.(tiltLocked) = true ->
  let h' := snd (AlignmentController.setEnuParams q h) in
  let p' := h'.(AlignmentController.this).(AlignmentController.enuParams) in
  let pick (given : option R) (old : R) :=
    match given with Some v => v | None => old end in
  p'.(scale) = pick q.(PartialEnuParams.scale) p.(scale)
  /\ p'.(yawRad) = pick q.(PartialEnuParams.yawRad) p.(yawRad)
  /\ p'.(tEast) = pick q.(PartialEnuParams.tEast) p.(tEast)
  /\ p'.(tNorth) = pick q.(PartialEnuParams.tNorth) p.(tNorth)
  /\ p'.(tUp) = pick q.(PartialEnuParams.tUp) p.(tUp)
  /\ p'.(pitchRad) = p.(pitchRad) /\ p'.(rollRad) = p.(rollRad)
  /\ p'.(alignRotation) = p.(alignRotation)
  /\ p'.(tiltLocked) = p.(tiltLocked)
  /\ h'.(AlignmentController.this).(AlignmentController.tracker)
     = h.(AlignmentController.this).(AlignmentController.tracker).
Proof.
  intros p L h' p' pick. subst p' h' pick p.
  destruct (ControllerFacts.setEnuParams_spec q h) as (h1 & E & A & T & _).
  rewrite E; cbn [snd]. rewrite A, T, L.
  unfold Object_assign, AlignmentController.safeParams; cbn.
  repeat split.
Qed.

Lemma setEnuParams_while_locked_witness :
  let h := snd (@AlignmentController.lockTilt equatorExternals
                  plainLayerMethods (Some tiltedPoints) plainStart) in
  let q := PartialEnuParams.mk (Some 2) None (Some 0.5) None None None None
             (Some (Some false)) None in
  let p' := (snd (@AlignmentController.setEnuParams equatorExternals
                    plainLayerMethods q h)).(AlignmentController.this).(AlignmentController.enuParams) in
  p'.(scale) = 2
  /\ p'.(pitchRad)
     = h.(AlignmentController.this).(AlignmentController.enuParams).(pitchRad).
Proof.
  intros h q p'.
  assert (Hn : (3 <= List.length tiltedPoints)%nat) by (cbn; lia).
  destruct (@ControllerFacts.lockTilt_enough equatorExternals plainLayerMethods
              tiltedPoints plainStart Hn) as (al & h1 & _ & E & A & _).
  assert (Eh : h = h1) by (subst h; rewrite E; reflexivity).
  assert (L : truthy h.(AlignmentController.this).(AlignmentController.enuParams).(tiltLocked)
              = true) by (rewrite Eh, A; reflexivity).
  destruct (@setEnuParams_while_locked equatorExternals plainLayerMethods
              q h L) as (Hs & _ & _ & _ & _ & Hp & _).
  split; [exact Hs | exact Hp].
Defined.

(** X22. adjustScale keeps the scale in [0.1, 50].  Whatever the scale was
    and whatever the factor is (zero and negative factors included), the
    scale afterwards lies between 0.1 and 50; it is the product where the
    product lies in that range, 0.1 where the product is smaller and 50
    where it is larger; the other parameters are kept. *)
Theorem adjustScale_stays_in_range
    {ext : Externals} {layerMethods : SplatLayerMethods}
    (now : Z) (factor : R) (h : AlignmentController.Heap) :
  let p := h.(AlignmentController.this).(AlignmentController.enuParams) in
  let p' := (snd (AlignmentController.adjustScale now factor h)).(AlignmentController.this).(AlignmentController.enuParams) in
  0.1 <= p'.(scale) <= 50
  /\ (0.1 <= p.(scale) * factor <= 50 -> p'.(scale) = p.(scale) * factor)
  /\ (p.(scale) * factor <= 0.1 -> p'.(scale) = 0.1)
  /\ (50 <= p.(scale) * factor -> p'.(scale) = 50)
  /\ set_scale p.(scale) p' = p.
Proof.
  intros p p'. subst p' p.
  destruct (ControllerFacts.adjustScale_spec now factor h) as (h1 & E & A & _).
  rewrite E; cbn [snd]. rewrite A. cbn [set_scale scale].
  set (s := scale _ * factor).
  assert (C : (0.1 <= Rmax 0.1 (Rmin 50.0 s) <= 50)
              /\ (0.1 <= s <= 50 -> Rmax 0.1 (Rmin 50.0 s) = s)
              /\ (s <= 0.1 -> Rmax 0.1 (Rmin 50.0 s) = 0.1)
              /\ (50 <= s -> Rmax 0.1 (Rmin 50.0 s) = 50)).
  { unfold Rmin. destruct (Rle_dec 50.0 s) as [Hs | Hs];
      unfold Rmax;
      match goal with |- context [Rle_dec ?a ?b] => destruct (Rle_dec a b) end;
      repeat split; intros; lra. }
  destruct C as (C1 & C2 & C3 & C4).
  repeat split; try tauto.
  destruct (AlignmentController.enuParams (AlignmentController.this h));
    reflexivity.
Qed.

Lemma adjustScale_stays_in_range_witness :
  (snd (@AlignmentController.adjustScale equatorExternals plainLayerMethods
          1 (-3) plainStart)).(AlignmentController.this).(AlignmentController.enuParams).(scale)
  = 0.1.
Proof.
  destruct (@adjustScale_stays_in_range equatorExternals plainLayerMethods
              1 (-3) plainStart) as (_ & _ & Hlow & _).
  apply Hlow. cbn. unfold orDefault.
  destruct (Req_dec_T 1 0); lra.
Defined.

(* ================================================================= *)
(** ** The haversine distance *)

Module HaversineMore.

Lemma atan2_sin_cos (h : R) :
  0 <= h <= PI / 2 -> Math_atan2 (sin h) (cos h) = h.
Proof.
  intros (H0 & H1). unfold Math_atan2.
  destruct (Req_dec h (PI / 2)) as [-> | Hne].
  - rewrite cos_PI2, sin_PI2.
    destruct (Rlt_dec 0 0) as [H | _]; [lra |].
    destruct (Rlt_dec 0 1) as [_ | H]; [reflexivity | lra].
  - assert (Hc : 0 < cos h) by (apply cos_gt_0; lra).
    destruct (Rlt_dec 0 (cos h)) as [_ | H]; [| contradiction].
    change (sin h / cos h) with (tan h). apply atan_tan. lra.
Qed.

(** Cauchy-Schwarz for the cosine of the central angle. *)
Lemma cos_angle_bound (s1 c1 s2 c2 cd : R) :
  s1 * s1 + c1 * c1 = 1 -> s2 * s2 + c2 * c2 = 1 -> -1 <= cd <= 1 ->
  -1 <= s1 * s2 + c1 * c2 * cd <= 1.
Proof.
  intros H1 H2 (Hl & Hu).
  assert (A1 : 0 <= 1 - s1 * s2 - c1 * c2)
    by (pose proof (Rle_0_sqr (s1 - s2)); pose proof (Rle_0_sqr (c1 - c2));
        unfold Rsqr in *; lra).
  assert (A2 : 0 <= 1 - s1 * s2 + c1 * c2)
    by (pose proof (Rle_0_sqr (s1 - s2)); pose proof (Rle_0_sqr (c1 + c2));
        unfold Rsqr in *; lra).
  assert (A3 : 0 <= 1 + s1 * s2 + c1 * c2)
    by (pose proof (Rle_0_sqr (s1 + s2)); pose proof (Rle_0_sqr (c1 + c2));
        unfold Rsqr in *; lra).
  assert (A4 : 0 <= 1 + s1 * s2 - c1 * c2)
    by (pose proof (Rle_0_sqr (s1 + s2)); pose proof (Rle_0_sqr (c1 - c2));
        unfold Rsqr in *; lra).
  assert (B1 : 0 <= (1 + cd) * (1 - s1 * s2 - c1 * c2))
    by (apply Rmult_le_pos; lra).
  assert (B2 : 0 <= (1 - cd) * (1 - s1 * s2 + c1 * c2))
    by (apply Rmult_le_pos; lra).
  assert (B3 : 0 <= (1 + cd) * (1 + s1 * s2 + c1 * c2))
    by (apply Rmult_le_pos; lra).
  assert (B4 : 0 <= (1 - cd) * (1 + s1 * s2 - c1 * c2))
    by (apply Rmult_le_pos; lra).
  split; lra.
Qed.

Lemma sin_cos_one (x : R) : sin x * sin x + cos x * cos x = 1.
Proof. pose proof (sin2_cos2 x) as H. unfold Rsqr in H. exact H. Qed.

(** The quantity [a] of the source is the haversine of the central
    angle. *)
Lemma haversine_a (p1 p2 dl : R) :
  sin ((p2 - p1) / 2) * sin ((p2 - p1) / 2)
  + cos p1 * cos p2 * sin (dl / 2) * sin (dl / 2)
  = (1 - (sin p1 * sin p2 + cos p1 * cos p2 * cos dl)) / 2.
Proof.
  pose proof (cos_2a_sin ((p2 - p1) / 2)) as H1.
  replace (2 * ((p2 - p1) / 2)) with (p2 - p1) in H1 by field.
  rewrite cos_minus in H1.
  pose proof (cos_2a_sin (dl / 2)) as H2.
  replace (2 * (dl / 2)) with dl in H2 by field.
  set (u := sin ((p2 - p1) / 2)) in *. set (w := sin (dl / 2)) in *.
  assert (Eu : u * u = (1 - (cos p2 * cos p1 + sin p2 * sin p1)) / 2) by lra.
  assert (Ew : w * w = (1 - cos dl) / 2) by lra.
  replace (cos p1 * cos p2 * w * w) with (cos p1 * cos p2 * (w * w)) by ring.
  rewrite Eu, Ew. field.
Qed.

(** Twice the arctangent of the source is the arc cosine. *)
Lemma atan2_haversine (X : R) :
  -1 <= X <= 1 ->
  2 * Math_atan2 (sqrt ((1 - X) / 2)) (sqrt (1 - (1 - X) / 2)) = acos X.
Proof.
  intros HX.
  pose proof (acos_bound X) as (T0 & T1).
  pose proof (cos_acos X HX) as HC.
  set (h := acos X / 2).
  assert (Hh : 0 <= h <= PI / 2) by (unfold h; lra).
  pose proof (cos_2a_sin h) as S. pose proof (cos_2a_cos h) as C.
  replace (2 * h) with (acos X) in S, C by (unfold h; field).
  rewrite HC in S, C.
  replace ((1 - X) / 2) with (sin h * sin h) by lra.
  replace (1 - sin h * sin h) with (cos h * cos h) by lra.
  rewrite !sqrt_square.
  - rewrite (atan2_sin_cos h Hh). unfold h. field.
  - apply cos_ge_0; lra.
  - apply sin_ge_0; lra.
Qed.

Lemma distance_formula (lon1 lat1 lon2 lat2 : R) :
  let X := sin (lat1 * PI / 180) * sin (lat2 * PI / 180)
           + cos (lat1 * PI / 180) * cos (lat2 * PI / 180)
             * cos ((lon2 - lon1) * PI / 180) in
  -1 <= X <= 1
  /\ Haversine.distanceInMeters lon1 lat1 lon2 lat2
     = Some (6371000 * acos X).
Proof.
  intros X.
  assert (HX : -1 <= X <= 1).
  { apply cos_angle_bound; try apply sin_cos_one. apply COS_bound. }
  split; [exact HX |].
  unfold Haversine.distanceInMeters. cbv zeta.
  replace ((lat2 - lat1) * PI / 180 / 2)
    with ((lat2 * PI / 180 - lat1 * PI / 180) / 2) by field.
  rewrite (haversine_a (lat1 * PI / 180) (lat2 * PI / 180)
             ((lon2 - lon1) * PI / 180)).
  fold X.
  destruct (Rlt_dec ((1 - X) / 2) 0) as [H | _]; [lra |].
  destruct (Rlt_dec (1 - (1 - X) / 2) 0) as [H | _]; [lra |].
  rewrite (atan2_haversine X HX). reflexivity.
Qed.

End HaversineMore.

(** X23. distanceInMeters is the great-circle distance on a sphere of
    radius 6371000 m.  With cosAngle the cosine of the central angle,
    sin(lat1) sin(lat2) + cos(lat1) cos(lat2) cos(lon2 - lon1), for
    coordinates in degrees: whenever the two points are not nearly
    antipodal (cosAngle at least -0.999999) the result is a number, the
    radius times the arc cosine of cosAngle; it lies between 0 and half the
    circumference and does not depend on the order of the two points.  For
    a point and itself the result is 0. *)
Theorem distanceInMeters_great_circle (lon1 lat1 lon2 lat2 : R) :
  let rad (deg : R) := deg * PI / 180 in
  let cosAngle := sin (rad lat1) * sin (rad lat2)
                  + cos (rad lat1) * cos (rad lat2)
                    * cos (rad lon2 - rad lon1) in
  (- 0.999999 <= cosAngle ->
   exists d,
     Haversine.distanceInMeters lon1 lat1 lon2 lat2 = Some d
     /\ d = 6371000 * acos cosAngle
     /\ 0 <= d <= 6371000 * PI
     /\ Haversine.distanceInMeters lon2 lat2 lon1 lat1 = Some d)
  /\ Haversine.distanceInMeters lon1 lat1 lon1 lat1 = Some 0.
Proof.
  intros rad cosAngle. subst rad cosAngle. cbv beta.
  destruct (HaversineMore.distance_formula lon1 lat1 lon2 lat2) as (HX & E).
  destruct (HaversineMore.distance_formula lon2 lat2 lon1 lat1) as (_ & E').
  destruct (HaversineMore.distance_formula lon1 lat1 lon1 lat1) as (_ & E0).
  cbv zeta in HX, E, E', E0.
  replace (lon2 * PI / 180 - lon1 * PI / 180)
    with ((lon2 - lon1) * PI / 180) by field.
  split.
  - intros _. eexists. split; [exact E |]. split; [reflexivity |]. split.
    + match goal with |- context [acos ?x] => pose proof (acos_bound x) end.
      lra.
    + rewrite E'. f_equal. f_equal. f_equal.
      replace ((lon1 - lon2) * PI / 180)
        with (- ((lon2 - lon1) * PI / 180)) by field.
      rewrite cos_neg. ring.
  - rewrite E0. f_equal.
    replace ((lon1 - lon1) * PI / 180) with 0 by field.
    rewrite cos_0.
    replace (_ + _) with 1
      by (pose proof (HaversineMore.sin_cos_one (lat1 * PI / 180)); lra).
    rewrite acos_1. ring.
Qed.

Lemma distanceInMeters_great_circle_witness :
  Haversine.distanceInMeters 0 0 90 0 = Some (6371000 * (PI / 2)).
Proof.
  destruct (distanceInMeters_great_circle 0 0 90 0) as (H & _).
  cbv zeta beta in H.
  assert (E : sin (0 * PI / 180) * sin (0 * PI / 180)
              + cos (0 * PI / 180) * cos (0 * PI / 180)
                * cos (90 * PI / 180 - 0 * PI / 180) = 0).
  { replace (90 * PI / 180 - 0 * PI / 180) with (PI / 2) by field.
    replace (0 * PI / 180) with 0 by field.
    rewrite sin_0, cos_0, cos_PI2. ring. }
  rewrite E in H.
  destruct H as (d & Hd & Hv & _); [lra |].
  rewrite Hd, Hv, acos_0. reflexivity.
Defined.

(* ================================================================= *)
(** ** Scale from camera data and from road classes *)

Module CalibrationMore.
Import RoadWidth.

(** The widths of the table lie between 3 and 24 metres. *)
Lemma roadWidths_range (highway : string) (w : R) :
  Map_get highway roadWidths = Some w -> 3 <= w <= 24.
Proof.
  unfold roadWidths. cbn [Map_get].
  repeat match goal with
         | |- context [if ?c then _ else _] => destruct c
         end;
    intros E; try discriminate; injection E as <-; lra.
Qed.

(** No inherited name is a key of the table. *)
Lemma inherited_not_listed (highway : string) :
  inherits highway = true -> Map_get highway roadWidths = None.
Proof.
  unfold inherits. intros H. apply existsb_exists in H as (name & Hin & E).
  apply String.eqb_eq in E. subst name.
  cbn [In Object_prototype_names] in Hin.
  repeat (destruct Hin as [<- | Hin]; [reflexivity |]).
  contradiction.
Qed.

End CalibrationMore.

(** X24. The ground sampling distance from camera data: with the altitude
    in metres, the pixel pitch in micrometres and a focal length in
    millimetres other than 0, the result is altitude x pitch / (1000 x focal
    length); it is positive for positive inputs, and it does not change when
    altitude and focal length are scaled by the same factor. *)
Theorem metersPerPixelFromExif_formula
    (altitudeAGL_m focalLength_mm pixelPitch_um : R) :
  focalLength_mm <> 0 ->
  let gsd := ScaleCalibration.metersPerPixelFromExif
               altitudeAGL_m focalLength_mm pixelPitch_um in
  gsd = altitudeAGL_m * pixelPitch_um / (1000 * focalLength_mm)
  /\ (0 < altitudeAGL_m -> 0 < focalLength_mm -> 0 < pixelPitch_um -> 0 < gsd)
  /\ (forall k, k <> 0 ->
        ScaleCalibration.metersPerPixelFromExif
          (k * altitudeAGL_m) (k * focalLength_mm) pixelPitch_um = gsd).
Proof.
  intros Hf gsd.
  assert (E : forall a f p, f <> 0 ->
            ScaleCalibration.metersPerPixelFromExif a f p
            = a * p / (1000 * f)).
  { intros a f p Hne. unfold ScaleCalibration.metersPerPixelFromExif.
    cbv zeta.
    replace 1e-6 with (/ 1000000) by lra. replace 1e-3 with (/ 1000) by lra.
    field. exact Hne. }
  subst gsd. rewrite (E _ _ _ Hf).
  split; [reflexivity |]. split.
  - intros Ha Hfl Hp. apply Rdiv_lt_0_compat; [| lra].
    apply Rmult_lt_0_compat; assumption.
  - intros k Hk. rewrite E; [field; lra |].
    intros Hz. apply Rmult_integral in Hz. tauto.
Qed.

Lemma metersPerPixelFromExif_formula_witness :
  ScaleCalibration.metersPerPixelFromExif 100 10 2 = 100 * 2 / (1000 * 10).
Proof.
  assert (H : (10 : R) <> 0) by lra.
  exact (proj1 (metersPerPixelFromExif_formula 100 10 2 H)).
Defined.

(** X25. The road width estimate.  A positive lane count decides alone:
    3.6 m per lane, whatever the road class.  Without one (absent, zero or
    negative), a road class that is not the name of an inherited object
    member gives a width between 3 and 24 metres, 8 for a class that is not
    listed; a road class that is such a name (as "constructor") gives that
    member back instead of a number. *)
Theorem estimateRoadWidthMeters_cases (highway : string) :
  (forall lanes, 0 < lanes ->
     RoadWidth.estimateRoadWidthMeters highway (Some lanes)
     = RoadWidth.meters (lanes * 3.6))
  /\ (forall lanes,
        lanes = None \/ (exists l, lanes = Some l /\ l <= 0) ->
        (RoadWidth.inherits highway = false ->
         exists w,
           RoadWidth.estimateRoadWidthMeters highway lanes = RoadWidth.meters w
           /\ 3 <= w <= 24
           /\ (Map_get highway RoadWidth.roadWidths = None -> w = 8))
        /\ (RoadWidth.inherits highway = true ->
            RoadWidth.estimateRoadWidthMeters highway lanes
            = RoadWidth.inheritedMember highway)).
Proof.
  split.
  - intros lanes Hl. unfold RoadWidth.estimateRoadWidthMeters. cbv zeta.
    destruct (Req_dec_T lanes 0) as [H | _]; [lra |].
    destruct (Rlt_dec 0 lanes) as [_ | H]; [| contradiction].
    reflexivity.
  - intros lanes Hlanes.
    assert (E : RoadWidth.estimateRoadWidthMeters highway lanes
                = RoadWidth.estimateRoadWidthMeters highway None).
    { destruct Hlanes as [-> | (l & -> & Hl)]; [reflexivity |].
      unfold RoadWidth.estimateRoadWidthMeters. cbv zeta.
      destruct (Req_dec_T l 0) as [_ | _]; [reflexivity |].
      destruct (Rlt_dec 0 l) as [H | _]; [lra | reflexivity]. }
    rewrite E. unfold RoadWidth.estimateRoadWidthMeters. cbv zeta.
    split.
    + intros Hin.
      destruct (Map_get highway RoadWidth.roadWidths) as [w |] eqn:G.
      * pose proof (CalibrationMore.roadWidths_range highway w G) as Hw.
        exists w. unfold orDefault.
        destruct (Req_dec_T w 0) as [H | _]; [lra |].
        split; [reflexivity |]. split; [exact Hw | discriminate].
      * rewrite Hin. exists 8. split; [reflexivity |]. split; [lra | auto].
    + intros Hin.
      rewrite (CalibrationMore.inherited_not_listed highway Hin), Hin.
      reflexivity.
Qed.

Lemma estimateRoadWidthMeters_cases_witness :
  RoadWidth.estimateRoadWidthMeters "residential" (Some 2)
  = RoadWidth.meters (2 * 3.6)
  /\ RoadWidth.estimateRoadWidthMeters "constructor" None
     = RoadWidth.inheritedMember "constructor".
Proof.
  destruct (estimateRoadWidthMeters_cases "residential") as (Hl & _).
  destruct (estimateRoadWidthMeters_cases "constructor") as (_ & Hn).
  split.
  - apply Hl. lra.
  - apply (Hn None); [left; reflexivity | reflexivity].
Defined.
